(** * Mint: a shallow embedding of the task-queue driver and its agents

    The development follows the Python sources [mint/agents.py],
    [mint/pipeline.py] and [mint/google_sheet.py], and the report that
    [mint/cli.py] prints after a pass.  Python strings are
    modelled as lists of characters whose code points lie below 256;
    on that range the definitions of [PyStr] agree with the Python
    built-ins they are named after. *)

From Stdlib Require Import Ascii String.
From Stdlib Require Import DecimalString.
From Stdlib Require Import List ZArith Lia Bool Arith PeanoNat.
Import ListNotations.
Local Open Scope list_scope.

(* ===================================================================== *)
(** * Part I: definitions                                                 *)
(* ===================================================================== *)

(** ** Python string primitives *)

Module PyStr.

Definition str : Type := list ascii.

(** A string literal of the source. *)
Definition lit (s : string) : str := list_ascii_of_string s.

Definition code (c : ascii) : nat := nat_of_ascii c.

Definition between (lo hi n : nat) : bool := (lo <=? n) && (n <=? hi).

(** [str.isspace] on a single character: TAB..CR, FS..US, space, NEL and
    the no-break space. *)
Definition isspace (c : ascii) : bool :=
  let n := code c in
  between 9 13 n || between 28 32 n || (n =? 133) || (n =? 160).

(** [str.lower] on a single character: A-Z and the Latin-1 capitals
    (all of 192..222 but the multiplication sign). *)
Definition lower_char (c : ascii) : ascii :=
  let n := code c in
  if between 65 90 n || (between 192 222 n && negb (n =? 215))
  then ascii_of_nat (n + 32) else c.

Definition upper_char (c : ascii) : ascii :=
  let n := code c in
  if between 97 122 n || (between 224 254 n && negb (n =? 247))
  then ascii_of_nat (n - 32) else c.

Definition lower (s : str) : str := map lower_char s.

(** Truth value of a string, [bool(s)]: true unless [s] is empty. *)
Definition truthy (s : str) : bool :=
  match s with [] => false | _ :: _ => true end.

Definition str_eqb (a b : str) : bool :=
  if list_eq_dec ascii_dec a b then true else false.

(** [s.startswith(p)]. *)
Fixpoint startswith (p s : str) : bool :=
  match p, s with
  | [], _ => true
  | _ :: _, [] => false
  | a :: p', b :: s' => Ascii.eqb a b && startswith p' s'
  end.

(** [needle in hay]. *)
Fixpoint contains (needle hay : str) : bool :=
  startswith needle hay ||
  match hay with
  | [] => false
  | _ :: hay' => contains needle hay'
  end.

(** [s.lstrip()], [s.rstrip()] and [s.strip()] with no argument. *)
Fixpoint lstrip (s : str) : str :=
  match s with
  | [] => []
  | c :: s' => if isspace c then lstrip s' else s
  end.

Fixpoint rstrip (s : str) : str :=
  match s with
  | [] => []
  | c :: s' =>
      match rstrip s' with
      | [] => if isspace c then [] else [c]
      | r => c :: r
      end
  end.

Definition strip (s : str) : str := rstrip (lstrip s).

(** [s.rstrip(chars)] for a one-character set. *)
Fixpoint rstrip_char (x : ascii) (s : str) : str :=
  match s with
  | [] => []
  | c :: s' =>
      match rstrip_char x s' with
      | [] => if Ascii.eqb c x then [] else [c]
      | r => c :: r
      end
  end.

(** [s.split()] with no argument: the maximal runs of characters that are
    not whitespace, in order. *)
Fixpoint split (s : str) : list str :=
  match s with
  | [] => []
  | c :: s' =>
      if isspace c then split s'
      else match s' with
           | [] => [[c]]
           | d :: _ =>
               if isspace d then [c] :: split s'
               else match split s' with
                    | w :: ws => (c :: w) :: ws
                    | [] => [[c]]
                    end
           end
  end.

(** [sep.join(ws)]. *)
Fixpoint join (sep : str) (ws : list str) : str :=
  match ws with
  | [] => []
  | w :: ws' =>
      match ws' with
      | [] => w
      | _ :: _ => w ++ sep ++ join sep ws'
      end
  end.

(** [s.replace(old, new)] for a non-empty [old]: every occurrence, scanned
    from the left, without overlap.  [skip] counts the characters of an
    occurrence of [old] that are still to be dropped. *)
Fixpoint replace_from (old new : str) (skip : nat) (s : str) : str :=
  match s with
  | [] => []
  | c :: s' =>
      match skip with
      | S k => replace_from old new k s'
      | O =>
          if startswith old s
          then new ++ replace_from old new (length old - 1) s'
          else c :: replace_from old new 0 s'
      end
  end.

Definition replace (old new s : str) : str := replace_from old new 0 s.

(** Membership of a token in a list of tokens: [tok in tokens]. *)
Definition mem (tok : str) (tokens : list str) : bool :=
  existsb (str_eqb tok) tokens.

(** [needle] occurs in [hay]; and [x] occurs in [s] ahead of an
    occurrence of [y]. *)
Definition occurs (needle hay : str) : Prop :=
  exists a b, hay = a ++ needle ++ b.




(** Strings free of whitespace, and words: what [split] produces. *)
Definition nospace (w : str) : Prop :=
  forallb (fun c => negb (isspace c)) w = true.

Definition word (w : str) : Prop := w <> [] /\ nospace w.

End PyStr.

Import PyStr.

(** ** mint/agents.py *)

Module SummaryAgent.

(** [SummaryAgent.summarize]. *)
Definition summarize (prompt : str) : str :=
  let clean := join (lit " ") (split prompt) in
  if negb (truthy clean) then []
  else if length clean <=? 96 then clean
  else rstrip (firstn 93 clean) ++ lit "...".

End SummaryAgent.

(** ** The fragment of Python's [re] that the session patterns use

    A pattern is a sequence of items around one capturing group.  Matching
    is the backtracking search of [re.search] with [re.IGNORECASE]: the
    leftmost start position wins, and a repetition is greedy, giving back
    one character at a time when what follows fails. *)

Module Re.

(** A character set [[...]]: inclusive code ranges, and whether [\s] is a
    member. *)
Record cset := { ranges : list (nat * nat); with_space : bool }.

Definition in_ranges (rs : list (nat * nat)) (c : ascii) : bool :=
  existsb (fun r => between (fst r) (snd r) (code c)) rs.

(** Membership under [re.IGNORECASE]: a character matches when it or its
    other case lies in the set. *)
Definition cset_mem (cs : cset) (c : ascii) : bool :=
  in_ranges (ranges cs) c
  || in_ranges (ranges cs) (lower_char c)
  || in_ranges (ranges cs) (upper_char c)
  || (with_space cs && isspace c).

Inductive item :=
| Chr (c : ascii)                             (* a literal character *)
| Rep (cs : cset) (lo : nat) (hi : option nat) (* [cs{lo,hi}], greedy *)
| WordBoundary.                               (* [\b] *)

Record pattern := { before : list item; group : list item; after : list item }.

(** [\w]: alphanumeric characters and the underscore. *)
Definition isword (c : ascii) : bool :=
  let n := code c in
  between 48 57 n || between 65 90 n || (n =? 95) || between 97 122 n
  || (n =? 170) || (n =? 178) || (n =? 179) || (n =? 181) || (n =? 185)
  || (n =? 186) || between 188 190 n || between 192 214 n
  || between 216 246 n || between 248 255 n.

Definition word_before (prev : option ascii) : bool :=
  match prev with Some c => isword c | None => false end.

Definition word_after (s : str) : bool :=
  match s with c :: _ => isword c | [] => false end.

Definition may_repeat (hi : option nat) : bool :=
  match hi with Some O => false | _ => true end.

Section Matcher.

Variable A : Type.

(** The continuation receives the last character consumed (for [\b]) and
    the rest of the subject. *)
Definition cont : Type := option ascii -> str -> option A.

Fixpoint rep (cs : cset) (lo : nat) (hi : option nat) (k : cont)
    (prev : option ascii) (s : str) : option A :=
  let stop := if lo =? 0 then k prev s else None in
  match s with
  | [] => stop
  | c :: s' =>
      if cset_mem cs c && may_repeat hi then
        match rep cs (lo - 1) (option_map pred hi) k (Some c) s' with
        | Some r => Some r
        | None => stop
        end
      else stop
  end.

Fixpoint match_items (items : list item) (k : cont)
    (prev : option ascii) (s : str) : option A :=
  match items with
  | [] => k prev s
  | Chr c :: rest =>
      match s with
      | d :: s' =>
          if Ascii.eqb (lower_char c) (lower_char d)
          then match_items rest k (Some d) s' else None
      | [] => None
      end
  | Rep cs lo hi :: rest => rep cs lo hi (match_items rest k) prev s
  | WordBoundary :: rest =>
      if xorb (word_before prev) (word_after s) then match_items rest k prev s
      else None
  end.

End Matcher.

(** A match of the whole pattern at the head of [s]; the result is the text
    of group 1. *)
Definition match_at (p : pattern) (prev : option ascii) (s : str) : option str :=
  match_items str (before p)
    (fun p1 s1 =>
       match_items str (group p)
         (fun p2 s2 =>
            match_items str (after p)
              (fun _ _ => Some (firstn (length s1 - length s2) s1)) p2 s2)
         p1 s1)
    prev s.

Fixpoint search_from (p : pattern) (prev : option ascii) (s : str) : option str :=
  match match_at p prev s with
  | Some cap => Some cap
  | None =>
      match s with
      | [] => None
      | c :: s' => search_from p (Some c) s'
      end
  end.

(** [re.search(p, s, flags=re.IGNORECASE)], reduced to [group(1)]. *)
Definition search (p : pattern) (s : str) : option str := search_from p None s.

(** What the items of a pattern can consume: [item_within P it] says that
    every character [it] accepts satisfies [P], and [min_len] is the least
    number of characters that a sequence of items consumes. *)
Definition item_within (P : ascii -> bool) (it : item) : Prop :=
  match it with
  | Chr c => forall d, Ascii.eqb (lower_char c) (lower_char d) = true -> P d = true
  | Rep cs _ _ => forall d, cset_mem cs d = true -> P d = true
  | WordBoundary => True
  end.

Fixpoint min_len (items : list item) : nat :=
  match items with
  | [] => 0
  | Chr _ :: rest => S (min_len rest)
  | Rep _ lo _ :: rest => lo + min_len rest
  | WordBoundary :: rest => min_len rest
  end.

Definition chars (s : string) : list item := map Chr (lit s).
Definition star (cs : cset) : item := Rep cs 0 None.
Definition plus (cs : cset) : item := Rep cs 1 None.
Definition one (cs : cset) : item := Rep cs 1 (Some 1).
Definition opt (cs : cset) : item := Rep cs 0 (Some 1).

End Re.

Module StatusAgent.

Import Re.

(** [StatusAgent.decide]. *)
Definition decide (return_code : Z) (output : str) : str :=
  if negb (return_code =? 0)%Z then lit "Blocked"
  else
    let normalized := lower output in
    if contains (lit "status: testing") normalized then lit "Testing"
    else if contains (lit "status: blocked") normalized then lit "Blocked"
    else if contains (lit "status: completed") normalized then lit "Completed"
    else lit "Completed".

Definition dquote : ascii := "034"%char.
Definition squote : ascii := "039"%char.

(** [[A-Za-z0-9._:-]] *)
Definition token_colon : cset :=
  {| ranges := [(65, 90); (97, 122); (48, 57); (46, 46); (95, 95); (58, 58); (45, 45)];
     with_space := false |}.

(** [[A-Za-z0-9._-]] *)
Definition token : cset :=
  {| ranges := [(65, 90); (97, 122); (48, 57); (46, 46); (95, 95); (45, 45)];
     with_space := false |}.

(** [[0-9a-f]] and [[0-9a-f-]] *)
Definition hex : cset :=
  {| ranges := [(48, 57); (97, 102)]; with_space := false |}.
Definition hex_dash : cset :=
  {| ranges := [(48, 57); (97, 102); (45, 45)]; with_space := false |}.

(** [\s], [[_\s-]] and [[:=]] *)
Definition space : cset := {| ranges := []; with_space := true |}.
Definition joiner : cset := {| ranges := [(95, 95); (45, 45)]; with_space := true |}.
Definition colon_eq : cset := {| ranges := [(58, 58); (61, 61)]; with_space := false |}.

(** ["session_id"\s*:\s*"([A-Za-z0-9._:-]+)"] and its single-quoted twin. *)
Definition quoted_session_id (q : ascii) : pattern :=
  {| before := [Chr q] ++ chars "session_id"
               ++ [Chr q; star space; Chr ":"%char; star space; Chr q];
     group := [plus token_colon];
     after := [Chr q] |}.

(** [/sessions/([A-Za-z0-9._:-]+)] *)
Definition sessions_path : pattern :=
  {| before := chars "/sessions/"; group := [plus token_colon]; after := [] |}.

(** [\bcodex\s+resume\s+([A-Za-z0-9._:-]+)] *)
Definition codex_resume : pattern :=
  {| before := [WordBoundary] ++ chars "codex" ++ [plus space]
               ++ chars "resume" ++ [plus space];
     group := [plus token_colon];
     after := [] |}.

(** [\bresume\s+([0-9a-f]{8}-[0-9a-f-]{27,})] *)
Definition resume_uuid : pattern :=
  {| before := [WordBoundary] ++ chars "resume" ++ [plus space];
     group := [Rep hex 8 (Some 8); Chr "-"%char; Rep hex_dash 27 None];
     after := [] |}.

(** [(?:session[_\s-]?id)\s*[:=]\s*([A-Za-z0-9._-]+)], and the same with
    [conversation]. *)
Definition key_value (key : string) : pattern :=
  {| before := chars key ++ [opt joiner] ++ chars "id"
               ++ [star space; one colon_eq; star space];
     group := [plus token];
     after := [] |}.

(** [\bsession\s+([A-Za-z0-9._:-]{8,})] *)
Definition bare_session : pattern :=
  {| before := [WordBoundary] ++ chars "session" ++ [plus space];
     group := [Rep token_colon 8 None];
     after := [] |}.

Definition patterns : list pattern :=
  [ quoted_session_id dquote;
    quoted_session_id squote;
    sessions_path;
    codex_resume;
    resume_uuid;
    key_value "session";
    key_value "conversation";
    bare_session ].

(** Characters that are not whitespace; a pattern whose group takes at
    least one character and only such characters. *)
Definition visible (c : ascii) : bool := negb (isspace c).

Definition group_visible (p : pattern) : Prop :=
  Forall (item_within visible) (group p) /\ 1 <= min_len (group p).

(** Following the words of the specification, not the source: a
    [resume <id>] directive with nothing required before it,
    [\bresume\s+([A-Za-z0-9._:-]+)].  The list of patterns does not hold
    it. *)
Definition spec_resume_id : pattern :=
  {| before := [WordBoundary] ++ chars "resume" ++ [plus space];
     group := [plus token_colon];
     after := [] |}.

(** The loop of [extract_session_id]: the first pattern that is found
    returns its group, stripped. *)
Fixpoint first_match (ps : list pattern) (output : str) : str :=
  match ps with
  | [] => []
  | p :: rest =>
      match search p output with
      | Some cap => strip cap
      | None => first_match rest output
      end
  end.

(** [StatusAgent.extract_session_id]. *)
Definition extract_session_id (output : str) : str := first_match patterns output.

End StatusAgent.

(** ** The spreadsheet as data

    The grid is a list of rows, a row a list of cells starting at column A;
    row [r] of the sheet (counted from 1) is the element [r - 1] and a cell
    that is absent is empty.  Values are stored as they are written. *)

Module Sheet.

Definition cells : Type := list str.
Definition grid : Type := list cells.

Definition row_at (g : grid) (row : nat) : cells :=
  match row with
  | O => []
  | S i => nth i g []
  end.

Definition cell (g : grid) (row col : nat) : str := nth col (row_at g row) [].

(** Assignment at an index, growing the list with [d] when it is too short. *)
Fixpoint set_nth {A : Type} (d : A) (i : nat) (x : A) (l : list A) : list A :=
  match i, l with
  | O, [] => [x]
  | O, _ :: t => x :: t
  | S i', [] => d :: set_nth d i' x []
  | S i', h :: t => h :: set_nth d i' x t
  end.

Definition set_cell (g : grid) (row col : nat) (v : str) : grid :=
  match row with
  | O => g
  | S i => set_nth [] i (set_nth [] col v (nth i g [])) g
  end.

(** Writing a run of cells into one row from column [col] on, and a block
    of rows from row [row] on. *)
Fixpoint set_cells (g : grid) (row col : nat) (vs : cells) : grid :=
  match vs with
  | [] => g
  | v :: vs' => set_cells (set_cell g row col v) row (S col) vs'
  end.

Fixpoint set_block (g : grid) (row col : nat) (rows : list cells) : grid :=
  match rows with
  | [] => g
  | vs :: rows' => set_block (set_cells g row col vs) (S row) col rows'
  end.

(** What the values API returns for a range: a row ends at its last cell
    that is not empty, and the range at its last row that is not empty. *)
Fixpoint trim_cells (cs : cells) : cells :=
  match cs with
  | [] => []
  | c :: cs' =>
      match trim_cells cs' with
      | [] => if truthy c then [c] else []
      | r => c :: r
      end
  end.

Fixpoint trim_rows (rows : list cells) : list cells :=
  match rows with
  | [] => []
  | r :: rows' =>
      match trim_rows rows' with
      | [] => match r with [] => [] | _ :: _ => [r] end
      | t => r :: t
      end
  end.

(** [values().get(range="A{row}:L{row}")] and
    [values().get(range="A{row}:G")]: the argument [width] is the number of
    columns of the range. *)
Definition values_get_row (g : grid) (row width : nat) : list cells :=
  trim_rows [trim_cells (firstn width (row_at g row))].

Definition values_get_from (g : grid) (row width : nat) : list cells :=
  trim_rows (map (fun r => trim_cells (firstn width r)) (skipn (row - 1) g)).

(** The index of a column given by its letter, as in the range ["C7"]. *)
Definition column_index (column : str) : option nat :=
  match column with
  | [c] => if between 65 90 (code c) then Some (code c - 65) else None
  | _ => None
  end.

(** [RowState] *)
Record RowState := {
  prompt : str;
  ticket : str;
  status : str;
  user_input : str;
  thoughts : str;
  session_id : str
}.

(** [HEADERS] *)
Definition HEADERS : cells :=
  map lit [ "Configs"; "User Prompt"; "Ticket Summary"; "Status"; "User Input";
            "AI Thoughts / Output"; "Session ID"; ""; ""; "Approved Tickets";
            "Original Prompt"; "Final Thoughts" ]%string.

Definition TASK_START_ROW : nat := 2.
Definition CONFIG_START_ROW : nat := 2.

(** [_single_line] *)
Definition _single_line (value : str) : str :=
  if negb (truthy value) then [] else join (lit " ") (split value).

End Sheet.

(** ** The world outside the program

    Processes and the session log store are not part of the program: they
    are oracles over an abstract world.  A run is a function of the state
    (sheet, world, trace of calls) that returns a value or raises. *)

Module Runtime.

Import Sheet.

Inductive exn :=
| TimeoutExpired
| OSError
| HttpError
| ValueError (msg : str).

(** What [Popen] with a pipe gives: the lines read from the pipe, then the
    result of [wait(timeout)]. *)
Inductive stream_outcome :=
| StreamExited (lines : list str) (rc : Z)
| StreamTimedOut (lines : list str)
| StreamFailed.

(** What [subprocess.run(..., timeout=...)] gives. *)
Inductive tty_outcome :=
| TtyExited (rc : Z)
| TtyTimedOut
| TtyFailed.

Record Env (World : Type) := {
  popen_streaming : str -> Z -> World -> stream_outcome * World;
  subprocess_run : str -> Z -> World -> tty_outcome * World;
  (** [_latest_codex_session_id] and [_latest_codex_assistant_message] read
      the session log store. *)
  latest_codex_session_id : World -> str;
  latest_codex_assistant_message : str -> World -> str
}.

Arguments popen_streaming {World}.
Arguments subprocess_run {World}.
Arguments latest_codex_session_id {World}.
Arguments latest_codex_assistant_message {World}.

Inductive event :=
| EvStreaming (built : str)
| EvTty (built : str)
| EvRun (command prompt session_id : str)
| EvReadRow (row : nat)
| EvUpdateRow (row : nat) (updates : list (str * str))
| EvArchive (row : nat).

Definition is_tty (e : event) : bool :=
  match e with EvTty _ => true | _ => false end.

Definition is_streaming (e : event) : bool :=
  match e with EvStreaming _ => true | _ => false end.

Definition is_run (e : event) : bool :=
  match e with EvRun _ _ _ => true | _ => false end.

Definition is_archive (e : event) : bool :=
  match e with EvArchive _ => true | _ => false end.

Definition count (f : event -> bool) (evs : list event) : nat :=
  length (filter f evs).

Record state (World : Type) := {
  sheet : grid;
  world : World;
  trace : list event
}.

Arguments sheet {World}.
Arguments world {World}.
Arguments trace {World}.

(** The trace of [st'] continues the trace of [st]. *)
Definition extends {World : Type} (st st' : state World) : Prop :=
  exists more, trace st' = trace st ++ more.

Inductive outcome (A : Type) :=
| Ok (a : A)
| Raise (e : exn).

Arguments Ok {A}.
Arguments Raise {A}.

Definition M (World A : Type) : Type := state World -> outcome A * state World.

Section Monad.

Context {World : Type}.

Definition ret {A} (a : A) : M World A := fun st => (Ok a, st).

Definition bind {A B} (m : M World A) (f : A -> M World B) : M World B :=
  fun st =>
    match m st with
    | (Ok a, st') => f a st'
    | (Raise e, st') => (Raise e, st')
    end.

Definition raise {A} (e : exn) : M World A := fun st => (Raise e, st).

(** [try: m except TimeoutExpired: h] *)
Definition catch_timeout {A} (m h : M World A) : M World A :=
  fun st =>
    match m st with
    | (Raise TimeoutExpired, st') => h st'
    | r => r
    end.

Definition gets {A} (f : state World -> A) : M World A := fun st => (Ok (f st), st).

Definition log (e : event) : M World unit :=
  fun st =>
    (Ok tt, {| sheet := sheet st; world := world st; trace := trace st ++ [e] |}).

Definition put_sheet (g : grid) : M World unit :=
  fun st => (Ok tt, {| sheet := g; world := world st; trace := trace st |}).

(** A call of an oracle that may change the world. *)
Definition call {A} (f : World -> A * World) : M World A :=
  fun st =>
    let (a, w) := f (world st) in
    (Ok a, {| sheet := sheet st; world := w; trace := trace st |}).

End Monad.

Declare Scope mint_scope.
Delimit Scope mint_scope with mint.

Notation "x <- m ;; k" := (bind m (fun x => k))
  (at level 61, m at next level, right associativity) : mint_scope.
Notation "m ;;; k" := (bind m (fun _ => k))
  (at level 61, right associativity) : mint_scope.

End Runtime.

Module ExecutionAgent.

Import Runtime StatusAgent.
Local Open Scope mint_scope.

(** [ExecutionResult] *)
Record ExecutionResult := {
  status : str;
  thoughts : str;
  session_id : str;
  return_code : Z
}.

(** The fields of an [ExecutionAgent] and its constructor, whose timeout
    defaults to an hour. *)
Record agent := {
  timeout_seconds : Z;
  auto_close_after_task : bool
}.

Definition default_timeout_seconds : Z := 60 * 60.

Definition new (auto_close_after_task : bool) : agent :=
  {| timeout_seconds := default_timeout_seconds;
     auto_close_after_task := auto_close_after_task |}.

Definition newline : ascii := "010"%char.
Definition backslash : ascii := "092"%char.

(** [str(n)] for an integer. *)
Definition str_of_Z (n : Z) : str := lit (NilZero.string_of_int (Z.to_int n)).

(** [_requires_tty_fallback] *)
Definition _requires_tty_fallback (return_code : Z) (output : str) : bool :=
  if (return_code =? 0)%Z then false
  else
    let normalized := lower output in
    let patterns :=
      [ lit "stdin is not a terminal";
        lit "stdin is not a tty";
        lit "stdout is not a terminal";
        lit "stdout is not a tty";
        lit "not a terminal";
        lit "not a tty" ] in
    existsb (fun pattern => contains pattern normalized) patterns.

(** [_is_noninteractive_agent_command] *)
Definition _is_noninteractive_agent_command (text : str) : bool :=
  let tokens := split text in
  match tokens with
  | [] => false
  | _ :: _ => mem (lit "exec") tokens || mem (lit "review") tokens
  end.

(** [_command_prefers_tty] *)
Definition _command_prefers_tty (built_command : str) : bool :=
  let text := lower (strip built_command) in
  if _is_noninteractive_agent_command text then false
  else length (split text) =? 1.

(** [_pick_session_id] *)
Definition _pick_session_id (previous latest fallback : str) : str :=
  if truthy latest && negb (str_eqb latest previous) then latest
  else if truthy fallback then fallback
  else latest.

(** [_escape] *)
Definition _escape (prompt : str) : str :=
  replace [dquote] [backslash; dquote] prompt.

(** The prompt as it is appended to a template without placeholder:
    escaped, between double quotes. *)
Definition quoted (prompt : str) : str := [dquote] ++ _escape prompt ++ [dquote].

(** [_build_command] *)
Definition _build_command (self : agent) (command prompt session_id : str) : str :=
  let escaped_prompt := _escape prompt in
  if contains (lit "{prompt}") command then
    let built := replace (lit "{prompt}") escaped_prompt command in
    if contains (lit "{session_id}") built then
      replace (lit "{session_id}") session_id built
    else if truthy session_id then built ++ lit " resume " ++ session_id
    else built
  else if auto_close_after_task self
          && negb (_is_noninteractive_agent_command (lower (strip command)))
  then
    if truthy session_id then
      command ++ lit " exec resume " ++ session_id ++ lit " "
              ++ [dquote] ++ escaped_prompt ++ [dquote]
    else command ++ lit " exec " ++ [dquote] ++ escaped_prompt ++ [dquote]
  else if truthy session_id then
    command ++ lit " resume " ++ session_id ++ lit " "
            ++ [dquote] ++ escaped_prompt ++ [dquote]
  else command ++ lit " " ++ [dquote] ++ escaped_prompt ++ [dquote].

(** [_truncate], with its default limit. *)
Definition _truncate (text : str) : str :=
  let limit := 49000%Z in
  if (Z.of_nat (length text) <=? limit)%Z then text
  else firstn (Z.to_nat (limit - 15)) text ++ newline :: lit "...[truncated]".

(** The text that [_run_streaming] returns for the lines it collected. *)
Definition buffered_output (lines : list str) : str :=
  let collected := map (rstrip_char newline) lines in
  let output := strip (join [newline] collected) in
  if truthy output then output else lit "(No output)".

Section Engine.

Context {World : Type} (env : Env World).

(** [_run_streaming]: the lines are echoed to the terminal as they come,
    which leaves no mark on the state. *)
Definition _run_streaming (self : agent) (built : str) : M World (Z * str) :=
  log (EvStreaming built) ;;;
  o <- call (popen_streaming env built (timeout_seconds self)) ;;
  match o with
  | StreamExited lines return_code =>
      ret (return_code, buffered_output lines)
  | StreamTimedOut _ => raise TimeoutExpired
  | StreamFailed => raise OSError
  end.

(** [_run_with_tty] *)
Definition _run_with_tty (self : agent) (built session_id pre_session_id : str)
  : M World ExecutionResult :=
  log (EvTty built) ;;;
  o <- call (subprocess_run env built (timeout_seconds self)) ;;
  match o with
  | TtyExited returncode =>
      post_session_id <- gets (fun st => latest_codex_session_id env (world st)) ;;
      let detected_session_id :=
        _pick_session_id pre_session_id post_session_id session_id in
      let output :=
        if (returncode =? 0)%Z then lit "Command completed in terminal mode."
        else lit "Command exited with code " ++ str_of_Z returncode
                 ++ lit " in terminal mode." in
      let output :=
        if truthy detected_session_id
        then output ++ newline :: lit "Session ID: " ++ detected_session_id
        else output in
      let status := decide returncode output in
      codex_message <-
        (if truthy detected_session_id
         then gets (fun st => latest_codex_assistant_message env detected_session_id (world st))
         else ret []) ;;
      let thoughts := if truthy codex_message then codex_message else output in
      ret {| status := status;
             thoughts := _truncate thoughts;
             session_id := detected_session_id;
             return_code := returncode |}
  | TtyTimedOut =>
      ret {| status := lit "Blocked";
             thoughts := lit "Command timed out in TTY mode. Marked as Blocked.";
             session_id := session_id;
             return_code := 124 |}
  | TtyFailed => raise OSError
  end.

(** The body of the [try] of [run]: either [run] returns from inside it
    (left), or it leaves status, thoughts, session and return code for the
    [return] after the [try] (right). *)
Definition run_captured (self : agent) (built session_id pre_session_id : str)
  : M World (ExecutionResult + (str * str * str * Z)) :=
  ro <- _run_streaming self built ;;
  let (return_code, output) := ro : Z * str in
  if _requires_tty_fallback return_code output then
    r <- _run_with_tty self built session_id pre_session_id ;;
    ret (inl r)
  else
    let status := decide return_code output in
    let extracted_session := extract_session_id output in
    post_session_id <- gets (fun st => latest_codex_session_id env (world st)) ;;
    let fresh := truthy post_session_id
                 && negb (str_eqb post_session_id pre_session_id) in
    let extracted_session :=
      if negb (truthy extracted_session) && fresh
      then post_session_id else extracted_session in
    let session_for_message :=
      if truthy extracted_session then extracted_session else session_id in
    let session_for_message :=
      if negb (truthy session_for_message) && fresh
      then post_session_id else session_for_message in
    codex_message <-
      (if truthy session_for_message
       then gets (fun st => latest_codex_assistant_message env session_for_message (world st))
       else ret []) ;;
    let thoughts := if truthy codex_message then codex_message else output in
    ret (inr (status, thoughts, extracted_session, return_code)).

(** [ExecutionAgent.run] *)
Definition run (self : agent) (command prompt session_id : str)
  : M World ExecutionResult :=
  log (EvRun command prompt session_id) ;;;
  let built := _build_command self command prompt session_id in
  pre_session_id <- gets (fun st => latest_codex_session_id env (world st)) ;;
  if _command_prefers_tty built then
    _run_with_tty self built session_id pre_session_id
  else
    r <- catch_timeout
           (run_captured self built session_id pre_session_id)
           (ret (inr (lit "Blocked",
                      lit "Command timed out. Marked as Blocked.",
                      [], 124%Z))) ;;
    match r with
    | inl result => ret result
    | inr (status, thoughts, extracted_session, return_code) =>
        ret {| status := status;
               thoughts := _truncate thoughts;
               session_id := if truthy extracted_session
                             then extracted_session else session_id;
               return_code := return_code |}
    end.

(** The events of one call of [run], whatever the world answers. *)
Definition run_events (self : agent) (command prompt session_id : str)
    (st : state World) : list event :=
  let built := _build_command self command prompt session_id in
  EvRun command prompt session_id ::
  (if _command_prefers_tty built then [EvTty built]
   else EvStreaming built ::
        match fst (popen_streaming env built (timeout_seconds self) (world st)) with
        | StreamExited lines rc =>
            if _requires_tty_fallback rc (buffered_output lines)
            then [EvTty built] else []
        | _ => []
        end).

End Engine.

End ExecutionAgent.

(** ** mint/google_sheet.py *)

Module GoogleSheetClient.

Import Sheet Runtime.
Local Open Scope mint_scope.


(** [read_row]: the request for the twelve cells of the row, the padding of
    the answer, and the fields taken from it. *)
Definition row_state (g : grid) (row : nat) : RowState :=
  let values := values_get_row g row 12 in
  let row_values := match values with v :: _ => v | [] => [] end in
  let row_values := row_values ++ repeat [] (12 - length row_values) in
  {| prompt := nth 1 row_values [];
     ticket := nth 2 row_values [];
     status := nth 3 row_values [];
     user_input := nth 4 row_values [];
     thoughts := nth 5 row_values [];
     session_id := nth 6 row_values [] |}.

Section Client.

Context {World : Type}.

Definition read_row (row : nat) : M World RowState :=
  log (EvReadRow row) ;;;
  g <- gets sheet ;;
  ret (row_state g row).

(** The effect of one [batchUpdate] of single cells: every range must name
    a column, or the request fails as a whole. *)
Fixpoint write_updates (g : grid) (row : nat) (updates : list (str * str))
  : option grid :=
  match updates with
  | [] => Some g
  | (column, value) :: rest =>
      match column_index (map upper_char column) with
      | Some col => write_updates (set_cell g row col value) row rest
      | None => None
      end
  end.

(** [update_row_columns] *)
Definition update_row_columns (row : nat) (updates : list (str * str))
  : M World unit :=
  log (EvUpdateRow row updates) ;;;
  match updates with
  | [] => ret tt
  | _ :: _ =>
      g <- gets sheet ;;
      match write_updates g row updates with
      | Some g' => put_sheet g'
      | None => raise HttpError
      end
  end.

(** The loop of [archive_and_shift] over the rows below the archived one:
    it stops at the first row that is empty from A to G. *)
Fixpoint rows_to_shift (tail_values : list cells) : list cells :=
  match tail_values with
  | [] => []
  | item :: rest =>
      let padded := item ++ repeat [] (7 - length item) in
      let col_a := nth 0 padded [] in
      let cols_b_to_g := skipn 1 (firstn 7 padded) in
      if negb (truthy col_a) && negb (existsb truthy cols_b_to_g) then []
      else cols_b_to_g :: rows_to_shift rest
  end.

(** [archive_and_shift] *)
Definition archive_and_shift (row : nat) : M World unit :=
  log (EvArchive row) ;;;
  state <- read_row row ;;
  update_row_columns row
    [ (lit "J", ticket state);
      (lit "K", prompt state);
      (lit "L", _single_line (thoughts state)) ] ;;;
  tail_values <- gets (fun st => values_get_from (sheet st) (row + 1) 7) ;;
  let b_to_g_rows := rows_to_shift tail_values in
  g <- gets sheet ;;
  match b_to_g_rows with
  | _ :: _ =>
      let destination_end_row := row + length b_to_g_rows - 1 in
      let clear_row := destination_end_row + 1 in
      put_sheet (set_cells (set_block g row 1 b_to_g_rows) clear_row 1 (repeat [] 6))
  | [] => put_sheet (set_cells g row 1 (repeat [] 6))
  end.

(** [get_properties]: the values of the three configuration properties
    stand under their titles in column A, from [CONFIG_START_ROW] on. *)
Definition get_properties : M World (str * str * str) :=
  g <- gets sheet ;;
  ret (cell g (CONFIG_START_ROW + 1) 0,
       cell g (CONFIG_START_ROW + 3) 0,
       cell g (CONFIG_START_ROW + 5) 0).

End Client.

End GoogleSheetClient.

(** ** mint/pipeline.py *)

Module MintPipeline.

Import Sheet Runtime GoogleSheetClient.
Local Open Scope mint_scope.

(** [_join_prefix] *)
Definition _join_prefix (prefix prompt : str) : str :=
  let prefix := strip prefix in
  let prompt := strip prompt in
  if negb (truthy prefix) then prompt
  else if negb (truthy prompt) then prefix
  else prefix ++ lit " " ++ prompt.

(** [RunSummary] *)
Record RunSummary := {
  executed_rows : nat;
  archived_rows : nat;
  stopped_at_row : nat
}.

(** The local defaults under ["sheet_properties"]; a key may be absent. *)
Record sheet_properties := {
  default_prefix : option str;
  default_command : option str;
  default_auto_close : option bool
}.

(** [_resolve_bool] on the text of a cell. *)
Definition _resolve_bool (value : str) (fallback : bool) : bool :=
  let text := lower (strip value) in
  if mem text [lit "true"; lit "1"; lit "yes"; lit "on"] then true
  else if mem text [lit "false"; lit "0"; lit "no"; lit "off"] then false
  else fallback.

(** The variables of the loop of [run]. *)
Record cursor := {
  row_number : nat;
  executed : nat;
  archived : nat
}.

(** [a or b] on strings. *)
Definition or_else (a b : str) : str := if truthy a then a else b.

Section Driver.

Context {World : Type} (env : Env World).

(** The updates written after an execution. *)
Definition result_updates (result : ExecutionAgent.ExecutionResult)
  : list (str * str) :=
  [ (lit "D", ExecutionAgent.status result);
    (lit "F", ExecutionAgent.thoughts result) ]
  ++ (if truthy (ExecutionAgent.session_id result)
      then [(lit "G", ExecutionAgent.session_id result)] else []).

(** What both executing branches do with the result: write it to the row,
    count the execution and move to the next row. *)
Definition persist_and_advance (c : cursor)
    (result : ExecutionAgent.ExecutionResult) : M World (RunSummary + cursor) :=
  update_row_columns (row_number c) (result_updates result) ;;;
  ret (inr {| row_number := row_number c + 1;
              executed := executed c + 1;
              archived := archived c |}).

(** One turn of the [while True] loop of [run]: the summary on [return]
    (left), or the variables for the next turn (right). *)
Definition iteration (execution_agent : ExecutionAgent.agent)
    (command prefix : str) (c : cursor) : M World (RunSummary + cursor) :=
  row <- read_row (row_number c) ;;
  if negb (truthy (prompt row)) then
    ret (inl {| executed_rows := executed c;
                archived_rows := archived c;
                stopped_at_row := row_number c |})
  else
    let status := strip (status row) in
    if str_eqb status (lit "Approved") then
      archive_and_shift (row_number c) ;;;
      ret (inr {| row_number := row_number c;
                  executed := executed c;
                  archived := archived c + 1 |})
    else if negb (truthy (ticket row)) then
      let summary := SummaryAgent.summarize (prompt row) in
      update_row_columns (row_number c)
        [(lit "C", summary); (lit "D", lit "Ongoing")] ;;;
      result <- ExecutionAgent.run env execution_agent command
                  (_join_prefix prefix (prompt row)) [] ;;
      update_row_columns (row_number c) (result_updates result) ;;;
      ret (inr {| row_number := row_number c + 1;
                  executed := executed c + 1;
                  archived := archived c |})
    else if str_eqb status (lit "Ongoing") then
      let resume_prompt := or_else (strip (user_input row)) (prompt row) in
      result <- ExecutionAgent.run env execution_agent command
                  (_join_prefix prefix resume_prompt) (session_id row) ;;
      update_row_columns (row_number c) (result_updates result) ;;;
      ret (inr {| row_number := row_number c + 1;
                  executed := executed c + 1;
                  archived := archived c |})
    else
      ret (inr {| row_number := row_number c + 1;
                  executed := executed c;
                  archived := archived c |}).

(** The loop, for at most [fuel] turns; [None] when the turns ran out. *)
Fixpoint loop (fuel : nat) (execution_agent : ExecutionAgent.agent)
    (command prefix : str) (c : cursor) : M World (option RunSummary) :=
  match fuel with
  | O => ret None
  | S fuel' =>
      r <- iteration execution_agent command prefix c ;;
      match r with
      | inl summary => ret (Some summary)
      | inr c' => loop fuel' execution_agent command prefix c'
      end
  end.

(** [MintPipeline.run], for the sheet of the state. *)
Definition run (config : sheet_properties) (fuel : nat)
  : M World (option RunSummary) :=
  props <- get_properties ;;
  let '(props_prefix, props_command, props_auto_close) := props in
  let prefix := or_else props_prefix
                  (match default_prefix config with Some p => p | None => [] end) in
  let command := or_else props_command
                   (match default_command config with Some p => p | None => [] end) in
  let auto_close :=
    _resolve_bool props_auto_close
      (match default_auto_close config with Some b => b | None => true end) in
  let execution_agent := ExecutionAgent.new auto_close in
  if negb (truthy command) then
    raise (ValueError
             (lit "Command is empty. Fill A5 in the sheet or run: mint setup command "
              ++ [StatusAgent.dquote] ++ lit "<cmd>" ++ [StatusAgent.dquote]))
  else
    loop fuel execution_agent command prefix
      {| row_number := TASK_START_ROW; executed := 0; archived := 0 |}.

End Driver.

End MintPipeline.

(** ** Worlds and sheets for examples *)

Module Scenarios.

Import Sheet Runtime MintPipeline.

(** A world where every process hangs until the timeout, one where the
    captured process complains about its standard input and the terminal
    run then succeeds, and one where the captured process succeeds. *)

Definition hanging_env : Env unit :=
  {| popen_streaming := fun _ _ w => (StreamTimedOut [], w);
     subprocess_run := fun _ _ w => (TtyTimedOut, w);
     latest_codex_session_id := fun _ => [];
     latest_codex_assistant_message := fun _ _ => [] |}.

Definition no_tty_env : Env unit :=
  {| popen_streaming :=
       fun _ _ w => (StreamExited [lit "Error: stdin is NOT a TTY"] 1, w);
     subprocess_run := fun _ _ w => (TtyExited 0, w);
     latest_codex_session_id := fun _ => [];
     latest_codex_assistant_message := fun _ _ => [] |}.

Definition initial_state (g : grid) : state unit :=
  {| sheet := g; world := tt; trace := [] |}.

Definition done_env : Env unit :=
  {| popen_streaming :=
       fun _ _ w => (StreamExited [lit "working"; lit "STATUS: Testing"] 0, w);
     subprocess_run := fun _ _ w => (TtyExited 0, w);
     latest_codex_session_id := fun _ => [];
     latest_codex_assistant_message := fun _ _ => [] |}.

Definition task_row (prompt ticket status user_input thoughts session_id : string) : cells :=
  [[]; lit prompt; lit ticket; lit status; lit user_input; lit thoughts; lit session_id].

Definition one_task (row : cells) : grid := [HEADERS; row].

Definition start : cursor :=
  {| row_number := TASK_START_ROW; executed := 0; archived := 0 |}.

(** A sheet with its configuration in column A and four tasks: one
    approved, one new, one to resume and one completed. *)
Definition sheet_row (config : string) (task : cells) : cells :=
  lit config :: tl task.

Definition board : grid :=
  [ HEADERS;
    sheet_row "Prefix" (task_row "Old task" "Old task" "Approved" "" "done" "s0");
    sheet_row "PFX" (task_row "Fix bug" "" "" "" "" "");
    sheet_row "Command" (task_row "Write docs" "Write docs" "Ongoing" "continue" "" "abc");
    sheet_row "codex" (task_row "Ship" "Ship" "Completed" "" "" "");
    [lit "Auto Close"];
    [lit "true"] ].

Definition no_defaults : sheet_properties :=
  {| default_prefix := None; default_command := None; default_auto_close := None |}.

End Scenarios.

(** ** More of mint/google_sheet.py: links, layout and the archive column *)

Module SheetUrl.

Import Runtime.

(** The class [[a-zA-Z0-9-_]]: after the range [0-9] the hyphen stands for
    itself. *)
Definition id_char (c : ascii) : bool :=
  let n := code c in
  between 97 122 n || between 65 90 n || between 48 57 n || (n =? 45) || (n =? 95).

(** [re.fullmatch(r"[a-zA-Z0-9-_]+", s)] as a truth value. *)
Definition fullmatch_id (s : str) : bool := truthy s && forallb id_char s.

Fixpoint take_while (f : ascii -> bool) (s : str) : str :=
  match s with
  | c :: s' => if f c then c :: take_while f s' else []
  | [] => []
  end.

Fixpoint strip_prefix (p s : str) : option str :=
  match p, s with
  | [], _ => Some s
  | _ :: _, [] => None
  | a :: p', b :: s' => if Ascii.eqb a b then strip_prefix p' s' else None
  end.

(** A match of [/spreadsheets/d/([a-zA-Z0-9-_]+)] at the head of [s]: the
    literal, then the longest run of characters of the class, which must
    not be empty.  Nothing follows the group, so the greedy repetition
    never gives a character back. *)
Definition match_sheet_id (s : str) : option str :=
  match strip_prefix (lit "/spreadsheets/d/") s with
  | Some rest =>
      match take_while id_char rest with
      | [] => None
      | id => Some id
      end
  | None => None
  end.

(** [re.search(pattern, s)], reduced to [group(1)]: the leftmost match. *)
Fixpoint search_sheet_id (s : str) : option str :=
  match match_sheet_id s with
  | Some id => Some id
  | None =>
      match s with
      | [] => None
      | _ :: s' => search_sheet_id s'
      end
  end.

(** [parse_sheet_id] *)
Definition parse_sheet_id (sheet_url : str) : outcome str :=
  let sheet_url := strip sheet_url in
  if negb (contains (lit "/") sheet_url) && fullmatch_id sheet_url then Ok sheet_url
  else
    match search_sheet_id sheet_url with
    | None => Raise (ValueError (lit "Invalid Google Sheet URL: " ++ sheet_url))
    | Some id => Ok id
    end.

(** [to_sheet_url] *)
Definition to_sheet_url (spreadsheet_id : str) : str :=
  lit "https://docs.google.com/spreadsheets/d/" ++ spreadsheet_id ++ lit "/edit".

End SheetUrl.

Module Layout.

Import Sheet Runtime MintPipeline.
Local Open Scope mint_scope.

(** The values that the local configuration holds for a property: a text,
    a truth value, or nothing.  Numbers and other values of the
    configuration file are outside the model. *)
Inductive pyvalue :=
| PNone
| PBool (b : bool)
| PStr (s : str).

(** [property_values]; a key may be absent. *)
Record property_values := {
  pv_prefix : option pyvalue;
  pv_command : option pyvalue;
  pv_auto_close : option pyvalue
}.

(** [str(raw_value).lower() if isinstance(raw_value, bool)
     else str(raw_value or "")], after [property_values.get(key, "")]. *)
Definition property_text (raw : option pyvalue) : str :=
  match raw with
  | Some (PBool true) => lit "true"
  | Some (PBool false) => lit "false"
  | Some (PStr s) => s
  | Some PNone => []
  | None => []
  end.

(** [CONFIG_PROPERTIES], [_config_total_rows] and [_config_end_row] *)
Definition CONFIG_PROPERTIES : list (str * str) :=
  [ (lit "prefix", lit "Prefix");
    (lit "command", lit "Command");
    (lit "auto_close", lit "Auto Close") ].

Definition _config_total_rows : nat := length CONFIG_PROPERTIES * 2.

Definition _config_end_row : nat := CONFIG_START_ROW + _config_total_rows - 1.

Definition property_of (pv : property_values) (key : str) : option pyvalue :=
  if str_eqb key (lit "prefix") then pv_prefix pv
  else if str_eqb key (lit "command") then pv_command pv
  else if str_eqb key (lit "auto_close") then pv_auto_close pv
  else None.

(** The loop of [initialize_layout] over [CONFIG_PROPERTIES]: a title, then
    the value under it. *)
Fixpoint config_cells (pv : property_values) (properties : list (str * str))
  : list cells :=
  match properties with
  | [] => []
  | (key, title) :: rest =>
      [title] :: [property_text (property_of pv key)] :: config_cells pv rest
  end.

Section Client.

Context {World : Type}.

(** [initialize_layout]: the header in [A1:L1] and the configuration in
    column A.  The requests that follow set the format of the sheet
    (frozen row, bold header, widths, the list of statuses) and write no
    value. *)
Definition initialize_layout (pv : property_values) : M World unit :=
  g <- gets sheet ;;
  let g := set_block g 1 0 [HEADERS] in
  put_sheet (set_block g CONFIG_START_ROW 0 (config_cells pv CONFIG_PROPERTIES)).

End Client.

End Layout.

Module ColumnL.

Import Sheet Runtime.
Local Open Scope mint_scope.

(** [MAX_ROWS] *)
Definition MAX_ROWS : nat := 2000.

(** [values().get(range="L2:L{MAX_ROWS}")]: the cells of one column
    [col] from row [first] to row [last]. *)
Definition values_get_column (g : grid) (col first last : nat) : list cells :=
  trim_rows
    (map (fun r => trim_cells (firstn 1 (skipn col r)))
       (firstn (last + 1 - first) (skipn (first - 1) g))).

(** The loop of [normalize_column_l_single_line] over the rows of the
    answer; [row_number] is [2 + row_offset]. *)
Fixpoint column_l_updates (row_number : nat) (values : list cells)
  : list (nat * str) :=
  match values with
  | [] => []
  | row_values :: rest =>
      let more := column_l_updates (S row_number) rest in
      match row_values with
      | [] => more
      | original :: _ =>
          let normalized := _single_line original in
          if str_eqb normalized original then more
          else (row_number, normalized) :: more
      end
  end.

(** The effect of the [batchUpdate] of cells of column L. *)
Fixpoint write_column_l (g : grid) (updates : list (nat * str)) : grid :=
  match updates with
  | [] => g
  | (row_number, normalized) :: rest =>
      write_column_l (set_cell g row_number 11 normalized) rest
  end.

Section Client.

Context {World : Type}.

(** [normalize_column_l_single_line] *)
Definition normalize_column_l_single_line : M World unit :=
  values <- gets (fun st => values_get_column (sheet st) 11 2 MAX_ROWS) ;;
  let updates := column_l_updates 2 values in
  match updates with
  | [] => ret tt
  | _ :: _ =>
      g <- gets sheet ;;
      put_sheet (write_column_l g updates)
  end.

End Client.

End ColumnL.

(** ** mint/cli.py: the report of [cmd_run] *)

Module Cli.

Import MintPipeline.

(** The first line that [cmd_run] prints after the pass. *)
Definition finish_line (summary : RunSummary) : str :=
  if (executed_rows summary =? 0) && (archived_rows summary =? 0) then
    if stopped_at_row summary <=? 2
    then lit "Mint finished: no rows found (Column B is empty at row 2)."
    else lit "Mint finished: no runnable rows found."
  else lit "Mint finished successfully.".

End Cli.

(** ** Notions for the statements of Part II

    What an execution result must satisfy, the fields of a row by column,
    the rows that the compaction of [archive_and_shift] takes, the sheet it
    leaves, the tasks a pass has before it, and the outcomes of one turn of
    the loop. *)

Module Notions.

Import Re StatusAgent Sheet Runtime GoogleSheetClient MintPipeline.

(** The characters of the widest class of [extract_session_id]:
    [[A-Za-z0-9._:-]]. *)
Definition token_char (c : ascii) : bool := in_ranges (ranges token_colon) c.

(** An execution result with bounded thoughts, a status of the dropdown
    list that an execution can give, and a session whenever [session_id]
    names one. *)
Definition result_ok (session_id : str) (r : ExecutionAgent.ExecutionResult) : Prop :=
  (Z.of_nat (length (ExecutionAgent.thoughts r)) <= 49000)%Z
  /\ (ExecutionAgent.status r = lit "Testing"
      \/ ExecutionAgent.status r = lit "Blocked"
      \/ ExecutionAgent.status r = lit "Completed")
  /\ (ExecutionAgent.return_code r <> 0%Z -> ExecutionAgent.status r = lit "Blocked")
  /\ (session_id <> [] -> ExecutionAgent.session_id r <> []).

(** The field of [RowState] read from the column with index [col]. *)
Definition field (col : nat) (r : RowState) : str :=
  match col with
  | 1 => Sheet.prompt r
  | 2 => Sheet.ticket r
  | 3 => Sheet.status r
  | 4 => Sheet.user_input r
  | 5 => Sheet.thoughts r
  | 6 => Sheet.session_id r
  | _ => []
  end.

(** An item of the answer to [A{row + 1}:G], its padding to seven cells,
    the test of the loop of [archive_and_shift] and the cells it keeps, on
    a row of the grid. *)
Definition shift_item (r : cells) : cells := trim_cells (firstn 7 r).

Definition padded7 (item : cells) : cells := item ++ repeat [] (7 - length item).

Definition row_blank (r : cells) : bool :=
  forallb (fun col => negb (truthy (nth col r []))) (seq 0 7).

Definition row_b_to_g (r : cells) : cells := map (fun col => nth col r []) (seq 1 6).

(** A row without content from column A to column G. *)
Definition blank_row (g : grid) (row : nat) : bool :=
  forallb (fun col => negb (truthy (cell g row col))) (seq 0 7).

(** The number of rows below [row] up to the first blank one. *)
Definition rows_below (g : grid) (row : nat) : nat :=
  length (rows_to_shift (values_get_from g (row + 1) 7)).

(** The sheet after the update of J, K and L in [archive_and_shift]. *)
Definition archive_written (g : grid) (row : nat) : grid :=
  let state := row_state g row in
  set_cell
    (set_cell (set_cell g row 9 (Sheet.ticket state)) row 10 (Sheet.prompt state))
    row 11 (_single_line (Sheet.thoughts state)).

(** The sheet that [archive_and_shift] leaves. *)
Definition archive_sheet (g : grid) (row : nat) : grid :=
  let g1 := archive_written g row in
  let b_to_g_rows := rows_to_shift (values_get_from g1 (row + 1) 7) in
  match b_to_g_rows with
  | _ :: _ =>
      set_cells (set_block g1 row 1 b_to_g_rows)
        (row + length b_to_g_rows - 1 + 1) 1 (repeat [] 6)
  | [] => set_cells g1 row 1 (repeat [] 6)
  end.

(** The number of rows with a prompt from [row] down to the first row
    without one: the tasks that a pass starting at [row] has before it. *)
Fixpoint leading_prompts (rows : list cells) : nat :=
  match rows with
  | [] => 0
  | r :: rest => if truthy (nth 1 r []) then S (leading_prompts rest) else 0
  end.

Definition pending (g : grid) (row : nat) : nat :=
  match row with
  | O => 0
  | S i => leading_prompts (skipn i g)
  end.

(** The cells that the driver writes after an execution at [row]: C, D, F
    and G of that row. *)
Definition result_cell (row r col : nat) : bool :=
  (r =? row) && ((col =? 2) || (col =? 3) || (col =? 5) || (col =? 6)).

(** The outcome of a turn of the loop at row [n]. *)
Definition turn_stops (c : cursor) (g g' : grid) (more : list event)
    (s : RunSummary) : Prop :=
  cell g (row_number c) 1 = []
  /\ s = {| executed_rows := executed c; archived_rows := archived c;
            stopped_at_row := row_number c |}
  /\ g' = g /\ count is_run more = 0 /\ count is_archive more = 0.

Definition turn_archives (c : cursor) (g g' : grid) (more : list event)
    (c' : cursor) : Prop :=
  c' = {| row_number := row_number c; executed := executed c;
          archived := archived c + 1 |}
  /\ g' = archive_sheet g (row_number c)
  /\ count is_run more = 0 /\ count is_archive more = 1.

Definition turn_advances (c : cursor) (g g' : grid) (more : list event)
    (c' : cursor) : Prop :=
  c' = {| row_number := row_number c + 1;
          executed := executed c + count is_run more;
          archived := archived c |}
  /\ count is_run more <= 1
  /\ count is_archive more = 0
  /\ forall r col, result_cell (row_number c) r col = false ->
       cell g' r col = cell g r col.

End Notions.

(** ** A process in time

    [_run_streaming] reads the pipe until the process closes it, and only
    then waits for the process to exit, for [timeout_seconds] at most
    (agents.py, lines 130 to 134); [subprocess.run] in [_run_with_tty] gives
    the process [timeout_seconds] from its start.  A process is what it
    writes, the time at which it closes its output, the time at which it
    exits, if it does, and its exit code; times are in seconds from the
    start.  A process that never closes its output keeps [_run_streaming]
    in its loop for ever: no answer stands for it. *)

Module Process.

Import Runtime.

Record process := {
  writes : list str;
  closes_output_at : Z;
  exits_at : option Z;
  exit_code : Z
}.

Definition exited_by (p : process) (t : Z) : bool :=
  match exits_at p with
  | Some e => (e <=? t)%Z
  | None => false
  end.

(** [for line in proc.stdout: ...] and then [proc.wait(timeout=...)]. *)
Definition streaming_answer (timeout : Z) (p : process) : stream_outcome :=
  if exited_by p (closes_output_at p + timeout)
  then StreamExited (writes p) (exit_code p)
  else StreamTimedOut (writes p).

(** [subprocess.run(..., timeout=...)]. *)
Definition tty_answer (timeout : Z) (p : process) : tty_outcome :=
  if exited_by p timeout then TtyExited (exit_code p) else TtyTimedOut.

(** The process outlives the timeout. *)
Definition exceeds (timeout : Z) (p : process) : Prop := exited_by p timeout = false.

(** A world in which every command starts the process that [commands]
    gives for it, and no session log is kept. *)
Definition timed_env (commands : str -> process) : Env unit :=
  {| popen_streaming :=
       fun built timeout w => (streaming_answer timeout (commands built), w);
     subprocess_run :=
       fun built timeout w => (tty_answer timeout (commands built), w);
     latest_codex_session_id := fun _ => [];
     latest_codex_assistant_message := fun _ _ => [] |}.

(** A process that writes [done] and exits with code 0 after [lifetime]
    seconds, its output open until then. *)
Definition long_running (lifetime : Z) : process :=
  {| writes := [lit "done"];
     closes_output_at := lifetime;
     exits_at := Some lifetime;
     exit_code := 0 |}.

End Process.

(** ** Notions for the session patterns *)

Module Matching.

Import Re.

(** The last character before the rest of a text, after the run [u] has
    been consumed. *)
Definition after_run (u : str) (prev : option ascii) : option ascii :=
  fold_left (fun _ c => Some c) u prev.

(** The least number of characters that a match of a pattern takes. *)
Definition least (p : pattern) : nat :=
  min_len (before p) + min_len (group p) + min_len (after p).

(** A character that is not the literal [c], whatever its case, and one
    outside a class. *)
Definition differs (c d : ascii) : bool :=
  negb (Ascii.eqb (lower_char c) (lower_char d)).

Definition outside (cs : cset) (d : ascii) : bool := negb (cset_mem cs d).

End Matching.

Module SessionTexts.

Import StatusAgent.

(** Following the words of the specification, not the source: the
    characters of an id written out one by one, and runs of whitespace. *)
Definition one_of (alphabet : string) (c : ascii) : bool :=
  existsb (Ascii.eqb c) (lit alphabet).

Definition sid_char : ascii -> bool :=
  one_of "ABCDEFGHIJKLMNOPQRSTUVWXYZabcdefghijklmnopqrstuvwxyz0123456789._:-".

Definition key_char : ascii -> bool :=
  one_of "ABCDEFGHIJKLMNOPQRSTUVWXYZabcdefghijklmnopqrstuvwxyz0123456789._-".

Definition plain_char : ascii -> bool := one_of "0123456789._:-".

Definition hex_char : ascii -> bool := one_of "0123456789abcdefABCDEF".

Definition uuid_char : ascii -> bool := one_of "0123456789abcdefABCDEF-".

Definition blank (ws : str) : Prop := forallb isspace ws = true.

Definition made_of (P : ascii -> bool) (s : str) : Prop := forallb P s = true.

(** What may follow an id: the end of the text, or a character that an id
    cannot hold. *)
Definition ends_id (rest : str) : Prop :=
  match rest with [] => True | c :: _ => sid_char c = false end.

(** A text that holds none of the characters [cs]. *)
Definition without (cs : list ascii) (s : str) : Prop :=
  forallb (fun d => negb (existsb (Ascii.eqb d) cs)) s = true.

(** What may stand between the key and [id]: nothing, or one underscore,
    hyphen or whitespace character. *)
Definition joiner_char (c : ascii) : bool := one_of "_-" c || isspace c.

Definition joins (j : str) : Prop := made_of joiner_char j /\ length j <= 1.

(** Texts of the families of the specification: the quoted key with its
    value, the same without the closing quote, the path, the resume
    directive of codex, the bare resume directive, a key with its value,
    and the word [session] before an id. *)
Definition quoted_text (q : ascii) (ws1 ws2 id rest : str) : str :=
  [q] ++ lit "session_id" ++ [q] ++ ws1 ++ lit ":" ++ ws2 ++ [q] ++ id ++ [q] ++ rest.

Definition unclosed_text (q : ascii) (id : str) : str :=
  [q] ++ lit "session_id" ++ [q] ++ lit ":" ++ [q] ++ id.

Definition path_text (pre id rest : str) : str :=
  pre ++ lit "/sessions/" ++ id ++ rest.

Definition codex_text (ws1 ws2 id rest : str) : str :=
  lit "codex" ++ ws1 ++ lit "resume" ++ ws2 ++ id ++ rest.

Definition resume_text (ws id : str) : str := lit "resume" ++ ws ++ id.

Definition key_text (key : string) (j ws1 : str) (sep : ascii) (ws2 id : str) : str :=
  lit key ++ j ++ lit "id" ++ ws1 ++ [sep] ++ ws2 ++ id.

Definition session_text (ws id : str) : str := lit "session" ++ ws ++ id.

End SessionTexts.

(** Texts that differ in the case of their letters only. *)

Module Case.

Import Re.

(** Two characters that differ at most in case. *)
Definition same_letter (c d : ascii) : Prop := lower_char c = lower_char d.

(** Texts, last characters and results of a search that differ at most in
    the case of their letters. *)
Definition same_text (s t : str) : Prop := Forall2 same_letter s t.

Definition same_last (p q : option ascii) : Prop :=
  match p, q with
  | None, None => True
  | Some c, Some d => same_letter c d
  | _, _ => False
  end.

Definition same_result (r r' : option str) : Prop :=
  match r, r' with
  | None, None => True
  | Some a, Some b => same_text a b
  | _, _ => False
  end.

Definition same_cont (k k' : cont str) : Prop :=
  forall p p' t t', same_last p p' -> same_text t t' -> same_result (k p t) (k' p' t').

End Case.

(* ===================================================================== *)
(** * Part II: theorems                                                   *)
(* ===================================================================== *)

(** ** Facts about the string primitives *)

Lemma nospace_cons c w : nospace (c :: w) <-> isspace c = false /\ nospace w.
Proof.
  unfold nospace; simpl. rewrite andb_true_iff, negb_true_iff. tauto.
Qed.

Lemma nospace_app a b : nospace (a ++ b) <-> nospace a /\ nospace b.
Proof.
  unfold nospace. rewrite forallb_app, andb_true_iff. tauto.
Qed.

Lemma nospace_firstn n w : nospace w -> nospace (firstn n w).
Proof.
  revert n; induction w as [|c w IH]; intros [|n] H; simpl; try reflexivity.
  apply nospace_cons in H as [Hc Hw]. apply nospace_cons. auto.
Qed.

Lemma word_cons c w : isspace c = false -> nospace w -> word (c :: w).
Proof.
  intros Hc Hw; split; [discriminate | now apply nospace_cons].
Qed.

Lemma split_space c s : isspace c = true -> split (c :: s) = split s.
Proof. intros H; simpl; now rewrite H. Qed.

Lemma split_last c : isspace c = false -> split [c] = [[c]].
Proof. intros H; simpl; now rewrite H. Qed.

Lemma split_break c d s :
  isspace c = false -> isspace d = true ->
  split (c :: d :: s) = [c] :: split (d :: s).
Proof.
  intros Hc Hd. change (split (c :: d :: s)) with
    (if isspace c then split (d :: s)
     else if isspace d then [c] :: split (d :: s)
          else match split (d :: s) with
               | w :: ws => (c :: w) :: ws
               | [] => [[c]]
               end).
  now rewrite Hc, Hd.
Qed.

Lemma split_extend c d s :
  isspace c = false -> isspace d = false ->
  split (c :: d :: s) =
  match split (d :: s) with
  | w :: ws => (c :: w) :: ws
  | [] => [[c]]
  end.
Proof.
  intros Hc Hd. change (split (c :: d :: s)) with
    (if isspace c then split (d :: s)
     else if isspace d then [c] :: split (d :: s)
          else match split (d :: s) with
               | w :: ws => (c :: w) :: ws
               | [] => [[c]]
               end).
  now rewrite Hc, Hd.
Qed.

(** Every token that [split] returns is non-empty and free of whitespace. *)
Lemma split_words s : Forall word (split s).
Proof.
  induction s as [|c s IH]; [constructor|].
  destruct (isspace c) eqn:Hc.
  - now rewrite split_space.
  - destruct s as [|d s].
    + rewrite split_last by assumption.
      constructor; [|constructor]. now apply word_cons.
    + destruct (isspace d) eqn:Hd.
      * rewrite split_break by assumption.
        constructor; [now apply word_cons | assumption].
      * rewrite split_extend by assumption.
        destruct (split (d :: s)) as [|w ws].
        -- constructor; [now apply word_cons | constructor].
        -- inversion IH as [|? ? [_ Hw] Hws]; subst.
           constructor; [now apply word_cons | assumption].
Qed.

(** [split] drops the whitespace and nothing else. *)
Lemma split_concat s :
  concat (split s) = filter (fun c => negb (isspace c)) s.
Proof.
  induction s as [|c s IH]; [reflexivity|].
  destruct (isspace c) eqn:Hc.
  - rewrite split_space by assumption. simpl. now rewrite Hc.
  - destruct s as [|d s].
    + rewrite split_last by assumption. simpl. now rewrite Hc.
    + destruct (isspace d) eqn:Hd.
      * rewrite split_break by assumption.
        change (concat ([c] :: split (d :: s))) with (c :: concat (split (d :: s))).
        rewrite IH. simpl. now rewrite Hc.
      * rewrite split_extend by assumption.
        assert (E : filter (fun c => negb (isspace c)) (c :: d :: s)
                    = c :: filter (fun c => negb (isspace c)) (d :: s))
          by (simpl; now rewrite Hc).
        rewrite E, <- IH.
        destruct (split (d :: s)) as [|w ws] eqn:Es; [|reflexivity].
        exfalso. simpl in IH. rewrite Hd in IH. discriminate.
Qed.

Lemma split_allspace s : forallb isspace s = true -> split s = [].
Proof.
  induction s as [|c s IH]; [reflexivity|]. simpl forallb.
  rewrite andb_true_iff. intros [Hc Hs]. rewrite split_space; auto.
Qed.

Lemma split_word_then_space w r :
  word w -> split (w ++ " "%char :: r) = w :: split r.
Proof.
  intros [Hne Hw]. induction w as [|c w IH]; [congruence|].
  apply nospace_cons in Hw as [Hc Hw].
  destruct w as [|d w].
  - simpl app. rewrite split_break by (assumption || reflexivity).
    now rewrite split_space by reflexivity.
  - pose proof Hw as Hw'. apply nospace_cons in Hw' as [Hd _].
    change ((c :: d :: w) ++ " "%char :: r) with (c :: d :: (w ++ " "%char :: r)).
    rewrite split_extend by assumption.
    change (d :: w ++ " "%char :: r) with ((d :: w) ++ " "%char :: r).
    rewrite IH; [reflexivity | discriminate | assumption].
Qed.

Lemma split_word w : word w -> split w = [w].
Proof.
  intros [Hne Hw]. induction w as [|c w IH]; [congruence|].
  apply nospace_cons in Hw as [Hc Hw].
  destruct w as [|d w].
  - now apply split_last.
  - pose proof Hw as Hw'. apply nospace_cons in Hw' as [Hd _].
    rewrite split_extend by assumption.
    rewrite IH; [reflexivity | discriminate | assumption].
Qed.

Lemma join_cons2 sep w w' ws :
  join sep (w :: w' :: ws) = w ++ sep ++ join sep (w' :: ws).
Proof. reflexivity. Qed.

Lemma join_cons_nonempty sep w ws :
  ws <> [] -> join sep (w :: ws) = w ++ sep ++ join sep ws.
Proof. destruct ws; [congruence | reflexivity]. Qed.

Lemma join_nil_inv sep ws : Forall word ws -> join sep ws = [] -> ws = [].
Proof.
  destruct ws as [|w ws]; [reflexivity|].
  intros H E. inversion H as [|? ? [Hne _] _]; subst.
  destruct ws; simpl in E.
  - congruence.
  - destruct w; [congruence | discriminate].
Qed.

(** Splitting a space-joined list of words gives the words back. *)
Lemma split_join ws : Forall word ws -> split (join (lit " ") ws) = ws.
Proof.
  induction ws as [|w ws IH]; [reflexivity|].
  intros H. inversion H as [|? ? Hw Hws]; subst.
  destruct ws as [|w' ws].
  - now apply split_word.
  - rewrite join_cons2. change (lit " " ++ ?x) with (" "%char :: x).
    rewrite split_word_then_space by assumption.
    now rewrite IH.
Qed.

Lemma rstrip_length s : length (rstrip s) <= length s.
Proof.
  induction s as [|c s IH]; [reflexivity|]. simpl.
  destruct (rstrip s); [destruct (isspace c)|]; simpl in *; lia.
Qed.

Lemma rstrip_nospace w : nospace w -> rstrip w = w.
Proof.
  induction w as [|c w IH]; [reflexivity|].
  intros H. apply nospace_cons in H as [Hc Hw]. simpl.
  rewrite IH by assumption. destruct w; [now rewrite Hc | reflexivity].
Qed.

Lemma rstrip_app a b :
  rstrip (a ++ b) =
  match rstrip b with
  | [] => rstrip a
  | _ :: _ => a ++ rstrip b
  end.
Proof.
  induction a as [|c a IH]; simpl.
  - now destruct (rstrip b).
  - rewrite IH. destruct (rstrip b) as [|x r]; [reflexivity|].
    now destruct a.
Qed.


Lemma startswith_spec p s : startswith p s = true <-> exists b, s = p ++ b.
Proof.
  revert s; induction p as [|a p IH]; intros s; simpl.
  - split; [intros _; now exists s | reflexivity].
  - destruct s as [|b s].
    + split; [discriminate | intros [x Hx]; discriminate].
    + rewrite andb_true_iff, Ascii.eqb_eq, IH. split.
      * intros [-> [x ->]]. now exists x.
      * intros [x Hx]. injection Hx as -> ->. split; [reflexivity | now exists x].
Qed.

(** The boolean test [needle in hay] decides [occurs]. *)
Lemma contains_spec needle hay : contains needle hay = true <-> occurs needle hay.
Proof.
  unfold occurs. induction hay as [|c hay IH].
  - simpl. rewrite orb_false_r, startswith_spec. split.
    + intros [b Hb]. now exists [], b.
    + intros (a & b & H). destruct a; [now exists b|discriminate].
  - simpl. rewrite orb_true_iff, startswith_spec, IH. split.
    + intros [[b Hb] | (a & b & H)].
      * now exists [], b.
      * exists (c :: a), b. now rewrite H.
    + intros (a & b & H). destruct a as [|x a].
      * left. now exists b.
      * right. injection H as -> ->. now exists a, b.
Qed.

Lemma contains_false needle hay : contains needle hay = false <-> ~ occurs needle hay.
Proof.
  rewrite <- contains_spec. destruct (contains needle hay); split; congruence.
Qed.

Lemma occurs_trans a b c : occurs a b -> occurs b c -> occurs a c.
Proof.
  intros (x & y & ->) (u & v & ->).
  exists (u ++ x), (y ++ v). now rewrite <- !app_assoc.
Qed.

Lemma truthy_true s : truthy s = true <-> s <> [].
Proof. destruct s; simpl; split; congruence. Qed.

Lemma truthy_false s : truthy s = false <-> s = [].
Proof. destruct s; simpl; split; congruence. Qed.

Lemma str_eqb_eq a b : str_eqb a b = true <-> a = b.
Proof. unfold str_eqb. destruct (list_eq_dec ascii_dec a b); split; congruence. Qed.

Lemma str_eqb_refl a : str_eqb a a = true.
Proof. now apply str_eqb_eq. Qed.







(** ** The summarizer *)

Import SummaryAgent.

(** The whitespace-collapsed, end-trimmed text that [summarize] works on. *)
Lemma collapse_idempotent p :
  join (lit " ") (split (join (lit " ") (split p))) = join (lit " ") (split p).
Proof. now rewrite split_join by apply split_words. Qed.

Lemma firstn_word_join n w :
  nospace w ->
  exists ws, Forall word ws /\ rstrip (firstn n w) = join (lit " ") ws.
Proof.
  intros Hw. pose proof (nospace_firstn n w Hw) as Hf.
  rewrite (rstrip_nospace _ Hf).
  destruct (firstn n w) as [|c r] eqn:E.
  - exists []. split; [constructor | reflexivity].
  - exists [c :: r]. split; [|reflexivity].
    constructor; [|constructor]. split; [discriminate | assumption].
Qed.

(** Cutting a space-joined list of words and trimming the cut on the right
    leaves a space-joined list of words. *)
Lemma rstrip_firstn_join ws :
  Forall word ws ->
  forall n, exists ws',
    Forall word ws' /\ rstrip (firstn n (join (lit " ") ws)) = join (lit " ") ws'.
Proof.
  induction ws as [|w ws IH]; intros H n.
  - exists []. split; [constructor|]. now rewrite firstn_nil.
  - inversion H as [|? ? Hw Hws]; subst.
    destruct ws as [|w' ws].
    + apply firstn_word_join, Hw.
    + rewrite join_cons2. rewrite firstn_app.
      destruct (Nat.le_gt_cases n (length w)) as [Hle|Hgt].
      * replace (n - length w) with 0 by lia.
        rewrite firstn_O, app_nil_r. apply firstn_word_join, Hw.
      * rewrite firstn_all2 by lia.
        destruct (n - length w) as [|m] eqn:Em; [lia|].
        change (firstn (S m) (lit " " ++ ?x)) with (" "%char :: firstn m x).
        destruct (IH Hws m) as (ws' & Hws' & E).
        change (w ++ " "%char :: ?x) with (w ++ [" "%char] ++ x).
        rewrite app_assoc, rstrip_app, E.
        destruct (join (lit " ") ws') as [|x r] eqn:Ej.
        -- exists [w]. split; [constructor; [assumption | constructor]|].
           rewrite rstrip_app. simpl. apply rstrip_nospace, Hw.
        -- exists (w :: ws'). split; [constructor; assumption|].
           rewrite join_cons_nonempty.
           ++ rewrite Ej, <- app_assoc. reflexivity.
           ++ intros ->. discriminate.
Qed.

(** Appending a word to a space-joined list of words extends its last word. *)
Lemma join_app_word ws d :
  Forall word ws -> word d ->
  exists ws', ws' <> [] /\ Forall word ws' /\
              join (lit " ") ws ++ d = join (lit " ") ws'.
Proof.
  intros H Hd. induction ws as [|w ws IH].
  - exists [d]. split; [discriminate|]. split; [now constructor | reflexivity].
  - inversion H as [|? ? Hw Hws]; subst.
    destruct ws as [|w' ws].
    + exists [w ++ d]. split; [discriminate|]. split; [|reflexivity].
      constructor; [|constructor]. destruct Hw as [Hne Hn], Hd as [_ Hdn].
      split; [destruct w; [congruence | discriminate] | apply nospace_app; split; assumption].
    + destruct (IH Hws) as (ws' & Hne & Hws' & E).
      exists (w :: ws'). split; [discriminate|]. split; [now constructor|].
      rewrite join_cons2, (join_cons_nonempty (lit " ") w ws' Hne).
      now rewrite <- !app_assoc, E.
Qed.

Lemma summarize_nil : summarize [] = [].
Proof. reflexivity. Qed.

Lemma summarize_short p :
  length (join (lit " ") (split p)) <= 96 ->
  summarize p = join (lit " ") (split p).
Proof.
  intros H. unfold summarize.
  destruct (join (lit " ") (split p)) as [|c r] eqn:E; [reflexivity|].
  simpl negb. cbv iota.
  apply Nat.leb_le in H. now rewrite H.
Qed.

Lemma summarize_long p :
  96 < length (join (lit " ") (split p)) ->
  summarize p = rstrip (firstn 93 (join (lit " ") (split p))) ++ lit "...".
Proof.
  intros H. unfold summarize.
  destruct (join (lit " ") (split p)) as [|c r] eqn:E; [simpl in H; lia|].
  simpl negb. cbv iota.
  apply Nat.leb_gt in H. now rewrite H.
Qed.

Lemma summarize_length p : length (summarize p) <= 96.
Proof.
  destruct (Nat.le_gt_cases (length (join (lit " ") (split p))) 96) as [H|H].
  - now rewrite summarize_short.
  - rewrite summarize_long by assumption.
    rewrite length_app.
    pose proof (rstrip_length (firstn 93 (join (lit " ") (split p)))) as Hr.
    pose proof (firstn_le_length 93 (join (lit " ") (split p))) as Hf.
    change (length (lit "...")) with 3. lia.
Qed.

(** A summary is a fixed point of the whitespace collapse. *)
Lemma summarize_collapsed p :
  join (lit " ") (split (summarize p)) = summarize p.
Proof.
  destruct (Nat.le_gt_cases (length (join (lit " ") (split p))) 96) as [H|H].
  - rewrite summarize_short by assumption. apply collapse_idempotent.
  - rewrite summarize_long by assumption.
    destruct (rstrip_firstn_join (split p) (split_words p) 93) as (ws1 & H1 & E1).
    assert (Hd : word (lit "...")) by (split; [discriminate | reflexivity]).
    destruct (join_app_word ws1 (lit "...") H1 Hd) as (ws2 & _ & H2 & E2).
    rewrite E1, E2. now rewrite split_join.
Qed.

(** C9: the length bound, the empty and whitespace-only inputs, and the two
    cases of [summarize]: a collapsed text of at most 96 characters is returned
    as it is; a longer one is cut to its first 93 characters, trimmed on the
    right, and followed by three dots. *)
Theorem summarize_spec (p : str) :
  let clean := join (lit " ") (split p) in
  length (summarize p) <= 96
  /\ summarize [] = []
  /\ (forallb isspace p = true -> summarize p = [])
  /\ (length clean <= 96 -> summarize p = clean)
  /\ (96 < length clean ->
      summarize p = rstrip (firstn 93 clean) ++ lit "...").
Proof.
  cbv zeta. split; [apply summarize_length|].
  split; [reflexivity|].
  split; [|split].
  - intros H. unfold summarize. now rewrite (split_allspace p H).
  - apply summarize_short.
  - apply summarize_long.
Qed.

(** C10: [summarize] is idempotent, so a ticket that the summarizer produced
    is returned unchanged when it is summarized again. *)
Theorem summarize_idempotent (p : str) :
  summarize (summarize p) = summarize p.
Proof.
  rewrite summarize_short; rewrite summarize_collapsed.
  - reflexivity.
  - apply summarize_length.
Qed.

Example split_example :
  split (lit "  fix   the bug ") = [lit "fix"; lit "the"; lit "bug"].
Proof. reflexivity. Qed.

Example replace_example :
  replace (lit "aa") (lit "b") (lit "aaa-aa") = lit "ba-b".
Proof. reflexivity. Qed.

Example summarize_collapses :
  summarize (lit "  fix   the bug ") = lit "fix the bug".
Proof. reflexivity. Qed.

(** A prompt of a hundred characters: ninety-two letters, a space and
    seven more letters.  The cut falls behind the space, which is trimmed
    before the dots are added. *)
Example summarize_cuts :
  summarize (repeat "a"%char 92 ++ lit " bbbbbbb")
  = repeat "a"%char 92 ++ lit "..."
  /\ length (summarize (repeat "a"%char 92 ++ lit " bbbbbbb")) = 95.
Proof. split; vm_compute; reflexivity. Qed.

(** ** The outcome classifier *)

Import StatusAgent.

(** C1: a return code other than zero gives Blocked whatever the output
    holds; with return code zero the lowercased output is searched for the
    markers of Testing, Blocked and Completed in that order, and the first
    one present decides; with no marker the status is Completed. *)
Theorem decide_spec (return_code : Z) (output : str) :
  let has marker := occurs (lit marker) (lower output) in
  (return_code <> 0%Z -> decide return_code output = lit "Blocked")
  /\ (return_code = 0%Z ->
      (has "status: testing"%string -> decide return_code output = lit "Testing")
      /\ (~ has "status: testing"%string -> has "status: blocked"%string ->
          decide return_code output = lit "Blocked")
      /\ (~ has "status: testing"%string -> ~ has "status: blocked"%string ->
          has "status: completed"%string ->
          decide return_code output = lit "Completed")
      /\ (~ has "status: testing"%string -> ~ has "status: blocked"%string ->
          ~ has "status: completed"%string ->
          decide return_code output = lit "Completed")).
Proof.
  cbv zeta. unfold decide. split.
  - intros H. apply Z.eqb_neq in H. now rewrite H.
  - intros ->. simpl negb. cbv iota.
    repeat split.
    + intros H. apply contains_spec in H. now rewrite H.
    + intros H1 H2. apply contains_false in H1. apply contains_spec in H2.
      now rewrite H1, H2.
    + intros H1 H2 H3. apply contains_false in H1, H2. apply contains_spec in H3.
      now rewrite H1, H2, H3.
    + intros H1 H2 H3. apply contains_false in H1, H2, H3.
      now rewrite H1, H2, H3.
Qed.

Example decide_examples :
  decide 1 (lit "status: completed") = lit "Blocked"
  /\ decide 0 (lit "Status: TESTING, then status: blocked") = lit "Testing"
  /\ decide 0 (lit "all fine. STATUS: Blocked") = lit "Blocked"
  /\ decide 0 (lit "no markers here") = lit "Completed".
Proof. repeat split. Qed.

(** ** The execution engine: building the invocation *)

Import ExecutionAgent.

(** Escaping puts a backslash before every double quote. *)
Example escape_example :
  _escape (lit "say " ++ [dquote] ++ lit "hi" ++ [dquote])
  = lit "say " ++ [backslash; dquote] ++ lit "hi" ++ [backslash; dquote].
Proof. reflexivity. Qed.

Example build_command_new_task :
  _build_command (new true) (lit "codex") (lit "fix it") []
  = lit "codex exec " ++ quoted (lit "fix it").
Proof. reflexivity. Qed.

Example build_command_resumed_task :
  _build_command (new true) (lit "codex") (lit "go on") (lit "s1")
  = lit "codex exec resume s1 " ++ quoted (lit "go on").
Proof. reflexivity. Qed.

Example build_command_exec_in_template :
  _build_command (new true) (lit "codex exec --json") (lit "go on") (lit "s1")
  = lit "codex exec --json resume s1 " ++ quoted (lit "go on").
Proof. reflexivity. Qed.

Example build_command_both_placeholders :
  _build_command (new true) (lit "run --session {session_id} -- {prompt}")
    (lit "go on") (lit "s1")
  = lit "run --session s1 -- go on".
Proof. reflexivity. Qed.



(** ** The session patterns *)

Import Re.

Lemma rep_sound (A : Type) cs (k : cont A) s :
  forall lo hi prev r,
    rep A cs lo hi k prev s = Some r ->
    exists u s' prev',
      s = u ++ s' /\ k prev' s' = Some r
      /\ forallb (cset_mem cs) u = true /\ lo <= length u.
Proof.
  induction s as [|c s IH]; intros lo hi prev r H.
  - simpl in H. destruct (Nat.eqb_spec lo 0) as [->|]; [|discriminate].
    exists [], [], prev. auto.
  - assert (Hstop : (if lo =? 0 then k prev (c :: s) else None) = Some r ->
                    exists u s' prev',
                      c :: s = u ++ s' /\ k prev' s' = Some r
                      /\ forallb (cset_mem cs) u = true /\ lo <= length u).
    { destruct (Nat.eqb_spec lo 0) as [->|]; [|discriminate].
      intros Hk. exists [], (c :: s), prev. auto. }
    simpl in H.
    destruct (cset_mem cs c && may_repeat hi) eqn:Hc; [|now apply Hstop].
    destruct (rep A cs (lo - 1) (option_map pred hi) k (Some c) s) as [r'|] eqn:Hr;
      [|now apply Hstop].
    injection H as ->.
    destruct (IH _ _ _ _ Hr) as (u & s' & prev' & -> & Hk & Hu & Hlen).
    apply andb_true_iff in Hc as [Hc _].
    exists (c :: u), s', prev'. simpl. rewrite Hc, Hu.
    repeat split; auto. lia.
Qed.

(** A successful match of a sequence of items consumes a prefix of the
    subject whose characters the items accept, and hands the rest to its
    continuation. *)
Lemma match_items_sound (A : Type) (P : ascii -> bool) items :
  Forall (item_within P) items ->
  forall (k : cont A) prev s r,
    match_items A items k prev s = Some r ->
    exists u s' prev',
      s = u ++ s' /\ k prev' s' = Some r
      /\ forallb P u = true /\ min_len items <= length u.
Proof.
  induction 1 as [|it items Hit _ IH]; intros k prev s r H.
  - exists [], s, prev. simpl in *. auto.
  - destruct it as [c | cs lo hi |]; simpl in H.
    + destruct s as [|d s]; [discriminate|].
      destruct (Ascii.eqb (lower_char c) (lower_char d)) eqn:E; [|discriminate].
      destruct (IH _ _ _ _ H) as (u & s' & prev' & -> & Hk & Hu & Hlen).
      exists (d :: u), s', prev'. simpl. rewrite (Hit d E), Hu.
      repeat split; auto. lia.
    + destruct (rep_sound _ _ _ _ _ _ _ _ H) as (u & s1 & p1 & -> & Hk & Hu & Hlen).
      destruct (IH _ _ _ _ Hk) as (v & s' & prev' & -> & Hk' & Hv & Hlen').
      exists (u ++ v), s', prev'. rewrite app_assoc, forallb_app, length_app.
      repeat split; auto.
      * rewrite Hv, andb_true_r. rewrite forallb_forall in *.
        intros x Hx. apply Hit, Hu, Hx.
      * simpl. lia.
    + destruct (xorb (word_before prev) (word_after s)); [|discriminate].
      destruct (IH _ _ _ _ H) as (u & s' & prev' & -> & Hk & Hu & Hlen).
      exists u, s', prev'. auto.
Qed.

Lemma item_within_any it : item_within (fun _ => true) it.
Proof. destruct it; simpl; auto. Qed.

Lemma firstn_length_app (u v : str) : firstn (length (u ++ v) - length v) (u ++ v) = u.
Proof.
  rewrite length_app. replace (length u + length v - length v) with (length u) by lia.
  rewrite firstn_app, Nat.sub_diag, firstn_all. simpl. apply app_nil_r.
Qed.

(** The text of group 1 is made of characters its items accept. *)
Lemma match_at_sound (P : ascii -> bool) p prev s cap :
  Forall (item_within P) (group p) ->
  match_at p prev s = Some cap ->
  forallb P cap = true /\ min_len (group p) <= length cap.
Proof.
  intros Hg H. unfold match_at in H.
  apply (match_items_sound _ (fun _ => true)) in H
    as (u0 & s1 & p1 & _ & H & _); [|apply Forall_forall; intros; apply item_within_any].
  apply (match_items_sound _ P) in H as (u1 & s2 & p2 & -> & H & Hu1 & Hlen); [|assumption].
  apply (match_items_sound _ (fun _ => true)) in H
    as (u2 & s3 & p3 & _ & H & _); [|apply Forall_forall; intros; apply item_within_any].
  injection H as <-. rewrite firstn_length_app. auto.
Qed.

Lemma search_from_sound (P : ascii -> bool) p s :
  Forall (item_within P) (group p) ->
  forall prev cap,
    search_from p prev s = Some cap ->
    forallb P cap = true /\ min_len (group p) <= length cap.
Proof.
  intros Hg. induction s as [|c s IH]; intros prev cap H; simpl in H.
  - destruct (match_at p prev []) eqn:E; [|discriminate].
    injection H as ->. eapply match_at_sound; eauto.
  - destruct (match_at p prev (c :: s)) eqn:E.
    + injection H as ->. eapply match_at_sound; eauto.
    + eapply IH; eauto.
Qed.

Ltac ascii_cases d := destruct d as [[] [] [] [] [] [] [] []].

Lemma token_colon_visible d : cset_mem token_colon d = true -> visible d = true.
Proof. ascii_cases d; vm_compute; intros; first [reflexivity | discriminate]. Qed.

Lemma token_visible d : cset_mem token d = true -> visible d = true.
Proof. ascii_cases d; vm_compute; intros; first [reflexivity | discriminate]. Qed.

Lemma hex_visible d : cset_mem hex d = true -> visible d = true.
Proof. ascii_cases d; vm_compute; intros; first [reflexivity | discriminate]. Qed.

Lemma hex_dash_visible d : cset_mem hex_dash d = true -> visible d = true.
Proof. ascii_cases d; vm_compute; intros; first [reflexivity | discriminate]. Qed.

Lemma dash_visible d :
  Ascii.eqb (lower_char "-"%char) (lower_char d) = true -> visible d = true.
Proof. ascii_cases d; vm_compute; intros; first [reflexivity | discriminate]. Qed.

Lemma patterns_group_visible : Forall group_visible patterns.
Proof.
  unfold patterns.
  repeat (apply Forall_cons || apply Forall_nil); split; simpl; try lia;
    repeat (apply Forall_cons || apply Forall_nil); simpl;
    auto using token_colon_visible, token_visible, hex_visible,
               hex_dash_visible, dash_visible.
Qed.

Lemma lstrip_nospace w : nospace w -> lstrip w = w.
Proof.
  destruct w as [|c w]; [reflexivity|].
  intros H. apply nospace_cons in H as [Hc _]. simpl. now rewrite Hc.
Qed.

Lemma strip_nospace w : nospace w -> strip w = w.
Proof.
  intros H. unfold strip. rewrite lstrip_nospace by assumption.
  now apply rstrip_nospace.
Qed.

(** A capture of a session pattern is not empty and stripping leaves it
    as it is. *)
Lemma search_capture p output cap :
  group_visible p -> search p output = Some cap ->
  cap <> [] /\ strip cap = cap.
Proof.
  intros [Hg Hmin] H.
  destruct (search_from_sound visible p output Hg None cap H) as [Hv Hlen].
  split.
  - intros ->. simpl in Hlen. lia.
  - now apply strip_nospace.
Qed.

Lemma first_match_none ps output :
  Forall (fun q => search q output = None) ps -> first_match ps output = [].
Proof.
  induction 1 as [|q ps Hq _ IH]; simpl; [reflexivity|]. now rewrite Hq.
Qed.

Lemma first_match_first ps output :
  forall earlier p later cap,
    ps = earlier ++ p :: later ->
    Forall (fun q => search q output = None) earlier ->
    search p output = Some cap ->
    first_match ps output = strip cap.
Proof.
  intros earlier. revert ps.
  induction earlier as [|q earlier IH]; intros ps p later cap -> Hq Hp; simpl.
  - now rewrite Hp.
  - inversion Hq as [|? ? Hq1 Hq2]; subst. rewrite Hq1. eapply IH; eauto.
Qed.

Lemma first_match_empty ps output :
  Forall group_visible ps ->
  first_match ps output = [] ->
  Forall (fun q => search q output = None) ps.
Proof.
  induction 1 as [|q ps Hq _ IH]; simpl; intros H; [constructor|].
  destruct (search q output) as [cap|] eqn:E.
  - destruct (search_capture q output cap Hq E) as [Hne Hs]. congruence.
  - constructor; auto.
Qed.

(** A repetition without upper bound that can take the whole rest of the
    subject does so, when what follows accepts the empty rest. *)
Lemma rep_takes_all (A : Type) cs (k : cont A) r u :
  (forall prev, k prev [] = Some r) ->
  forallb (cset_mem cs) u = true ->
  forall lo prev, lo <= length u -> rep A cs lo None k prev u = Some r.
Proof.
  intros Hk. induction u as [|c u IH]; intros Hu lo prev Hlo.
  - simpl in *. replace lo with 0 by lia. apply Hk.
  - simpl in Hu. apply andb_true_iff in Hu as [Hc Hu].
    simpl. rewrite Hc. cbn [may_repeat andb option_map].
    rewrite IH; [reflexivity | assumption | simpl in Hlo; lia].
Qed.

(** A literal character of a pattern occurs, up to case, in every subject
    that the pattern matches. *)
Lemma match_items_literal (A : Type) c items :
  In (Chr c) items ->
  forall (k : cont A) prev s r,
    match_items A items k prev s = Some r ->
    exists d, In d s /\ Ascii.eqb (lower_char c) (lower_char d) = true.
Proof.
  induction items as [|it items IH]; intros Hin k prev s r H; [contradiction|].
  destruct it as [c' | cs lo hi |]; simpl in H.
  - destruct s as [|d s]; [discriminate|].
    destruct (Ascii.eqb (lower_char c') (lower_char d)) eqn:E; [|discriminate].
    destruct Hin as [Heq | Hin].
    + injection Heq as ->. exists d. split; [now left | assumption].
    + destruct (IH Hin _ _ _ _ H) as (x & Hx & Ex). exists x. split; [now right | assumption].
  - destruct Hin as [Heq | Hin]; [discriminate|].
    destruct (rep_sound _ _ _ _ _ _ _ _ H) as (u & s1 & p1 & -> & Hk & _).
    destruct (IH Hin _ _ _ _ Hk) as (x & Hx & Ex).
    exists x. split; [apply in_or_app; now right | assumption].
  - destruct Hin as [Heq | Hin]; [discriminate|].
    destruct (xorb (word_before prev) (word_after s)); [|discriminate].
    eapply IH; eauto.
Qed.

Lemma search_from_literal c p :
  In (Chr c) (before p) ->
  forall s prev cap,
    search_from p prev s = Some cap ->
    exists d, In d s /\ Ascii.eqb (lower_char c) (lower_char d) = true.
Proof.
  intros Hin. induction s as [|x s IH]; intros prev cap H; simpl in H.
  - destruct (match_at p prev []) eqn:E; [|discriminate].
    unfold match_at in E. eapply match_items_literal; eauto.
  - destruct (match_at p prev (x :: s)) eqn:E.
    + unfold match_at in E. eapply match_items_literal; eauto.
    + destruct (IH _ _ H) as (d & Hd & Ed). exists d. split; [now right | assumption].
Qed.

Lemma search_needs_literal c p s :
  In (Chr c) (before p) ->
  (forall d, In d s -> Ascii.eqb (lower_char c) (lower_char d) = false) ->
  search p s = None.
Proof.
  intros Hin Hs. destruct (search p s) as [cap|] eqn:E; [|reflexivity].
  destruct (search_from_literal c p Hin s None cap E) as (d & Hd & Ed).
  rewrite (Hs d Hd) in Ed. discriminate.
Qed.

Lemma token_colon_plain d :
  cset_mem token_colon d = true ->
  Ascii.eqb (lower_char dquote) (lower_char d) = false
  /\ Ascii.eqb (lower_char squote) (lower_char d) = false
  /\ Ascii.eqb (lower_char "/"%char) (lower_char d) = false.
Proof. ascii_cases d; vm_compute; intros; first [discriminate | repeat split]. Qed.

Lemma codex_resume_plain id d :
  forallb (cset_mem token_colon) id = true ->
  In d (lit "codex resume " ++ id) ->
  Ascii.eqb (lower_char dquote) (lower_char d) = false
  /\ Ascii.eqb (lower_char squote) (lower_char d) = false
  /\ Ascii.eqb (lower_char "/"%char) (lower_char d) = false.
Proof.
  intros Hid Hd. apply in_app_or in Hd as [Hd | Hd].
  - simpl in Hd. repeat (destruct Hd as [<- | Hd]; [repeat split|]). contradiction.
  - apply token_colon_plain. rewrite forallb_forall in Hid. now apply Hid.
Qed.


Lemma match_items_chars (A : Type) w rest (k : cont A) :
  forall prev s,
    match_items A (map Chr w ++ rest) k prev (w ++ s)
    = match_items A rest k (fold_left (fun _ c => Some c) w prev) s.
Proof.
  induction w as [|c w IH]; intros prev s; [reflexivity|].
  cbn [map app match_items fold_left]. rewrite Ascii.eqb_refl. apply IH.
Qed.

Lemma rep_one (A : Type) cs (k : cont A) prev c s r :
  cset_mem cs c = true ->
  match s with [] => True | d :: _ => cset_mem cs d = false end ->
  k (Some c) s = Some r ->
  rep A cs 1 None k prev (c :: s) = Some r.
Proof.
  intros Hc Hs Hk. cbn [rep]. rewrite Hc. cbn [may_repeat andb option_map Nat.sub].
  destruct s as [|d s]; cbn [rep Nat.eqb].
  - now rewrite Hk.
  - rewrite Hs. cbn [andb Nat.eqb]. now rewrite Hk.
Qed.

Lemma token_colon_not_space d : cset_mem token_colon d = true -> cset_mem space d = false.
Proof. ascii_cases d; vm_compute; intros; first [discriminate | reflexivity]. Qed.

Lemma search_from_here p prev s cap :
  match_at p prev s = Some cap -> search_from p prev s = Some cap.
Proof. intros H. destruct s; simpl; now rewrite H. Qed.

Lemma codex_resume_found id :
  id <> [] -> forallb (cset_mem token_colon) id = true ->
  search codex_resume (lit "codex resume " ++ id) = Some id.
Proof.
  intros Hne Hid. unfold search.
  assert (E : match_at codex_resume None (lit "codex resume " ++ id) = Some id).
  { unfold match_at, codex_resume, chars, plus. cbn [before group after].
    change (lit "codex resume " ++ id)
      with (lit "codex" ++ " "%char :: lit "resume" ++ " "%char :: id).
    cbn [app match_items].
    change (xorb (word_before None) (word_after (lit "codex" ++ " "%char :: lit "resume" ++ " "%char :: id)))
      with true. cbv iota.
    rewrite match_items_chars. cbn [app match_items].
    apply rep_one; [reflexivity | reflexivity |].
    rewrite match_items_chars. cbn [app match_items].
    destruct id as [|c id]; [congruence|].
    pose proof Hid as Hid'. simpl in Hid'. apply andb_true_iff in Hid' as [Hc _].
    apply rep_one; [reflexivity | now apply token_colon_not_space |].
    cbn [match_items].
    rewrite (rep_takes_all _ token_colon _ (c :: id)); try assumption.
    - reflexivity.
    - intros prev. change (length (@nil ascii)) with 0.
      now rewrite Nat.sub_0_r, firstn_all.
    - simpl. lia. }
  now apply search_from_here.
Qed.

(** Whatever the id, it is extracted from a [codex resume] directive. *)
Lemma extract_codex_resume_any id :
  id <> [] -> forallb (cset_mem token_colon) id = true ->
  extract_session_id (lit "codex resume " ++ id) = id.
Proof.
  intros Hne Hid.
  assert (Hplain := fun d => codex_resume_plain id d Hid).
  unfold extract_session_id, patterns. cbn [first_match].
  rewrite (search_needs_literal dquote (quoted_session_id dquote))
    by (try (now left); intros d Hd; apply (Hplain d Hd)).
  rewrite (search_needs_literal squote (quoted_session_id squote))
    by (try (now left); intros d Hd; apply (Hplain d Hd)).
  rewrite (search_needs_literal "/"%char sessions_path)
    by (try (now left); intros d Hd; apply (Hplain d Hd)).
  rewrite codex_resume_found by assumption.
  apply strip_nospace. unfold nospace. rewrite forallb_forall in *.
  intros x Hx. apply (token_colon_visible x), Hid, Hx.
Qed.

(** A [resume <id>] directive that does not follow the name of the agent is
    not one of the patterns: nothing is extracted from it. *)
Lemma extract_session_id_bare_resume :
  search spec_resume_id (lit "to continue run: resume abc123") = Some (lit "abc123")
  /\ extract_session_id (lit "to continue run: resume abc123") = [].
Proof. split; vm_compute; reflexivity. Qed.

Example extract_double_quoted :
  extract_session_id (lit "{" ++ [dquote] ++ lit "Session_ID" ++ [dquote] ++ lit " : "
                          ++ [dquote] ++ lit "abc-1" ++ [dquote] ++ lit "}")
  = lit "abc-1".
Proof. vm_compute. reflexivity. Qed.

Example extract_single_quoted :
  extract_session_id (lit "{'session_id':'s:9'}") = lit "s:9".
Proof. vm_compute. reflexivity. Qed.

Example extract_sessions_path :
  extract_session_id (lit "GET /Sessions/ab.c:d done") = lit "ab.c:d".
Proof. vm_compute. reflexivity. Qed.

Example extract_codex_resume :
  extract_session_id (lit "run: codex  resume xyz now") = lit "xyz".
Proof. vm_compute. reflexivity. Qed.

Example extract_resume_uuid :
  extract_session_id (lit "resume 0123ABCD-0123-4567-89ab-0123456789ab.")
  = lit "0123ABCD-0123-4567-89ab-0123456789ab".
Proof. vm_compute. reflexivity. Qed.

Example extract_key_value :
  extract_session_id (lit "Session-ID = s_1.2 ") = lit "s_1.2"
  /\ extract_session_id (lit "conversation id: c9") = lit "c9".
Proof. split; vm_compute; reflexivity. Qed.

Example extract_bare_session :
  extract_session_id (lit "session abcdefgh12") = lit "abcdefgh12"
  /\ extract_session_id (lit "session abcdefg") = [].
Proof. split; vm_compute; reflexivity. Qed.

(** The quoted key wins over a path that stands before it in the text. *)
Example extract_priority :
  extract_session_id (lit "/sessions/p1 " ++ [dquote] ++ lit "session_id" ++ [dquote]
                          ++ lit ":" ++ [dquote] ++ lit "k1" ++ [dquote])
  = lit "k1".
Proof. vm_compute. reflexivity. Qed.


Import Matching SessionTexts Case.

(** *** Characters up to case *)

Lemma lower_char_cases c :
  lower_char c = c
  \/ (upper_char (lower_char c) = c /\ lower_char (lower_char c) = lower_char c
      /\ upper_char c = c
      /\ isspace c = false /\ isspace (lower_char c) = false
      /\ isword c = true /\ isword (lower_char c) = true).
Proof. ascii_cases c; vm_compute; first [left; reflexivity | right; repeat split]. Qed.

(** Two characters with the same lower case are the same, or one is the
    lower case of the other, which is a capital letter. *)
Lemma same_letter_cases c d :
  lower_char c = lower_char d ->
  c = d
  \/ (d = lower_char c /\ lower_char c <> c /\ lower_char d = d)
  \/ (c = lower_char d /\ lower_char d <> d /\ lower_char c = c).
Proof.
  intros H.
  destruct (ascii_dec (lower_char c) c) as [Ec|Ec];
    destruct (ascii_dec (lower_char d) d) as [Ed|Ed].
  - left. congruence.
  - right. right. repeat split; congruence.
  - right. left. repeat split; congruence.
  - left. destruct (lower_char_cases c) as [?|(Hc & _)]; [congruence|].
    destruct (lower_char_cases d) as [?|(Hd & _)]; [congruence|]. congruence.
Qed.

Lemma same_letter_isspace c d : lower_char c = lower_char d -> isspace c = isspace d.
Proof.
  intros H. destruct (same_letter_cases c d H) as [->|[(-> & Hn & _)|(-> & Hn & _)]];
    [reflexivity| |].
  - destruct (lower_char_cases c) as [?|(_ & _ & _ & H1 & H2 & _)]; congruence.
  - destruct (lower_char_cases d) as [?|(_ & _ & _ & H1 & H2 & _)]; congruence.
Qed.

Lemma same_letter_isword c d : lower_char c = lower_char d -> isword c = isword d.
Proof.
  intros H. destruct (same_letter_cases c d H) as [->|[(-> & Hn & _)|(-> & Hn & _)]];
    [reflexivity| |].
  - destruct (lower_char_cases c) as [?|(_ & _ & _ & _ & _ & H1 & H2)]; congruence.
  - destruct (lower_char_cases d) as [?|(_ & _ & _ & _ & _ & H1 & H2)]; congruence.
Qed.

Lemma cset_mem_capital cs c :
  lower_char c <> c -> cset_mem cs (lower_char c) = cset_mem cs c.
Proof.
  intros Hn. destruct (lower_char_cases c) as [?|(Hu & Hl & Hup & Hs1 & Hs2 & _)];
    [congruence|].
  unfold cset_mem. rewrite Hu, Hl, Hup, Hs1, Hs2.
  destruct (in_ranges (ranges cs) c), (in_ranges (ranges cs) (lower_char c));
    reflexivity.
Qed.

Lemma same_letter_cset_mem cs c d :
  lower_char c = lower_char d -> cset_mem cs c = cset_mem cs d.
Proof.
  intros H. destruct (same_letter_cases c d H) as [->|[(-> & Hn & _)|(-> & Hn & _)]].
  - reflexivity.
  - symmetry. now apply cset_mem_capital.
  - now apply cset_mem_capital.
Qed.

Lemma same_text_lower s t : same_text s t <-> lower s = lower t.
Proof.
  split.
  - induction 1 as [|c d s t Hc _ IH]; [reflexivity|]. simpl. now rewrite Hc, IH.
  - revert t; induction s as [|c s IH]; intros [|d t] H; try discriminate;
      [constructor|]. simpl in H. injection H as Hc Hs.
    constructor; [exact Hc | now apply IH].
Qed.

Lemma same_text_length s t : same_text s t -> length s = length t.
Proof. induction 1; simpl; congruence. Qed.

Lemma same_text_firstn n s t : same_text s t -> same_text (firstn n s) (firstn n t).
Proof.
  intros H. revert n. induction H as [|c d s t Hc _ IH]; intros [|n]; simpl.
  - constructor.
  - constructor.
  - constructor.
  - constructor; [exact Hc | apply IH].
Qed.

Lemma same_text_word_after s t : same_text s t -> word_after s = word_after t.
Proof. destruct 1 as [|c d s t Hc _]; [reflexivity|]. now apply same_letter_isword. Qed.

Lemma same_last_word_before p q : same_last p q -> word_before p = word_before q.
Proof.
  destruct p as [c|], q as [d|]; simpl; try tauto. apply same_letter_isword.
Qed.

Section CaseMatcher.

Lemma rep_same cs (k k' : cont str) :
  same_cont k k' ->
  forall s s', same_text s s' ->
  forall lo hi p p', same_last p p' ->
    same_result (rep str cs lo hi k p s) (rep str cs lo hi k' p' s').
Proof.
  intros Hk s s' Hs. induction Hs as [|c d s s' Hc Hs IH]; intros lo hi p p' Hp.
  - simpl. destruct (lo =? 0); [apply Hk; [assumption | constructor] | exact I].
  - assert (Hstop : same_result (if lo =? 0 then k p (c :: s) else None)
                                (if lo =? 0 then k' p' (d :: s') else None)).
    { destruct (lo =? 0); [|exact I]. apply Hk; [assumption|]. now constructor. }
    cbn [rep]. rewrite <- (same_letter_cset_mem cs c d Hc).
    destruct (cset_mem cs c && may_repeat hi); [|exact Hstop].
    specialize (IH (lo - 1) (option_map pred hi) (Some c) (Some d) Hc).
    destruct (rep str cs (lo - 1) (option_map pred hi) k (Some c) s) as [r|],
             (rep str cs (lo - 1) (option_map pred hi) k' (Some d) s') as [r'|];
      simpl in IH; try contradiction; [exact IH | exact Hstop].
Qed.

Lemma match_items_same items :
  forall (k k' : cont str), same_cont k k' ->
  same_cont (match_items str items k) (match_items str items k').
Proof.
  induction items as [|it items IH]; intros k k' Hk; [exact Hk|].
  intros p p' t t' Hp Ht. destruct it as [c | cs lo hi |]; cbn [match_items].
  - destruct Ht as [|a b t t' Hab Ht]; [exact I|].
    unfold same_letter in Hab. rewrite <- Hab.
    destruct (Ascii.eqb (lower_char c) (lower_char a)); [|exact I].
    apply IH; assumption.
  - apply rep_same; try assumption. now apply IH.
  - rewrite <- (same_last_word_before p p' Hp), <- (same_text_word_after t t' Ht).
    destruct (xorb (word_before p) (word_after t)); [|exact I].
    apply IH; assumption.
Qed.

Lemma match_at_same p : same_cont (match_at p) (match_at p).
Proof.
  unfold match_at. apply match_items_same.
  intros p1 p1' s1 s1' Hp1 Hs1. apply match_items_same; [|assumption|assumption].
  intros p2 p2' s2 s2' Hp2 Hs2. apply match_items_same; try assumption.
  intros _ _ s3 s3' _ _. simpl.
  rewrite (same_text_length _ _ Hs1), (same_text_length _ _ Hs2).
  now apply same_text_firstn.
Qed.

Lemma search_from_same p : same_cont (search_from p) (search_from p).
Proof.
  intros q q' s s' Hq Hs. revert q q' Hq.
  induction Hs as [|c d s s' Hc Hs IH]; intros q q' Hq.
  - pose proof (match_at_same p q q' [] [] Hq (Forall2_nil _)) as H.
    simpl. destruct (match_at p q []), (match_at p q' []); simpl in *; tauto.
  - pose proof (match_at_same p q q' (c :: s) (d :: s') Hq
                  (Forall2_cons _ _ Hc Hs)) as H.
    cbn [search_from].
    destruct (match_at p q (c :: s)), (match_at p q' (d :: s')); simpl in H;
      try contradiction; [exact H|].
    apply IH. exact Hc.
Qed.

End CaseMatcher.

Lemma first_match_same ps s s' :
  Forall group_visible ps -> same_text s s' ->
  same_text (first_match ps s) (first_match ps s').
Proof.
  intros Hps Hs. induction Hps as [|p ps Hp _ IH]; [constructor|].
  cbn [first_match].
  pose proof (search_from_same p None None s s' I Hs) as H. fold (search p s) in H.
  fold (search p s') in H.
  destruct (search p s) as [cap|] eqn:E, (search p s') as [cap'|] eqn:E';
    simpl in H; try contradiction; [|exact IH].
  destruct (search_capture p s cap Hp E) as [_ ->].
  destruct (search_capture p s' cap' Hp E') as [_ ->]. exact H.
Qed.

(** The extraction does not depend on the case of the letters of the
    output: the ids of two outputs that differ in case only differ in case
    only. *)
Lemma extract_session_id_case s s' :
  lower s = lower s' ->
  lower (extract_session_id s) = lower (extract_session_id s').
Proof.
  intros H. apply same_text_lower. apply first_match_same.
  - apply patterns_group_visible.
  - now apply same_text_lower.
Qed.

(** *** Where a pattern cannot be found *)

Lemma search_from_cons_none p prev c s :
  match_at p prev (c :: s) = None ->
  search_from p prev (c :: s) = search_from p (Some c) s.
Proof. intros H. cbn [search_from]. now rewrite H. Qed.

Lemma search_from_nil_none p prev :
  match_at p prev [] = None -> search_from p prev [] = None.
Proof. intros H. cbn [search_from]. now rewrite H. Qed.

Lemma match_at_first_literal p c rest d prev t :
  before p = Chr c :: rest \/ before p = WordBoundary :: Chr c :: rest ->
  Ascii.eqb (lower_char c) (lower_char d) = false ->
  match_at p prev (d :: t) = None.
Proof.
  intros [E|E] H; unfold match_at; rewrite E; cbn [match_items]; rewrite H;
    [reflexivity|]. now destruct (xorb _ _).
Qed.

Lemma search_from_skip p c rest u :
  before p = Chr c :: rest \/ before p = WordBoundary :: Chr c :: rest ->
  (forall d, In d u -> Ascii.eqb (lower_char c) (lower_char d) = false) ->
  forall prev s, search_from p prev (u ++ s) = search_from p (after_run u prev) s.
Proof.
  intros Hp. induction u as [|d u IH]; intros Hu prev s; [reflexivity|].
  cbn [app]. rewrite search_from_cons_none.
  - apply IH. intros x Hx. apply Hu. now right.
  - eapply match_at_first_literal; [exact Hp|]. apply Hu. now left.
Qed.

Lemma search_from_no_literal c p s prev :
  In (Chr c) (before p) ->
  (forall d, In d s -> Ascii.eqb (lower_char c) (lower_char d) = false) ->
  search_from p prev s = None.
Proof.
  intros Hin Hs. destruct (search_from p prev s) as [cap|] eqn:E; [|reflexivity].
  destruct (search_from_literal c p Hin s prev cap E) as (d & Hd & Ed).
  rewrite (Hs d Hd) in Ed. discriminate.
Qed.

(** A repetition that must take a character finds one of its class in
    every subject that the pattern matches. *)
Lemma match_items_class (A : Type) cs lo hi items :
  In (Rep cs lo hi) items -> 1 <= lo ->
  forall (k : cont A) prev s r,
    match_items A items k prev s = Some r ->
    exists d, In d s /\ cset_mem cs d = true.
Proof.
  intros Hin Hlo. induction items as [|it items IH]; intros k prev s r H;
    [contradiction|].
  destruct it as [c' | cs' lo' hi' |]; cbn [match_items] in H.
  - destruct Hin as [Heq | Hin]; [discriminate|].
    destruct s as [|d s]; [discriminate|].
    destruct (Ascii.eqb (lower_char c') (lower_char d)); [|discriminate].
    destruct (IH Hin _ _ _ _ H) as (x & Hx & Ex). exists x. split; [now right | assumption].
  - destruct (rep_sound _ _ _ _ _ _ _ _ H) as (u & s1 & p1 & -> & Hk & Hu & Hlen).
    destruct Hin as [Heq | Hin].
    + injection Heq as -> -> ->. destruct u as [|x u]; [simpl in Hlen; lia|].
      simpl in Hu. apply andb_prop in Hu as [Hx _].
      exists x. split; [now left | assumption].
    + destruct (IH Hin _ _ _ _ Hk) as (x & Hx & Ex).
      exists x. split; [apply in_or_app; now right | assumption].
  - destruct Hin as [Heq | Hin]; [discriminate|].
    destruct (xorb (word_before prev) (word_after s)); [|discriminate].
    eapply IH; eauto.
Qed.

Lemma search_from_no_class cs lo hi p s prev :
  In (Rep cs lo hi) (before p) -> 1 <= lo ->
  (forall d, In d s -> cset_mem cs d = false) ->
  search_from p prev s = None.
Proof.
  intros Hin Hlo. revert prev. induction s as [|x s IH]; intros prev Hs.
  - cbn [search_from]. destruct (match_at p prev []) eqn:E; [|reflexivity].
    unfold match_at in E.
    destruct (match_items_class _ _ _ _ _ Hin Hlo _ _ _ _ E) as (d & [] & _).
  - cbn [search_from]. destruct (match_at p prev (x :: s)) eqn:E.
    + unfold match_at in E.
      destruct (match_items_class _ _ _ _ _ Hin Hlo _ _ _ _ E) as (d & Hd & Ed).
      rewrite (Hs d Hd) in Ed. discriminate.
    + apply IH. intros d Hd. apply Hs. now right.
Qed.

(** A subject shorter than the least text of a pattern. *)
Lemma match_at_least p prev s cap :
  match_at p prev s = Some cap -> least p <= length s.
Proof.
  intros H. unfold match_at in H.
  apply (match_items_sound _ (fun _ => true)) in H
    as (u0 & s1 & p1 & -> & H & _ & H0);
    [|apply Forall_forall; intros; apply item_within_any].
  apply (match_items_sound _ (fun _ => true)) in H
    as (u1 & s2 & p2 & -> & H & _ & H1);
    [|apply Forall_forall; intros; apply item_within_any].
  apply (match_items_sound _ (fun _ => true)) in H
    as (u2 & s3 & p3 & -> & H & _ & H2);
    [|apply Forall_forall; intros; apply item_within_any].
  unfold least. rewrite !length_app. lia.
Qed.

Lemma search_from_short p s :
  length s < least p -> forall prev, search_from p prev s = None.
Proof.
  induction s as [|x s IH]; intros Hs prev; cbn [search_from].
  - destruct (match_at p prev []) eqn:E; [|reflexivity].
    apply match_at_least in E. lia.
  - destruct (match_at p prev (x :: s)) eqn:E.
    + apply match_at_least in E. lia.
    + apply IH. simpl in Hs. lia.
Qed.

(** *** Where a pattern is found *)

Lemma rep_run (A : Type) cs (k : cont A) r s :
  match s with [] => True | d :: _ => cset_mem cs d = false end ->
  (forall prev, k prev s = Some r) ->
  forall u lo prev,
    forallb (cset_mem cs) u = true -> lo <= length u ->
    rep A cs lo None k prev (u ++ s) = Some r.
Proof.
  intros Hs Hk. induction u as [|c u IH]; intros lo prev Hu Hlo.
  - simpl in Hlo. replace lo with 0 by lia. cbn [app].
    destruct s as [|d s]; cbn [rep Nat.eqb]; [apply Hk|].
    rewrite Hs. cbn [andb]. apply Hk.
  - simpl in Hu. apply andb_prop in Hu as [Hc Hu].
    cbn [app rep]. rewrite Hc. cbn [may_repeat andb option_map].
    rewrite IH; [reflexivity | assumption | simpl in Hlo; lia].
Qed.

Lemma rep_exact (A : Type) cs (k : cont A) s :
  forall u prev,
    forallb (cset_mem cs) u = true ->
    rep A cs (length u) (Some (length u)) k prev (u ++ s) = k (after_run u prev) s.
Proof.
  induction u as [|c u IH]; intros prev Hu.
  - cbn [length app after_run fold_left]. destruct s as [|d s]; cbn [rep Nat.eqb];
      [reflexivity|]. cbn [may_repeat]. now rewrite andb_false_r.
  - simpl in Hu. apply andb_prop in Hu as [Hc Hu].
    cbn [length app rep Nat.eqb]. rewrite Hc.
    cbn [may_repeat andb option_map Nat.sub Nat.pred].
    rewrite Nat.sub_0_r, IH by assumption.
    cbn [after_run fold_left]. now destruct (k _ s).
Qed.

Lemma rep_opt_take (A : Type) cs (k : cont A) prev c s r :
  cset_mem cs c = true -> k (Some c) s = Some r ->
  rep A cs 0 (Some 1) k prev (c :: s) = Some r.
Proof.
  intros Hc Hk. cbn [rep]. rewrite Hc. cbn [may_repeat andb option_map Nat.sub Nat.pred].
  pose proof (rep_exact A cs k s [] (Some c) eq_refl) as E.
  cbn [length app after_run fold_left] in E. rewrite E. now rewrite Hk.
Qed.

Lemma rep_opt_skip (A : Type) cs (k : cont A) prev s :
  match s with [] => True | d :: _ => cset_mem cs d = false end ->
  rep A cs 0 (Some 1) k prev s = k prev s.
Proof.
  intros Hs. destruct s as [|d s]; cbn [rep Nat.eqb]; [reflexivity|].
  now rewrite Hs.
Qed.

(** *** The written alphabets and the classes of the patterns *)

Lemma sid_char_token_colon c : sid_char c = true -> cset_mem token_colon c = true.
Proof. ascii_cases c; vm_compute; intros; first [reflexivity | discriminate]. Qed.

Lemma not_sid_char_token_colon c : sid_char c = false -> cset_mem token_colon c = false.
Proof. ascii_cases c; vm_compute; intros; first [reflexivity | discriminate]. Qed.

Lemma key_char_token c : key_char c = true -> cset_mem token c = true.
Proof. ascii_cases c; vm_compute; intros; first [reflexivity | discriminate]. Qed.

Lemma key_char_sid_char c : key_char c = true -> sid_char c = true.
Proof. ascii_cases c; vm_compute; intros; first [reflexivity | discriminate]. Qed.

Lemma plain_char_sid_char c : plain_char c = true -> sid_char c = true.
Proof. ascii_cases c; vm_compute; intros; first [reflexivity | discriminate]. Qed.

Lemma hex_char_hex c : hex_char c = true -> cset_mem hex c = true.
Proof. ascii_cases c; vm_compute; intros; first [reflexivity | discriminate]. Qed.

Lemma uuid_char_hex_dash c : uuid_char c = true -> cset_mem hex_dash c = true.
Proof. ascii_cases c; vm_compute; intros; first [reflexivity | discriminate]. Qed.

Lemma made_of_impl (P Q : ascii -> bool) s :
  (forall c, P c = true -> Q c = true) -> made_of P s -> made_of Q s.
Proof.
  unfold made_of. rewrite !forallb_forall. auto.
Qed.

Lemma made_of_in (P : ascii -> bool) s c : made_of P s -> In c s -> P c = true.
Proof. unfold made_of. rewrite forallb_forall. auto. Qed.

Lemma differs_in c s d :
  forallb (differs c) s = true -> In d s ->
  Ascii.eqb (lower_char c) (lower_char d) = false.
Proof.
  rewrite forallb_forall. intros H Hd. apply negb_true_iff. now apply H.
Qed.

Lemma outside_in cs s d :
  forallb (outside cs) s = true -> In d s -> cset_mem cs d = false.
Proof.
  rewrite forallb_forall. intros H Hd. apply negb_true_iff. now apply H.
Qed.

Lemma search_lacks_literal c p s :
  In (Chr c) (before p) -> forallb (differs c) s = true -> search p s = None.
Proof.
  intros Hin H. apply (search_from_no_literal c); [assumption|].
  intros d. now apply differs_in.
Qed.

Lemma search_from_lacks_literal c p s prev :
  In (Chr c) (before p) -> forallb (differs c) s = true -> search_from p prev s = None.
Proof.
  intros Hin H. apply (search_from_no_literal c); [assumption|].
  intros d. now apply differs_in.
Qed.

Lemma search_from_lacks_class cs lo hi p s prev :
  In (Rep cs lo hi) (before p) -> 1 <= lo -> forallb (outside cs) s = true ->
  search_from p prev s = None.
Proof.
  intros Hin Hlo H. apply (search_from_no_class cs lo hi); try assumption.
  intros d. now apply outside_in.
Qed.

Lemma search_from_skip_run p c rest u :
  before p = Chr c :: rest \/ before p = WordBoundary :: Chr c :: rest ->
  forallb (differs c) u = true ->
  forall prev s, search_from p prev (u ++ s) = search_from p (after_run u prev) s.
Proof.
  intros Hp Hu. apply (search_from_skip p c rest); [assumption|].
  intros d. now apply differs_in.
Qed.

Lemma forallb_impl (P Q : ascii -> bool) s :
  (forall c, P c = true -> Q c = true) -> forallb P s = true -> forallb Q s = true.
Proof. rewrite !forallb_forall. auto. Qed.

Lemma cset_mem_space c : cset_mem space c = isspace c.
Proof. unfold cset_mem, space. cbn. reflexivity. Qed.

Lemma blank_space ws : blank ws -> forallb (cset_mem space) ws = true.
Proof.
  unfold blank. apply (forallb_impl isspace (cset_mem space)).
  intros c Hc. rewrite cset_mem_space. exact Hc.
Qed.

(** A whitespace character is no character of a literal that is not
    whitespace itself. *)
Lemma space_differs c d : isspace c = false -> isspace d = true -> differs c d = true.
Proof.
  intros Hc Hd. unfold differs. apply negb_true_iff.
  destruct (Ascii.eqb (lower_char c) (lower_char d)) eqn:E; [|reflexivity].
  apply Ascii.eqb_eq in E. apply same_letter_isspace in E. congruence.
Qed.

Lemma blank_differs c ws : isspace c = false -> blank ws -> forallb (differs c) ws = true.
Proof.
  intros Hc. unfold blank. apply (forallb_impl isspace (differs c)).
  intros d. now apply space_differs.
Qed.

Ltac char_fact d :=
  ascii_cases d; vm_compute; intros; first [reflexivity | discriminate].

Lemma sid_char_visible d : sid_char d = true -> isspace d = false.
Proof. char_fact d. Qed.

Lemma sid_char_no_dquote d : sid_char d = true -> differs dquote d = true.
Proof. char_fact d. Qed.

Lemma sid_char_no_squote d : sid_char d = true -> differs squote d = true.
Proof. char_fact d. Qed.

Lemma sid_char_no_slash d : sid_char d = true -> differs "/"%char d = true.
Proof. char_fact d. Qed.

Lemma sid_char_outside_space d : sid_char d = true -> outside space d = true.
Proof. char_fact d. Qed.

Lemma key_char_outside_colon_eq d : key_char d = true -> outside colon_eq d = true.
Proof. char_fact d. Qed.

Lemma space_outside_colon_eq d : isspace d = true -> outside colon_eq d = true.
Proof. char_fact d. Qed.

Lemma space_outside_token_colon d : isspace d = true -> cset_mem token_colon d = false.
Proof. char_fact d. Qed.

Lemma space_outside_token d : isspace d = true -> cset_mem token d = false.
Proof. char_fact d. Qed.

Lemma made_strip id : made_of sid_char id -> strip id = id.
Proof.
  intros H. apply strip_nospace. unfold nospace.
  revert H. apply (forallb_impl sid_char (fun c => negb (isspace c))).
  intros c Hc. now rewrite (sid_char_visible c Hc).
Qed.

(** *** The quoted key *)

Section Quoted.

Variable q : ascii.
Hypothesis q_quote : q = dquote \/ q = squote.

Lemma quote_facts :
  cset_mem space q = false /\ cset_mem token_colon q = false
  /\ Ascii.eqb (lower_char q) (lower_char q) = true.
Proof. destruct q_quote as [-> | ->]; repeat split. Qed.

Lemma quoted_found ws1 ws2 id rest :
  blank ws1 -> blank ws2 -> id <> [] -> made_of sid_char id ->
  search (quoted_session_id q)
    ([q] ++ lit "session_id" ++ [q] ++ ws1 ++ lit ":" ++ ws2 ++ [q] ++ id ++ [q] ++ rest)
  = Some id.
Proof.
  intros H1 H2 Hne Hid. destruct quote_facts as (Hqs & Hqt & Hqq).
  apply search_from_here. unfold match_at, quoted_session_id, chars, star, plus.
  cbn [before group after].
  cbn [app match_items]. rewrite Hqq.
  rewrite match_items_chars. cbn [app match_items]. rewrite Hqq.
  apply rep_run with (u := ws1); [reflexivity | | now apply blank_space | simpl; lia].
  intros _. cbn [app match_items].
  change (Ascii.eqb (lower_char ":") (lower_char ":")) with true. cbv iota.
  apply rep_run with (u := ws2); [exact Hqs | | now apply blank_space | simpl; lia].
  intros _. cbn [app match_items]. rewrite Hqq.
  apply rep_run with (u := id); [exact Hqt | | |].
  - intros _. cbn [match_items]. rewrite Hqq.
    change ([q] ++ rest) with (q :: rest).
    apply (f_equal Some), (firstn_length_app id (q :: rest)).
  - revert Hid. apply (forallb_impl sid_char (cset_mem token_colon)), sid_char_token_colon.
  - destruct id; [congruence | simpl; lia].
Qed.

End Quoted.

(** *** Characters of the parts of a text *)

Ltac part :=
  match goal with
  | H : made_of ?P ?s |- forallb ?Q ?s = true =>
      apply (forallb_impl P Q s); [ let d := fresh "d" in intro d; char_fact d | exact H ]
  | H : blank ?s |- forallb ?Q ?s = true =>
      apply (forallb_impl isspace Q s); [ let d := fresh "d" in intro d; char_fact d | exact H ]
  | H : without ?cs ?s |- forallb ?Q ?s = true =>
      apply (forallb_impl (fun d => negb (existsb (Ascii.eqb d) cs)) Q s);
      [ let d := fresh "d" in intro d; char_fact d | exact H ]
  | |- _ = true => reflexivity
  end.

Ltac parts :=
  rewrite ?forallb_app; repeat (apply andb_true_intro; split); part.

Lemma extract_quoted_dquote ws1 ws2 id rest :
  blank ws1 -> blank ws2 -> id <> [] -> made_of sid_char id ->
  extract_session_id (quoted_text dquote ws1 ws2 id rest) = id.
Proof.
  intros H1 H2 Hne Hid. unfold extract_session_id, patterns, quoted_text.
  cbn [first_match].
  rewrite (quoted_found dquote (or_introl eq_refl)) by assumption.
  now apply made_strip.
Qed.

Lemma extract_quoted_squote ws1 ws2 id rest :
  blank ws1 -> blank ws2 -> id <> [] -> made_of sid_char id ->
  without [dquote] rest ->
  extract_session_id (quoted_text squote ws1 ws2 id rest) = id.
Proof.
  intros H1 H2 Hne Hid Hrest. unfold extract_session_id, patterns, quoted_text.
  cbn [first_match].
  rewrite (search_lacks_literal dquote (quoted_session_id dquote))
    by (try (now left); parts).
  rewrite (quoted_found squote (or_intror eq_refl)) by assumption.
  now apply made_strip.
Qed.

Lemma ends_id_token_colon rest :
  ends_id rest -> match rest with [] => True | d :: _ => cset_mem token_colon d = false end.
Proof. destruct rest as [|d rest]; [trivial|]. apply not_sid_char_token_colon. Qed.

Lemma head_outside (P : ascii -> bool) cs u s :
  (forall d, P d = true -> cset_mem cs d = false) ->
  u <> [] -> made_of P u ->
  match u ++ s with [] => True | d :: _ => cset_mem cs d = false end.
Proof.
  intros HP Hne Hu. destruct u as [|d u]; [congruence|]. simpl.
  apply HP. unfold made_of in Hu. simpl in Hu. now apply andb_prop in Hu.
Qed.

Lemma sid_char_not_space d : sid_char d = true -> cset_mem space d = false.
Proof. char_fact d. Qed.

Lemma key_char_not_space d : key_char d = true -> cset_mem space d = false.
Proof. char_fact d. Qed.

Lemma hex_char_not_space d : hex_char d = true -> cset_mem space d = false.
Proof. char_fact d. Qed.

Lemma made_of_token_colon id :
  made_of sid_char id -> forallb (cset_mem token_colon) id = true.
Proof. apply (forallb_impl sid_char (cset_mem token_colon)), sid_char_token_colon. Qed.

Lemma nonempty_length (u : str) : u <> [] -> 1 <= length u.
Proof. destruct u; [congruence | simpl; lia]. Qed.

(** *** The path *)

Lemma path_found pre id rest :
  without ["/"%char] pre -> id <> [] -> made_of sid_char id -> ends_id rest ->
  search sessions_path (path_text pre id rest) = Some id.
Proof.
  intros Hpre Hne Hid Hrest. unfold search, path_text.
  rewrite (search_from_skip_run sessions_path "/"%char (tl (before sessions_path)) pre
             (or_introl eq_refl)) by part.
  apply search_from_here. unfold match_at, sessions_path, chars, plus.
  cbn [before group after].
  rewrite <- (app_nil_r (map Chr (lit "/sessions/"))), match_items_chars.
  cbn [match_items].
  apply rep_run with (u := id).
  - now apply ends_id_token_colon.
  - intros _. apply (f_equal Some), (firstn_length_app id rest).
  - now apply made_of_token_colon.
  - now apply nonempty_length.
Qed.

Lemma extract_path pre id rest :
  without [dquote; squote; "/"%char] pre -> id <> [] -> made_of sid_char id ->
  ends_id rest -> without [dquote; squote] rest ->
  extract_session_id (path_text pre id rest) = id.
Proof.
  intros Hpre Hne Hid Hend Hrest. unfold extract_session_id, patterns.
  cbn [first_match].
  rewrite (search_lacks_literal dquote (quoted_session_id dquote))
    by (try (now left); unfold path_text; parts).
  rewrite (search_lacks_literal squote (quoted_session_id squote))
    by (try (now left); unfold path_text; parts).
  rewrite path_found; try assumption.
  - now apply made_strip.
  - revert Hpre. unfold without. apply forallb_impl. intro d. char_fact d.
Qed.

(** *** The resume directive of codex *)

Lemma codex_found ws1 ws2 id rest :
  ws1 <> [] -> blank ws1 -> ws2 <> [] -> blank ws2 ->
  id <> [] -> made_of sid_char id -> ends_id rest ->
  search codex_resume (codex_text ws1 ws2 id rest) = Some id.
Proof.
  intros N1 H1 N2 H2 Hne Hid Hrest. unfold search, codex_text.
  apply search_from_here. unfold match_at, codex_resume, chars, plus.
  cbn [before group after]. cbn [app match_items].
  change (xorb (word_before None) (word_after (lit "codex" ++ ws1 ++ lit "resume" ++ ws2 ++ id ++ rest)))
    with true. cbv iota.
  rewrite match_items_chars. cbn [app match_items].
  apply rep_run with (u := ws1);
    [reflexivity | | now apply blank_space | now apply nonempty_length].
  intros ?. rewrite match_items_chars. cbn [app match_items].
  apply rep_run with (u := ws2);
    [ apply (head_outside sid_char); auto using sid_char_not_space
    | | now apply blank_space | now apply nonempty_length].
  intros ?. cbn [match_items].
  apply rep_run with (u := id).
  - now apply ends_id_token_colon.
  - intros _. apply (f_equal Some), (firstn_length_app id rest).
  - now apply made_of_token_colon.
  - now apply nonempty_length.
Qed.

Lemma extract_codex ws1 ws2 id rest :
  ws1 <> [] -> blank ws1 -> ws2 <> [] -> blank ws2 ->
  id <> [] -> made_of sid_char id ->
  ends_id rest -> without [dquote; squote; "/"%char] rest ->
  extract_session_id (codex_text ws1 ws2 id rest) = id.
Proof.
  intros N1 H1 N2 H2 Hne Hid Hend Hrest. unfold extract_session_id, patterns.
  cbn [first_match].
  rewrite (search_lacks_literal dquote (quoted_session_id dquote))
    by (try (now left); unfold codex_text; parts).
  rewrite (search_lacks_literal squote (quoted_session_id squote))
    by (try (now left); unfold codex_text; parts).
  rewrite (search_lacks_literal "/"%char sessions_path)
    by (try (now left); unfold codex_text; parts).
  rewrite codex_found by assumption.
  now apply made_strip.
Qed.

Lemma rep_run_end (A : Type) cs (k : cont A) r :
  (forall prev, k prev [] = Some r) ->
  forall u lo prev,
    forallb (cset_mem cs) u = true -> lo <= length u ->
    rep A cs lo None k prev u = Some r.
Proof.
  intros Hk u lo prev Hu Hlo. rewrite <- (app_nil_r u) at 1.
  now apply rep_run.
Qed.

Lemma firstn_whole (s : str) : firstn (length s - length (@nil ascii)) s = s.
Proof. simpl. rewrite Nat.sub_0_r. apply firstn_all. Qed.

Ltac in_items := cbv; repeat (first [left; reflexivity | right]).

Ltac side text :=
  lazymatch goal with
  | |- In _ _ => in_items
  | |- _ => unfold text; parts
  end.

Ltac skip_run p c :=
  first
    [ rewrite (search_from_skip_run p c (tl (before p)) _ (or_introl eq_refl)) by part
    | rewrite (search_from_skip_run p c (tl (tl (before p))) _ (or_intror eq_refl)) by part ].

Ltac step := rewrite search_from_cons_none by (vm_compute; reflexivity).

(** *** The resume directive with a UUID *)

Lemma resume_found ws a b :
  ws <> [] -> blank ws ->
  length a = 8 -> made_of hex_char a -> 27 <= length b -> made_of uuid_char b ->
  search resume_uuid (resume_text ws (a ++ lit "-" ++ b)) = Some (a ++ lit "-" ++ b).
Proof.
  intros Nws Hws La Ha Lb Hb. unfold search, resume_text.
  apply search_from_here. unfold match_at, resume_uuid, chars, plus.
  cbn [before group after]. cbn [app match_items].
  change (xorb (word_before None) (word_after (lit "resume" ++ ws ++ a ++ lit "-" ++ b)))
    with true. cbv iota.
  rewrite match_items_chars. cbn [app match_items].
  apply rep_run with (u := ws);
    [ apply (head_outside hex_char); auto using hex_char_not_space;
      intros ->; discriminate
    | | now apply blank_space | now apply nonempty_length].
  intros p1.
  assert (Hhex : forallb (cset_mem hex) a = true)
    by (revert Ha; apply (forallb_impl hex_char (cset_mem hex)), hex_char_hex).
  match goal with
  | |- rep _ _ _ _ ?k _ _ = _ =>
      pose proof (rep_exact _ hex k (lit "-" ++ b) a p1 Hhex) as E
  end.
  rewrite La in E. rewrite E. clear E.
  cbn [app lit list_ascii_of_string match_items].
  change (Ascii.eqb (lower_char "-") (lower_char "-")) with true. cbv iota.
  apply rep_run_end.
  - intros _. apply (f_equal Some), firstn_whole.
  - revert Hb. apply (forallb_impl uuid_char (cset_mem hex_dash)), uuid_char_hex_dash.
  - exact Lb.
Qed.

Lemma extract_resume_directive ws a b :
  ws <> [] -> blank ws ->
  length a = 8 -> made_of hex_char a -> 27 <= length b -> made_of uuid_char b ->
  extract_session_id (resume_text ws (a ++ lit "-" ++ b)) = a ++ lit "-" ++ b.
Proof.
  intros Nws Hws La Ha Lb Hb. unfold extract_session_id, patterns.
  cbn [first_match].
  rewrite (search_lacks_literal dquote (quoted_session_id dquote))
    by side resume_text.
  rewrite (search_lacks_literal squote (quoted_session_id squote))
    by side resume_text.
  rewrite (search_lacks_literal "/"%char sessions_path)
    by side resume_text.
  rewrite (search_lacks_literal "o"%char codex_resume)
    by side resume_text.
  rewrite resume_found by assumption.
  apply strip_nospace. unfold nospace. parts.
Qed.

Lemma extract_resume_short id :
  made_of uuid_char id -> length id < 36 ->
  extract_session_id (resume_text (lit " ") id) = [].
Proof.
  intros Hid Hlen. unfold extract_session_id, patterns.
  cbn [first_match].
  rewrite (search_lacks_literal dquote (quoted_session_id dquote))
    by side resume_text.
  rewrite (search_lacks_literal squote (quoted_session_id squote))
    by side resume_text.
  rewrite (search_lacks_literal "/"%char sessions_path)
    by side resume_text.
  rewrite (search_lacks_literal "o"%char codex_resume)
    by side resume_text.
  assert (E : search resume_uuid (resume_text (lit " ") id) = None).
  { apply search_from_short. unfold resume_text. rewrite !length_app.
    unfold least. simpl. lia. }
  rewrite E.
  rewrite (search_lacks_literal "o"%char (key_value "session"))
    by side resume_text.
  rewrite (search_lacks_literal "o"%char (key_value "conversation"))
    by side resume_text.
  rewrite (search_lacks_literal "o"%char bare_session)
    by side resume_text.
  reflexivity.
Qed.

Lemma search_lacks_class cs lo hi p s :
  In (Rep cs lo hi) (before p) -> 1 <= lo -> forallb (outside cs) s = true ->
  search p s = None.
Proof. apply search_from_lacks_class. Qed.

(** *** The word [session] *)

Lemma session_found ws id :
  ws <> [] -> blank ws -> made_of sid_char id -> 8 <= length id ->
  search bare_session (session_text ws id) = Some id.
Proof.
  intros Nws Hws Hid Hlen. unfold search, session_text.
  apply search_from_here. unfold match_at, bare_session, chars, plus.
  cbn [before group after]. cbn [app match_items].
  change (xorb (word_before None) (word_after (lit "session" ++ ws ++ id)))
    with true. cbv iota.
  rewrite match_items_chars. cbn [app match_items].
  rewrite <- (app_nil_r id) at 1.
  apply rep_run with (u := ws);
    [ apply (head_outside sid_char); auto using sid_char_not_space;
      intros ->; simpl in Hlen; lia
    | | now apply blank_space | now apply nonempty_length].
  intros p1. rewrite app_nil_r. apply rep_run_end.
  - intros _. apply (f_equal Some), firstn_whole.
  - now apply made_of_token_colon.
  - exact Hlen.
Qed.

Lemma extract_session_word ws id :
  ws <> [] -> blank ws -> made_of key_char id -> 8 <= length id ->
  extract_session_id (session_text ws id) = id.
Proof.
  intros Nws Hws Hid Hlen.
  assert (Hid' : made_of sid_char id)
    by (revert Hid; apply made_of_impl, key_char_sid_char).
  unfold extract_session_id, patterns. cbn [first_match].
  rewrite (search_lacks_literal dquote (quoted_session_id dquote)) by side session_text.
  rewrite (search_lacks_literal squote (quoted_session_id squote)) by side session_text.
  rewrite (search_lacks_literal "/"%char sessions_path) by side session_text.
  assert (E4 : search codex_resume (session_text ws id) = None).
  { unfold search, session_text. do 2 skip_run codex_resume "c"%char.
    apply (search_from_lacks_class space 1 None); [in_items | lia | part]. }
  rewrite E4.
  assert (E5 : search resume_uuid (session_text ws id) = None).
  { unfold search, session_text. do 2 skip_run resume_uuid "r"%char.
    apply (search_from_lacks_class space 1 None); [in_items | lia | part]. }
  rewrite E5.
  rewrite (search_lacks_class colon_eq 1 (Some 1) (key_value "session"))
    by (try lia; side session_text).
  rewrite (search_lacks_class colon_eq 1 (Some 1) (key_value "conversation"))
    by (try lia; side session_text).
  rewrite session_found by assumption.
  now apply made_strip.
Qed.

Lemma extract_session_word_colon ws id :
  ws <> [] -> blank ws -> made_of plain_char id -> 8 <= length id ->
  extract_session_id (session_text ws id) = id.
Proof.
  intros Nws Hws Hid Hlen.
  assert (Hid' : made_of sid_char id)
    by (revert Hid; apply made_of_impl, plain_char_sid_char).
  unfold extract_session_id, patterns. cbn [first_match].
  rewrite (search_lacks_literal dquote (quoted_session_id dquote)) by side session_text.
  rewrite (search_lacks_literal squote (quoted_session_id squote)) by side session_text.
  rewrite (search_lacks_literal "/"%char sessions_path) by side session_text.
  rewrite (search_lacks_literal "c"%char codex_resume) by side session_text.
  rewrite (search_lacks_literal "r"%char resume_uuid) by side session_text.
  rewrite (search_lacks_literal "d"%char (key_value "session")) by side session_text.
  rewrite (search_lacks_literal "c"%char (key_value "conversation")) by side session_text.
  rewrite session_found by assumption.
  now apply made_strip.
Qed.

Lemma extract_session_word_short id :
  made_of key_char id -> length id < 8 ->
  extract_session_id (session_text (lit " ") id) = [].
Proof.
  intros Hid Hlen.
  unfold extract_session_id, patterns. cbn [first_match].
  rewrite (search_lacks_literal dquote (quoted_session_id dquote)) by side session_text.
  rewrite (search_lacks_literal squote (quoted_session_id squote)) by side session_text.
  rewrite (search_lacks_literal "/"%char sessions_path) by side session_text.
  assert (E4 : search codex_resume (session_text (lit " ") id) = None).
  { unfold search, session_text. do 2 skip_run codex_resume "c"%char.
    apply (search_from_lacks_class space 1 None); [in_items | lia | part]. }
  rewrite E4.
  assert (E5 : search resume_uuid (session_text (lit " ") id) = None).
  { unfold search, session_text. do 2 skip_run resume_uuid "r"%char.
    apply (search_from_lacks_class space 1 None); [in_items | lia | part]. }
  rewrite E5.
  rewrite (search_lacks_class colon_eq 1 (Some 1) (key_value "session"))
    by (try lia; side session_text).
  rewrite (search_lacks_class colon_eq 1 (Some 1) (key_value "conversation"))
    by (try lia; side session_text).
  assert (E8 : search bare_session (session_text (lit " ") id) = None).
  { apply search_from_short. unfold session_text. rewrite !length_app.
    unfold least. simpl. lia. }
  rewrite E8. reflexivity.
Qed.

Lemma joiner_char_joiner c : joiner_char c = true -> cset_mem joiner c = true.
Proof. char_fact c. Qed.

Lemma key_char_nospace id : made_of key_char id -> strip id = id.
Proof.
  intros H. apply made_strip. revert H. apply made_of_impl, key_char_sid_char.
Qed.

(** *** A key and a value *)

Lemma key_found key j ws1 sep ws2 id :
  joins j -> blank ws1 -> sep = ":"%char \/ sep = "="%char -> blank ws2 ->
  id <> [] -> made_of key_char id ->
  search (key_value key) (key_text key j ws1 sep ws2 id) = Some id.
Proof.
  intros [Hj Lj] H1 Hsep H2 Hne Hid. unfold search, key_text.
  apply search_from_here. unfold match_at, key_value, chars, opt, star, one, plus.
  cbn [before group after].
  rewrite match_items_chars. cbn [app match_items].
  assert (Hrest : forall p0,
    match_items str
      (map Chr (lit "id") ++ [Rep space 0 None; Rep colon_eq 1 (Some 1); Rep space 0 None])
      (fun (p1 : option ascii) (s1 : str) =>
         match_items str [Rep token 1 None]
           (fun (p2 : option ascii) (s2 : str) =>
              match_items str [] (fun _ _ => Some (firstn (length s1 - length s2) s1)) p2 s2)
           p1 s1)
      p0 (lit "id" ++ ws1 ++ [sep] ++ ws2 ++ id) = Some id).
  { intros p0. rewrite match_items_chars. cbn [app match_items].
    apply rep_run with (u := ws1);
      [ destruct Hsep as [-> | ->]; reflexivity
      | | now apply blank_space | simpl; lia].
    intros p1.
    assert (Hs : forallb (cset_mem colon_eq) [sep] = true)
      by (destruct Hsep as [-> | ->]; reflexivity).
    refine (eq_trans (rep_exact _ colon_eq _ (ws2 ++ id) [sep] p1 Hs) _).
    rewrite <- (app_nil_r id) at 1.
    apply rep_run with (u := ws2);
      [ apply (head_outside key_char); auto using key_char_not_space
      | | now apply blank_space | simpl; lia].
    intros p2. rewrite app_nil_r. apply rep_run_end.
    - intros _. apply (f_equal Some), firstn_whole.
    - revert Hid. apply (forallb_impl key_char (cset_mem token)), key_char_token.
    - now apply nonempty_length. }
  destruct j as [|c [|c' j]].
  - rewrite rep_opt_skip by reflexivity. apply Hrest.
  - apply rep_opt_take; [|apply Hrest].
    apply joiner_char_joiner. unfold made_of in Hj. simpl in Hj.
    now apply andb_prop in Hj.
  - simpl in Lj. lia.
Qed.

Ltac sep_cases Hsep := destruct Hsep as [-> | ->].

Lemma extract_session_key j ws1 sep ws2 id :
  joins j -> blank ws1 -> sep = ":"%char \/ sep = "="%char -> blank ws2 ->
  id <> [] -> made_of key_char id ->
  extract_session_id (key_text "session" j ws1 sep ws2 id) = id.
Proof.
  intros Hj H1 Hsep H2 Hne Hid.
  unfold extract_session_id, patterns. cbn [first_match].
  rewrite key_found by assumption.
  destruct Hj as [Hj Lj].
  assert (E : search (quoted_session_id dquote) (key_text "session" j ws1 sep ws2 id) = None
              /\ search (quoted_session_id squote) (key_text "session" j ws1 sep ws2 id) = None
              /\ search sessions_path (key_text "session" j ws1 sep ws2 id) = None
              /\ search codex_resume (key_text "session" j ws1 sep ws2 id) = None
              /\ search resume_uuid (key_text "session" j ws1 sep ws2 id) = None).
  { sep_cases Hsep; (split; [|split; [|split; [|split]]]).
    all: first
      [ solve [apply (search_lacks_literal dquote (quoted_session_id dquote));
               side key_text]
      | solve [apply (search_lacks_literal squote (quoted_session_id squote));
               side key_text]
      | solve [apply (search_lacks_literal "/"%char sessions_path); side key_text]
      | solve [unfold search, key_text; do 6 skip_run codex_resume "c"%char;
               apply (search_from_lacks_class space 1 None); [in_items | lia | part]]
      | solve [unfold search, key_text; do 6 skip_run resume_uuid "r"%char;
               apply (search_from_lacks_class space 1 None); [in_items | lia | part]] ]. }
  destruct E as (-> & -> & -> & -> & ->).
  now apply key_char_nospace.
Qed.

Ltac side0 :=
  lazymatch goal with
  | |- In _ _ => in_items
  | |- _ <= _ => lia
  | |- _ => parts
  end.

Lemma extract_conversation_key j ws1 sep ws2 id :
  joins j -> blank ws1 -> sep = ":"%char \/ sep = "="%char -> blank ws2 ->
  id <> [] -> made_of key_char id ->
  extract_session_id (key_text "conversation" j ws1 sep ws2 id) = id.
Proof.
  intros Hj H1 Hsep H2 Hne Hid.
  unfold extract_session_id, patterns. cbn [first_match].
  rewrite key_found by assumption.
  destruct Hj as [Hj Lj].
  assert (E : search (quoted_session_id dquote) (key_text "conversation" j ws1 sep ws2 id) = None
              /\ search (quoted_session_id squote) (key_text "conversation" j ws1 sep ws2 id) = None
              /\ search sessions_path (key_text "conversation" j ws1 sep ws2 id) = None
              /\ search codex_resume (key_text "conversation" j ws1 sep ws2 id) = None
              /\ search resume_uuid (key_text "conversation" j ws1 sep ws2 id) = None
              /\ search (key_value "session") (key_text "conversation" j ws1 sep ws2 id) = None).
  { sep_cases Hsep; (split; [|split; [|split; [|split; [|split]]]]).
    all: first
      [ solve [apply (search_lacks_literal dquote (quoted_session_id dquote));
               side key_text]
      | solve [apply (search_lacks_literal squote (quoted_session_id squote));
               side key_text]
      | solve [apply (search_lacks_literal "/"%char sessions_path); side key_text]
      | solve [unfold search, key_text;
               change (lit "conversation") with ("c"%char :: lit "onversation");
               rewrite <- app_comm_cons; step;
               do 6 skip_run codex_resume "c"%char;
               apply (search_from_lacks_class space 1 None); [in_items | lia | part]]
      | solve [unfold search, key_text;
               change (lit "conversation") with (lit "conve" ++ "r"%char :: lit "sation");
               rewrite <- app_assoc; skip_run resume_uuid "r"%char;
               rewrite <- app_comm_cons; step;
               do 6 skip_run resume_uuid "r"%char;
               apply (search_from_lacks_class space 1 None); [in_items | lia | part]]
      | solve [unfold search, key_text;
               change (lit "conversation") with (lit "conver" ++ "s"%char :: lit "ation");
               rewrite <- app_assoc; skip_run (key_value "session") "s"%char;
               rewrite <- app_comm_cons; step;
               do 6 skip_run (key_value "session") "s"%char;
               apply (search_from_lacks_class colon_eq 1 (Some 1)); [in_items | lia | part]] ]. }
  destruct E as (-> & -> & -> & -> & -> & ->).
  now apply key_char_nospace.
Qed.

(** Without the colon or the equals sign the key introduces nothing. *)
Lemma extract_key_without_separator id :
  made_of key_char id -> extract_session_id (lit "session_id " ++ id) = [].
Proof.
  intros Hid.
  unfold extract_session_id, patterns. cbn [first_match].
  rewrite (search_lacks_literal dquote (quoted_session_id dquote)) by side0.
  rewrite (search_lacks_literal squote (quoted_session_id squote)) by side0.
  rewrite (search_lacks_literal "/"%char sessions_path) by side0.
  assert (E4 : search codex_resume (lit "session_id " ++ id) = None).
  { unfold search. skip_run codex_resume "c"%char.
    apply (search_from_lacks_class space 1 None); [in_items | lia | part]. }
  rewrite E4.
  assert (E5 : search resume_uuid (lit "session_id " ++ id) = None).
  { unfold search. skip_run resume_uuid "r"%char.
    apply (search_from_lacks_class space 1 None); [in_items | lia | part]. }
  rewrite E5.
  rewrite (search_lacks_class colon_eq 1 (Some 1) (key_value "session"))
    by side0.
  rewrite (search_lacks_class colon_eq 1 (Some 1) (key_value "conversation"))
    by side0.
  assert (E8 : search bare_session (lit "session_id " ++ id) = None).
  { unfold search. cbn [lit list_ascii_of_string app]. do 11 step.
    apply (search_from_lacks_class space 1 None); [in_items | lia | part]. }
  rewrite E8. reflexivity.
Qed.

Lemma app_suffix_in (a b u t : str) :
  a ++ b = u ++ t -> length a <= length u -> forall d, In d t -> In d b.
Proof.
  revert u. induction a as [|x a IH]; intros u E L d Hd.
  - simpl in E. subst b. apply in_or_app. now right.
  - destruct u as [|y u]; [simpl in L; lia|].
    simpl in E. injection E as _ E. simpl in L. apply (IH u E); [lia | assumption].
Qed.

(** A pattern that ends in a literal does not match where the text holds
    that literal only among the characters that the part before the end
    needs. *)
Lemma match_at_closing c p a b prev :
  In (Chr c) (after p) ->
  length a <= min_len (before p) + min_len (group p) ->
  forallb (differs c) b = true ->
  match_at p prev (a ++ b) = None.
Proof.
  intros Hin La Hb. destruct (match_at p prev (a ++ b)) as [cap|] eqn:E; [|reflexivity].
  exfalso. unfold match_at in E.
  apply (match_items_sound _ (fun _ => true)) in E
    as (u0 & s1 & p1 & E0 & E & _ & L0);
    [|apply Forall_forall; intros; apply item_within_any].
  apply (match_items_sound _ (fun _ => true)) in E
    as (u1 & s2 & p2 & E1 & E & _ & L1);
    [|apply Forall_forall; intros; apply item_within_any].
  apply (match_items_literal _ c) in E as (d & Hd & Ed); [|assumption].
  subst s1. rewrite app_assoc in E0.
  assert (Hdb : In d b).
  { apply (app_suffix_in a b (u0 ++ u1) s2 E0); [rewrite length_app; lia | assumption]. }
  rewrite (differs_in c b d Hb Hdb) in Ed. discriminate.
Qed.

(** *** The quoted key without the closing quote *)

Lemma unclosed_text_cons q id :
  unclosed_text q id
  = (q :: lit "session_id" ++ [q; ":"%char; q]) ++ id.
Proof. unfold unclosed_text. cbn [lit list_ascii_of_string app]. reflexivity. Qed.

Lemma extract_unclosed_dquote id :
  made_of key_char id -> extract_session_id (unclosed_text dquote id) = [].
Proof.
  intros Hid.
  unfold extract_session_id, patterns. cbn [first_match].
  assert (E1 : search (quoted_session_id dquote) (unclosed_text dquote id) = None).
  { unfold search. rewrite unclosed_text_cons.
    cbn [lit list_ascii_of_string app].
    rewrite search_from_cons_none
      by (apply (match_at_closing dquote (quoted_session_id dquote)
                   (dquote :: lit "session_id" ++ [dquote; ":"%char; dquote]) id);
          [in_items | simpl; lia | part]).
    do 12 step.
    apply (search_from_lacks_literal ":"%char _ ([dquote] ++ id)); [in_items | parts]. }
  rewrite E1.
  rewrite (search_lacks_literal squote (quoted_session_id squote)) by side unclosed_text.
  rewrite (search_lacks_literal "/"%char sessions_path) by side unclosed_text.
  rewrite (search_lacks_class space 1 None codex_resume)
    by (try lia; side unclosed_text).
  rewrite (search_lacks_class space 1 None resume_uuid)
    by (try lia; side unclosed_text).
  assert (E6 : search (key_value "session") (unclosed_text dquote id) = None).
  { unfold search. rewrite unclosed_text_cons.
    cbn [lit list_ascii_of_string app]. do 14 step.
    apply (search_from_lacks_class colon_eq 1 (Some 1)); [in_items | lia | part]. }
  rewrite E6.
  assert (E7 : search (key_value "conversation") (unclosed_text dquote id) = None).
  { unfold search. rewrite unclosed_text_cons.
    skip_run (key_value "conversation") "c"%char.
    apply (search_from_lacks_class colon_eq 1 (Some 1)); [in_items | lia | part]. }
  rewrite E7.
  rewrite (search_lacks_class space 1 None bare_session)
    by (try lia; side unclosed_text).
  reflexivity.
Qed.

Lemma extract_unclosed_squote id :
  made_of key_char id -> extract_session_id (unclosed_text squote id) = [].
Proof.
  intros Hid.
  unfold extract_session_id, patterns. cbn [first_match].
  rewrite (search_lacks_literal dquote (quoted_session_id dquote)) by side unclosed_text.
  assert (E2 : search (quoted_session_id squote) (unclosed_text squote id) = None).
  { unfold search. rewrite unclosed_text_cons.
    cbn [lit list_ascii_of_string app].
    rewrite search_from_cons_none
      by (apply (match_at_closing squote (quoted_session_id squote)
                   (squote :: lit "session_id" ++ [squote; ":"%char; squote]) id);
          [in_items | simpl; lia | part]).
    do 12 step.
    apply (search_from_lacks_literal ":"%char _ ([squote] ++ id)); [in_items | parts]. }
  rewrite E2.
  rewrite (search_lacks_literal "/"%char sessions_path) by side unclosed_text.
  rewrite (search_lacks_class space 1 None codex_resume)
    by (try lia; side unclosed_text).
  rewrite (search_lacks_class space 1 None resume_uuid)
    by (try lia; side unclosed_text).
  assert (E6 : search (key_value "session") (unclosed_text squote id) = None).
  { unfold search. rewrite unclosed_text_cons.
    cbn [lit list_ascii_of_string app]. do 14 step.
    apply (search_from_lacks_class colon_eq 1 (Some 1)); [in_items | lia | part]. }
  rewrite E6.
  assert (E7 : search (key_value "conversation") (unclosed_text squote id) = None).
  { unfold search. rewrite unclosed_text_cons.
    skip_run (key_value "conversation") "c"%char.
    apply (search_from_lacks_class colon_eq 1 (Some 1)); [in_items | lia | part]. }
  rewrite E7.
  rewrite (search_lacks_class space 1 None bare_session)
    by (try lia; side unclosed_text).
  reflexivity.
Qed.

(** *** The boundaries of words and the whitespace that the patterns need *)

Lemma extract_codex_inside_word id :
  made_of key_char id -> length id < 36 ->
  extract_session_id (lit "xcodex resume " ++ id) = [].
Proof.
  intros Hid Hlen.
  unfold extract_session_id, patterns. cbn [first_match].
  rewrite (search_lacks_literal dquote (quoted_session_id dquote)) by side0.
  rewrite (search_lacks_literal squote (quoted_session_id squote)) by side0.
  rewrite (search_lacks_literal "/"%char sessions_path) by side0.
  assert (E4 : search codex_resume (lit "xcodex resume " ++ id) = None).
  { unfold search. cbn [lit list_ascii_of_string app]. do 14 step.
    apply (search_from_lacks_class space 1 None); [in_items | lia | part]. }
  rewrite E4.
  assert (E5 : search resume_uuid (lit "xcodex resume " ++ id) = None).
  { unfold search. cbn [lit list_ascii_of_string app]. do 7 step.
    apply search_from_short. unfold least. cbn [length]. simpl. lia. }
  rewrite E5.
  rewrite (search_lacks_class colon_eq 1 (Some 1) (key_value "session")) by side0.
  rewrite (search_lacks_class colon_eq 1 (Some 1) (key_value "conversation")) by side0.
  assert (E8 : search bare_session (lit "xcodex resume " ++ id) = None).
  { unfold search. cbn [lit list_ascii_of_string app]. do 14 step.
    apply (search_from_lacks_class space 1 None); [in_items | lia | part]. }
  rewrite E8. reflexivity.
Qed.

Lemma extract_codex_without_space id :
  made_of key_char id ->
  extract_session_id (lit "codexresume " ++ id) = [].
Proof.
  intros Hid.
  unfold extract_session_id, patterns. cbn [first_match].
  rewrite (search_lacks_literal dquote (quoted_session_id dquote)) by side0.
  rewrite (search_lacks_literal squote (quoted_session_id squote)) by side0.
  rewrite (search_lacks_literal "/"%char sessions_path) by side0.
  assert (E4 : search codex_resume (lit "codexresume " ++ id) = None).
  { unfold search. cbn [lit list_ascii_of_string app]. do 12 step.
    apply (search_from_lacks_class space 1 None); [in_items | lia | part]. }
  rewrite E4.
  assert (E5 : search resume_uuid (lit "codexresume " ++ id) = None).
  { unfold search. cbn [lit list_ascii_of_string app]. do 12 step.
    apply (search_from_lacks_class space 1 None); [in_items | lia | part]. }
  rewrite E5.
  rewrite (search_lacks_class colon_eq 1 (Some 1) (key_value "session")) by side0.
  rewrite (search_lacks_class colon_eq 1 (Some 1) (key_value "conversation")) by side0.
  assert (E8 : search bare_session (lit "codexresume " ++ id) = None).
  { unfold search. cbn [lit list_ascii_of_string app]. do 12 step.
    apply (search_from_lacks_class space 1 None); [in_items | lia | part]. }
  rewrite E8. reflexivity.
Qed.

Lemma extract_resume_inside_word id :
  made_of uuid_char id ->
  extract_session_id (lit "xresume " ++ id) = [].
Proof.
  intros Hid.
  unfold extract_session_id, patterns. cbn [first_match].
  rewrite (search_lacks_literal dquote (quoted_session_id dquote)) by side0.
  rewrite (search_lacks_literal squote (quoted_session_id squote)) by side0.
  rewrite (search_lacks_literal "/"%char sessions_path) by side0.
  rewrite (search_lacks_literal "o"%char codex_resume) by side0.
  assert (E5 : search resume_uuid (lit "xresume " ++ id) = None).
  { unfold search. cbn [lit list_ascii_of_string app]. do 8 step.
    apply (search_from_lacks_literal "r"%char); [in_items | part]. }
  rewrite E5.
  rewrite (search_lacks_literal "o"%char (key_value "session")) by side0.
  rewrite (search_lacks_literal "o"%char (key_value "conversation")) by side0.
  rewrite (search_lacks_literal "o"%char bare_session) by side0.
  reflexivity.
Qed.

Lemma extract_resume_without_space id :
  made_of uuid_char id ->
  extract_session_id (lit "resume" ++ id) = [].
Proof.
  intros Hid.
  unfold extract_session_id, patterns. cbn [first_match].
  rewrite (search_lacks_literal dquote (quoted_session_id dquote)) by side0.
  rewrite (search_lacks_literal squote (quoted_session_id squote)) by side0.
  rewrite (search_lacks_literal "/"%char sessions_path) by side0.
  rewrite (search_lacks_literal "o"%char codex_resume) by side0.
  rewrite (search_lacks_class space 1 None resume_uuid) by side0.
  rewrite (search_lacks_literal "o"%char (key_value "session")) by side0.
  rewrite (search_lacks_literal "o"%char (key_value "conversation")) by side0.
  rewrite (search_lacks_literal "o"%char bare_session) by side0.
  reflexivity.
Qed.

Lemma extract_session_inside_word id :
  made_of key_char id ->
  extract_session_id (lit "xsession " ++ id) = [].
Proof.
  intros Hid.
  unfold extract_session_id, patterns. cbn [first_match].
  rewrite (search_lacks_literal dquote (quoted_session_id dquote)) by side0.
  rewrite (search_lacks_literal squote (quoted_session_id squote)) by side0.
  rewrite (search_lacks_literal "/"%char sessions_path) by side0.
  assert (E4 : search codex_resume (lit "xsession " ++ id) = None).
  { unfold search. skip_run codex_resume "c"%char.
    apply (search_from_lacks_class space 1 None); [in_items | lia | part]. }
  rewrite E4.
  assert (E5 : search resume_uuid (lit "xsession " ++ id) = None).
  { unfold search. skip_run resume_uuid "r"%char.
    apply (search_from_lacks_class space 1 None); [in_items | lia | part]. }
  rewrite E5.
  rewrite (search_lacks_class colon_eq 1 (Some 1) (key_value "session")) by side0.
  rewrite (search_lacks_class colon_eq 1 (Some 1) (key_value "conversation")) by side0.
  assert (E8 : search bare_session (lit "xsession " ++ id) = None).
  { unfold search. cbn [lit list_ascii_of_string app]. do 9 step.
    apply (search_from_lacks_class space 1 None); [in_items | lia | part]. }
  rewrite E8. reflexivity.
Qed.

Lemma extract_session_without_space id :
  made_of key_char id ->
  extract_session_id (lit "session" ++ id) = [].
Proof.
  intros Hid.
  unfold extract_session_id, patterns. cbn [first_match].
  rewrite (search_lacks_literal dquote (quoted_session_id dquote)) by side0.
  rewrite (search_lacks_literal squote (quoted_session_id squote)) by side0.
  rewrite (search_lacks_literal "/"%char sessions_path) by side0.
  rewrite (search_lacks_class space 1 None codex_resume) by side0.
  rewrite (search_lacks_class space 1 None resume_uuid) by side0.
  rewrite (search_lacks_class colon_eq 1 (Some 1) (key_value "session")) by side0.
  rewrite (search_lacks_class colon_eq 1 (Some 1) (key_value "conversation")) by side0.
  rewrite (search_lacks_class space 1 None bare_session) by side0.
  reflexivity.
Qed.


(** C8, amended: the eight patterns in their order of priority, the fourth
    being a [codex resume <id>] directive; the first pattern that is found
    in the output gives the result, which is the text of its group
    (stripping does not change it, and it is never empty); the result is
    empty exactly when no pattern is found; outputs that differ in the case
    of their letters give ids that differ in the case of their letters
    only.  Then the families, one by one, each with the texts it takes and
    the id it gives, and the texts next to a family that give nothing: the
    quoted key, with double and with single quotes, any whitespace around
    the colon and anything behind the closing quote, and nothing without
    the closing quote; the path; the resume directive of codex; the bare
    resume directive, which needs eight hexadecimal digits, a hyphen and 27
    more; a key [session] or [conversation], joined to [id] by nothing or
    one character, with a colon or an equals sign, and nothing without
    them; the word [session] before an id of eight characters at least;
    and nothing where the word of a directive stands inside a longer word
    or the whitespace behind it is missing. *)
Theorem extract_session_id_spec (output : str) :
  patterns = [ quoted_session_id dquote; quoted_session_id squote;
               sessions_path; codex_resume; resume_uuid;
               key_value "session"; key_value "conversation"; bare_session ]
  /\ (forall earlier p later cap,
        patterns = earlier ++ p :: later ->
        Forall (fun q => search q output = None) earlier ->
        search p output = Some cap ->
        extract_session_id output = strip cap /\ strip cap = cap /\ cap <> [])
  /\ (extract_session_id output = [] <->
      Forall (fun q => search q output = None) patterns)
  /\ (forall other,
        lower other = lower output ->
        lower (extract_session_id other) = lower (extract_session_id output))
  /\ (forall ws1 ws2 id rest,
        blank ws1 -> blank ws2 -> id <> [] -> made_of sid_char id ->
        extract_session_id (quoted_text dquote ws1 ws2 id rest) = id)
  /\ (forall ws1 ws2 id rest,
        blank ws1 -> blank ws2 -> id <> [] -> made_of sid_char id ->
        without [dquote] rest ->
        extract_session_id (quoted_text squote ws1 ws2 id rest) = id)
  /\ (forall id,
        made_of key_char id ->
        extract_session_id (unclosed_text dquote id) = []
        /\ extract_session_id (unclosed_text squote id) = [])
  /\ (forall pre id rest,
        without [dquote; squote; "/"%char] pre ->
        id <> [] -> made_of sid_char id ->
        ends_id rest -> without [dquote; squote] rest ->
        extract_session_id (path_text pre id rest) = id)
  /\ (forall ws1 ws2 id rest,
        ws1 <> [] -> blank ws1 -> ws2 <> [] -> blank ws2 ->
        id <> [] -> made_of sid_char id ->
        ends_id rest -> without [dquote; squote; "/"%char] rest ->
        extract_session_id (codex_text ws1 ws2 id rest) = id)
  /\ (forall id,
        id <> [] -> forallb (cset_mem token_colon) id = true ->
        extract_session_id (lit "codex resume " ++ id) = id)
  /\ (forall ws a b,
        ws <> [] -> blank ws ->
        length a = 8 -> made_of hex_char a ->
        27 <= length b -> made_of uuid_char b ->
        extract_session_id (resume_text ws (a ++ lit "-" ++ b)) = a ++ lit "-" ++ b)
  /\ (forall id,
        made_of uuid_char id -> length id < 36 ->
        extract_session_id (resume_text (lit " ") id) = [])
  /\ (forall key j ws1 sep ws2 id,
        key = "session"%string \/ key = "conversation"%string ->
        joins j -> blank ws1 -> sep = ":"%char \/ sep = "="%char -> blank ws2 ->
        id <> [] -> made_of key_char id ->
        extract_session_id (key_text key j ws1 sep ws2 id) = id)
  /\ (forall id,
        made_of key_char id ->
        extract_session_id (lit "session_id " ++ id) = [])
  /\ (forall ws id,
        ws <> [] -> blank ws ->
        made_of key_char id \/ made_of plain_char id -> 8 <= length id ->
        extract_session_id (session_text ws id) = id)
  /\ (forall id,
        made_of key_char id -> length id < 8 ->
        extract_session_id (session_text (lit " ") id) = [])
  /\ (forall id,
        made_of key_char id ->
        (length id < 36 -> extract_session_id (lit "xcodex resume " ++ id) = [])
        /\ extract_session_id (lit "codexresume " ++ id) = []
        /\ extract_session_id (lit "xsession " ++ id) = []
        /\ extract_session_id (lit "session" ++ id) = [])
  /\ (forall id,
        made_of uuid_char id ->
        extract_session_id (lit "xresume " ++ id) = []
        /\ extract_session_id (lit "resume" ++ id) = []).
Proof.
  split; [reflexivity|].
  split.
  { intros earlier p later cap Hps Hq Hp.
    assert (Hin : In p patterns) by (rewrite Hps; apply in_elt).
    pose proof (proj1 (Forall_forall _ _) patterns_group_visible p Hin) as Hg.
    destruct (search_capture p output cap Hg Hp) as [Hne Hs].
    split; [|split; assumption].
    unfold extract_session_id. eapply first_match_first; eauto. }
  split.
  { split.
    - apply first_match_empty, patterns_group_visible.
    - apply first_match_none. }
  split; [intros other; apply extract_session_id_case|].
  split; [apply extract_quoted_dquote|].
  split; [apply extract_quoted_squote|].
  split.
  { intros id Hid. split;
      [now apply extract_unclosed_dquote | now apply extract_unclosed_squote]. }
  split; [apply extract_path|].
  split; [apply extract_codex|].
  split; [apply extract_codex_resume_any|].
  split; [apply extract_resume_directive|].
  split; [apply extract_resume_short|].
  split.
  { intros key j ws1 sep ws2 id [-> | ->];
      [apply extract_session_key | apply extract_conversation_key]. }
  split; [apply extract_key_without_separator|].
  split.
  { intros ws id Nws Hws [Hid | Hid] Hlen;
      [now apply extract_session_word | now apply extract_session_word_colon]. }
  split; [apply extract_session_word_short|].
  split.
  { intros id Hid. split; [now apply extract_codex_inside_word|].
    split; [now apply extract_codex_without_space|].
    split; [now apply extract_session_inside_word
           | now apply extract_session_without_space]. }
  intros id Hid. split;
    [now apply extract_resume_inside_word | now apply extract_resume_without_space].
Qed.

(** ** The execution engine: running the invocation *)

Import Runtime Scenarios.

Section EngineFacts.

Context {World : Type} (env : Env World).

Lemma run_with_tty_trace self built session_id pre (st : state World) :
  trace (snd (_run_with_tty env self built session_id pre st))
  = trace st ++ [EvTty built].
Proof.
  unfold _run_with_tty, bind, log, call, gets, ret, raise. simpl.
  destruct (subprocess_run env built (timeout_seconds self) (world st)) as [[rc| |] w];
    simpl; try reflexivity.
  destruct (truthy (_pick_session_id pre (latest_codex_session_id env w) session_id));
    reflexivity.
Qed.

Lemma run_trace self command prompt session_id (st : state World) :
  trace (snd (ExecutionAgent.run env self command prompt session_id st))
  = trace st ++ run_events env self command prompt session_id st.
Proof.
  unfold ExecutionAgent.run, run_events.
  set (built := _build_command self command prompt session_id).
  unfold bind at 1. unfold log at 1. cbv iota beta.
  unfold bind at 1. unfold gets at 1. cbv iota beta.
  cbn [world sheet trace].
  destruct (_command_prefers_tty built).
  - rewrite run_with_tty_trace. cbn [trace]. now rewrite <- app_assoc.
  - unfold bind at 1, catch_timeout, run_captured.
    unfold bind at 1, _run_streaming.
    unfold bind at 1. unfold log at 1. cbv iota beta.
    unfold bind at 1, call. cbn [world sheet trace].
    destruct (popen_streaming env built (timeout_seconds self) (world st))
      as [[lines rc|lines|] w]; cbn [fst].
    + unfold ret at 1. cbv iota beta.
      destruct (_requires_tty_fallback rc (buffered_output lines)).
      * unfold bind at 1.
        match goal with
        | |- context [_run_with_tty env self built session_id ?pre ?s] =>
            pose proof (run_with_tty_trace self built session_id pre s) as Ht;
            destruct (_run_with_tty env self built session_id pre s) as [[r|e] s'] eqn:E
        end; cbn [snd trace] in Ht.
        -- unfold ret. cbn. rewrite Ht. now rewrite <- !app_assoc.
        -- destruct e; cbn; rewrite Ht; now rewrite <- !app_assoc.
      * unfold bind at 1, gets at 1. cbv iota beta. cbn [world sheet trace].
        match goal with
        | |- context [if truthy ?x then gets _ else ret _] => destruct (truthy x)
        end; unfold bind, gets, ret; cbn; now rewrite <- !app_assoc.
    + unfold raise. cbn. now rewrite <- !app_assoc.
    + unfold raise. cbn. now rewrite <- !app_assoc.
Qed.

Lemma run_timeout_result self command prompt session_id (st : state World) lines w :
  _command_prefers_tty (_build_command self command prompt session_id) = false ->
  popen_streaming env (_build_command self command prompt session_id)
    (timeout_seconds self) (world st) = (StreamTimedOut lines, w) ->
  fst (ExecutionAgent.run env self command prompt session_id st)
  = Ok {| status := lit "Blocked";
          thoughts := lit "Command timed out. Marked as Blocked.";
          session_id := session_id;
          return_code := 124 |}.
Proof.
  intros Hmode Hproc. unfold ExecutionAgent.run.
  unfold bind at 1. unfold log at 1. cbv iota beta.
  unfold bind at 1. unfold gets at 1. cbv iota beta.
  cbn [world sheet trace]. rewrite Hmode.
  unfold bind at 1, catch_timeout, run_captured.
  unfold bind at 1, _run_streaming.
  unfold bind at 1. unfold log at 1. cbv iota beta.
  unfold bind at 1, call. cbn [world sheet trace]. rewrite Hproc.
  reflexivity.
Qed.

End EngineFacts.

Lemma requires_tty_fallback_spec return_code output :
  _requires_tty_fallback return_code output = true <->
  return_code <> 0%Z
  /\ (occurs (lit "not a terminal") (lower output)
      \/ occurs (lit "not a tty") (lower output)).
Proof.
  unfold _requires_tty_fallback.
  destruct (Z.eqb_spec return_code 0) as [->|Hrc].
  - split; [discriminate | intros [H _]; congruence].
  - cbv zeta. cbn [existsb]. rewrite orb_false_r, !orb_true_iff, !contains_spec.
    assert (T1 : occurs (lit "not a terminal") (lit "stdin is not a terminal"))
      by (apply contains_spec; reflexivity).
    assert (T2 : occurs (lit "not a tty") (lit "stdin is not a tty"))
      by (apply contains_spec; reflexivity).
    assert (T3 : occurs (lit "not a terminal") (lit "stdout is not a terminal"))
      by (apply contains_spec; reflexivity).
    assert (T4 : occurs (lit "not a tty") (lit "stdout is not a tty"))
      by (apply contains_spec; reflexivity).
    split.
    + intros H. split; [assumption|].
      destruct H as [H|[H|[H|[H|[H|H]]]]]; eauto using occurs_trans.
    + intros [_ [H|H]]; tauto.
Qed.

(** When [wait] raises [TimeoutExpired], which is when the process has
    closed its output and then does not exit within the timeout, [run]
    returns a result (the timeout is not raised to the caller): status
    Blocked, return code 124, the fixed message as thoughts, and the session
    id that was passed in.  The timeout of a new agent is 3600 seconds. *)
Theorem run_timeout {World : Type} (env : Env World) (self : agent)
    (command prompt session_id : str) (st : state World)
    (lines : list str) (w : World) :
  _command_prefers_tty (_build_command self command prompt session_id) = false ->
  popen_streaming env (_build_command self command prompt session_id)
    (timeout_seconds self) (world st) = (StreamTimedOut lines, w) ->
  fst (ExecutionAgent.run env self command prompt session_id st)
  = Ok {| status := lit "Blocked";
          thoughts := lit "Command timed out. Marked as Blocked.";
          session_id := session_id;
          return_code := 124 |}
  /\ (forall auto_close, timeout_seconds (new auto_close) = 3600%Z).
Proof.
  intros Hmode Hproc. split; [|reflexivity].
  eapply run_timeout_result; eauto.
Qed.

Lemma run_timeout_witness :
  fst (ExecutionAgent.run hanging_env (new true) (lit "codex") (lit "fix it")
         (lit "s1") (initial_state []))
  = Ok {| status := lit "Blocked";
          thoughts := lit "Command timed out. Marked as Blocked.";
          session_id := lit "s1";
          return_code := 124 |}
  /\ (forall auto_close, timeout_seconds (new auto_close) = 3600%Z).
Proof.
  apply (run_timeout hanging_env (new true) (lit "codex") (lit "fix it")
           (lit "s1") (initial_state []) [] tt); reflexivity.
Defined.

Import Process.

Lemma streaming_answer_long_running timeout lifetime :
  (0 <= timeout)%Z ->
  streaming_answer timeout (long_running lifetime) = StreamExited [lit "done"] 0.
Proof.
  intros H. unfold streaming_answer, exited_by, long_running.
  cbn [exits_at closes_output_at writes exit_code].
  assert (E : (lifetime <=? lifetime + timeout)%Z = true) by (apply Z.leb_le; lia).
  now rewrite E.
Qed.

(** C4: the timeout does not bound a captured run.  A process that holds
    its output open until it exits is read to its end, however long it
    lives: [run] returns the result of the process, here Completed with
    return code 0, and not the Blocked result with return code 124.  With
    a life of 7200 seconds the process outlives the timeout of 3600
    seconds; the terminal run of the same command does end as Blocked with
    return code 124. *)
Theorem run_overlong_process (lifetime : Z) :
  fst (ExecutionAgent.run (timed_env (fun _ => long_running lifetime)) (new true)
         (lit "codex") (lit "hello") [] (initial_state []))
  = Ok {| status := lit "Completed";
          thoughts := lit "done";
          session_id := [];
          return_code := 0 |}
  /\ timeout_seconds (new true) = 3600%Z
  /\ _command_prefers_tty (_build_command (new true) (lit "codex") (lit "hello") []) = false
  /\ exceeds 3600 (long_running 7200)
  /\ tty_answer 3600 (long_running 7200) = TtyTimedOut
  /\ fst (_run_with_tty (timed_env (fun _ => long_running 7200)) (new true)
            (_build_command (new true) (lit "codex") (lit "hello") []) [] []
            (initial_state []))
     = Ok {| status := lit "Blocked";
             thoughts := lit "Command timed out in TTY mode. Marked as Blocked.";
             session_id := [];
             return_code := 124 |}.
Proof.
  split; [|repeat split].
  unfold ExecutionAgent.run.
  unfold bind at 1. unfold log at 1. cbv iota beta.
  unfold bind at 1. unfold gets at 1. cbv iota beta.
  cbn [world sheet trace].
  change (_command_prefers_tty (_build_command (new true) (lit "codex") (lit "hello") []))
    with false. cbv iota.
  unfold bind at 1, catch_timeout, run_captured.
  unfold bind at 1, _run_streaming.
  unfold bind at 1. unfold log at 1. cbv iota beta.
  unfold bind at 1, call. cbn [world sheet trace popen_streaming timed_env].
  rewrite streaming_answer_long_running by (vm_compute; discriminate).
  vm_compute. reflexivity.
Qed.

(** C5: the captured run is followed by a run in terminal mode exactly when
    it exited with a return code other than zero and its lowercased output
    holds one of the phrases about a missing terminal (a captured run that
    timed out or could not start is not followed by one); a call of [run]
    starts at most one captured and at most one terminal process, and the
    terminal path starts one process and nothing else. *)
Theorem tty_fallback_spec {World : Type} (env : Env World) (self : agent)
    (command prompt session_id : str) (st : state World) :
  let built := _build_command self command prompt session_id in
  let events := run_events env self command prompt session_id st in
  (forall return_code output,
     _requires_tty_fallback return_code output = true <->
     return_code <> 0%Z
     /\ (occurs (lit "not a terminal") (lower output)
         \/ occurs (lit "not a tty") (lower output)))
  /\ trace (snd (ExecutionAgent.run env self command prompt session_id st))
     = trace st ++ events
  /\ count is_tty events <= 1
  /\ count is_streaming events <= 1
  /\ (_command_prefers_tty built = false ->
      forall lines return_code w,
        popen_streaming env built (timeout_seconds self) (world st)
        = (StreamExited lines return_code, w) ->
        (_requires_tty_fallback return_code (buffered_output lines) = true ->
         events = [EvRun command prompt session_id; EvStreaming built; EvTty built])
        /\ (_requires_tty_fallback return_code (buffered_output lines) = false ->
            events = [EvRun command prompt session_id; EvStreaming built]))
  /\ (_command_prefers_tty built = false ->
      (forall lines return_code,
         fst (popen_streaming env built (timeout_seconds self) (world st))
         <> StreamExited lines return_code) ->
      events = [EvRun command prompt session_id; EvStreaming built])
  /\ (forall pre st0,
        trace (snd (_run_with_tty env self built session_id pre st0))
        = trace st0 ++ [EvTty built]).
Proof.
  cbv zeta. split; [apply requires_tty_fallback_spec|].
  split; [apply run_trace|].
  unfold run_events.
  set (built := _build_command self command prompt session_id).
  split; [|split; [|split; [|split]]].
  - destruct (_command_prefers_tty built); [cbn; lia|].
    destruct (fst (popen_streaming env built (timeout_seconds self) (world st)))
      as [lines rc|lines|]; try (cbn; lia).
    destruct (_requires_tty_fallback rc (buffered_output lines)); cbn; lia.
  - destruct (_command_prefers_tty built); [cbn; lia|].
    destruct (fst (popen_streaming env built (timeout_seconds self) (world st)))
      as [lines rc|lines|]; try (cbn; lia).
    destruct (_requires_tty_fallback rc (buffered_output lines)); cbn; lia.
  - intros Hmode lines rc w Hproc. rewrite Hmode, Hproc. cbn [fst].
    split; intros Hf; now rewrite Hf.
  - intros Hmode Hproc. rewrite Hmode.
    destruct (fst (popen_streaming env built (timeout_seconds self) (world st)))
      as [lines rc|lines|]; [|reflexivity|reflexivity].
    exfalso. now apply (Hproc lines rc).
  - intros pre st0. apply run_with_tty_trace.
Qed.

Example tty_fallback_once :
  trace (snd (ExecutionAgent.run no_tty_env (new true) (lit "codex") (lit "fix it") []
                (initial_state [])))
  = [ EvRun (lit "codex") (lit "fix it") [];
      EvStreaming (lit "codex exec " ++ quoted (lit "fix it"));
      EvTty (lit "codex exec " ++ quoted (lit "fix it")) ].
Proof. reflexivity. Qed.

(** ** The sheet and the driver *)

Import Sheet GoogleSheetClient MintPipeline.

Lemma nth_set_nth_same {A} (d d' : A) i x l : nth i (set_nth d i x l) d' = x.
Proof.
  revert l; induction i as [|i IH]; intros [|h t]; simpl; auto.
Qed.

Lemma nth_nil {A} (d : A) i : nth i [] d = d.
Proof. destruct i; reflexivity. Qed.

Lemma nth_set_nth_other {A} (d : A) i j x l :
  i <> j -> nth j (set_nth d i x l) d = nth j l d.
Proof.
  revert j l; induction i as [|i IH]; intros [|j] [|h t] H;
    try congruence; try reflexivity.
  - now destruct j.
  - change (nth j (set_nth d i x []) d = d).
    rewrite IH by congruence. apply nth_nil.
  - change (nth j (set_nth d i x t) d = nth j t d). apply IH. congruence.
Qed.

Lemma cell_set_cell_same g row col v :
  1 <= row -> cell (set_cell g row col v) row col = v.
Proof.
  destruct row as [|i]; [lia|]. intros _. unfold cell, set_cell, row_at.
  rewrite nth_set_nth_same. apply nth_set_nth_same.
Qed.

Lemma cell_set_cell_other g row col col' v :
  col <> col' -> cell (set_cell g row col v) row col' = cell g row col'.
Proof.
  destruct row as [|i]; [reflexivity|]. intros H. unfold cell, set_cell, row_at.
  rewrite nth_set_nth_same. now apply nth_set_nth_other.
Qed.

Lemma nth_trim_cells cs i : nth i (trim_cells cs) [] = nth i cs [].
Proof.
  revert i; induction cs as [|c cs IH]; intros i; [reflexivity|]. simpl.
  destruct (trim_cells cs) as [|r rs] eqn:E.
  - assert (Hcs : forall j, nth j cs [] = [])
      by (intros j; rewrite <- IH; apply nth_nil).
    destruct c as [|a c]; destruct i as [|i]; simpl; try reflexivity.
    all: rewrite Hcs; now destruct i.
  - destruct i; [reflexivity|]. simpl. apply IH.
Qed.

Lemma nth_pad (l : cells) k i : nth i (l ++ repeat [] k) [] = nth i l [].
Proof.
  destruct (Nat.lt_ge_cases i (length l)) as [H|H].
  - now apply app_nth1.
  - rewrite app_nth2 by assumption. rewrite (nth_overflow l) by assumption.
    generalize (i - length l). induction k as [|k IH]; intros [|m]; simpl; auto.
Qed.

Lemma nth_firstn_lt {A} (d : A) n i l : i < n -> nth i (firstn n l) d = nth i l d.
Proof.
  revert i l; induction n as [|n IH]; intros i l H; [lia|].
  destruct l as [|h t]; [reflexivity|]. destruct i; [reflexivity|].
  simpl. apply IH. lia.
Qed.

Lemma values_get_row_head g row width :
  match values_get_row g row width with v :: _ => v | [] => [] end
  = trim_cells (firstn width (row_at g row)).
Proof.
  unfold values_get_row. simpl. now destruct (trim_cells (firstn width (row_at g row))).
Qed.

Lemma row_values_nth g row i :
  i < 12 ->
  let values := values_get_row g row 12 in
  let row_values := match values with v :: _ => v | [] => [] end in
  nth i (row_values ++ repeat [] (12 - length row_values)) [] = cell g row i.
Proof.
  intros H. cbv zeta. rewrite values_get_row_head, nth_pad, nth_trim_cells.
  now apply nth_firstn_lt.
Qed.

Lemma row_state_fields g row :
  prompt (row_state g row) = cell g row 1
  /\ ticket (row_state g row) = cell g row 2
  /\ status (row_state g row) = cell g row 3
  /\ user_input (row_state g row) = cell g row 4
  /\ thoughts (row_state g row) = cell g row 5
  /\ session_id (row_state g row) = cell g row 6.
Proof.
  unfold row_state; cbn [prompt ticket status user_input thoughts session_id].
  repeat split; apply row_values_nth; lia.
Qed.

Lemma row_state_zero g : prompt (row_state g 0) = [].
Proof. reflexivity. Qed.

Lemma lstrip_head s :
  lstrip s = [] \/ exists c r, lstrip s = c :: r /\ isspace c = false.
Proof.
  induction s as [|c s IH]; [now left|]. simpl.
  destruct (isspace c) eqn:E; [assumption|]. right. now exists c, s.
Qed.

Lemma rstrip_head c s :
  isspace c = false -> exists r, rstrip (c :: s) = c :: r.
Proof.
  intros H. simpl. destruct (rstrip s) as [|x r].
  - rewrite H. now exists [].
  - now exists (x :: r).
Qed.

Lemma rstrip_idempotent s : rstrip (rstrip s) = rstrip s.
Proof.
  induction s as [|c s IH]; [reflexivity|]. simpl.
  destruct (rstrip s) as [|x r] eqn:E.
  - destruct (isspace c) eqn:Hc; [reflexivity|]. simpl. now rewrite Hc.
  - change (rstrip (c :: x :: r)) with
      (match rstrip (x :: r) with
       | [] => if isspace c then [] else [c]
       | y :: t => c :: y :: t
       end).
    now rewrite IH.
Qed.

Lemma strip_idempotent s : strip (strip s) = strip s.
Proof.
  unfold strip. destruct (lstrip_head s) as [E | (c & r & E & Hc)]; rewrite E.
  - reflexivity.
  - destruct (rstrip_head c r Hc) as [r' Er]. rewrite Er.
    cbn [lstrip]. rewrite Hc, <- Er. apply rstrip_idempotent.
Qed.

Lemma join_prefix_strip prefix p :
  _join_prefix prefix (strip p) = _join_prefix prefix p.
Proof. unfold _join_prefix. now rewrite strip_idempotent. Qed.

Lemma filter_visible_nonempty p :
  forallb isspace p = false -> filter (fun c => negb (isspace c)) p <> [].
Proof.
  induction p as [|c p IH]; simpl; [discriminate|].
  destruct (isspace c); simpl; [assumption | discriminate].
Qed.

(** A prompt with a character that is not whitespace has a summary that is 
    not empty. *)
Lemma summarize_nonempty p :
  forallb isspace p = false -> SummaryAgent.summarize p <> [].
Proof.
  intros H.
  assert (Hs : split p <> []).
  { intros E. apply (filter_visible_nonempty p H). now rewrite <- split_concat, E. }
  assert (Hj : join (lit " ") (split p) <> []).
  { intros E. apply Hs. eapply join_nil_inv; [apply split_words | exact E]. }
  destruct (Nat.le_gt_cases (length (join (lit " ") (split p))) 96) as [Hl|Hl].
  - now rewrite summarize_short.
  - rewrite summarize_long by assumption.
    intros E. apply app_eq_nil in E as [_ E]. discriminate.
Qed.

Section DriverFacts.
Context {World : Type} (env : Env World).

Lemma bind_ok {A B} (m : M World A) (f : A -> M World B) st a st' :
  m st = (Ok a, st') -> bind m f st = f a st'.
Proof. unfold bind. now intros ->. Qed.

Lemma bind_raise {A B} (m : M World A) (f : A -> M World B) st e st' :
  m st = (Raise e, st') -> bind m f st = (Raise e, st').
Proof. unfold bind. now intros ->. Qed.

Lemma read_row_run row (st : state World) :
  read_row row st
  = (Ok (row_state (sheet st) row),
     {| sheet := sheet st; world := world st;
        trace := trace st ++ [EvReadRow row] |}).
Proof. reflexivity. Qed.

Lemma column_letters :
  column_index (map upper_char (lit "C")) = Some 2
  /\ column_index (map upper_char (lit "D")) = Some 3
  /\ column_index (map upper_char (lit "F")) = Some 5
  /\ column_index (map upper_char (lit "G")) = Some 6
  /\ column_index (map upper_char (lit "J")) = Some 9
  /\ column_index (map upper_char (lit "K")) = Some 10
  /\ column_index (map upper_char (lit "L")) = Some 11.
Proof. repeat split; reflexivity. Qed.

Ltac columns :=
  destruct column_letters as (HC & HD & HF & HG & HJ & HK & HL);
  cbn [write_updates]; rewrite ?HC, ?HD, ?HF, ?HG, ?HJ, ?HK, ?HL.

Lemma archive_and_shift_run row (st : state World) :
  exists g,
    archive_and_shift row st
    = (Ok tt,
       {| sheet := g; world := world st;
          trace := trace st ++
            [ EvArchive row; EvReadRow row;
              EvUpdateRow row
                [ (lit "J", Sheet.ticket (row_state (sheet st) row));
                  (lit "K", Sheet.prompt (row_state (sheet st) row));
                  (lit "L", _single_line (Sheet.thoughts (row_state (sheet st) row))) ] ] |}).
Proof.
  unfold archive_and_shift.
  unfold bind at 1. unfold log at 1. cbv iota beta.
  unfold bind at 1. rewrite read_row_run.
  unfold bind at 1. unfold update_row_columns.
  unfold bind at 1. unfold log at 1. cbv iota beta.
  unfold bind at 1. unfold gets at 1. cbv iota beta.
  cbn [sheet world trace]. columns.
  unfold put_sheet at 1. cbn [sheet world trace].
  unfold bind at 1. unfold gets at 1. cbv iota beta.
  unfold bind at 1. unfold gets at 1. cbv iota beta.
  cbn [sheet world trace]. rewrite <- !app_assoc. cbn [app].
  match goal with
  | |- context [match ?r with [] => _ | _ :: _ => _ end] => destruct r
  end; unfold put_sheet; cbn [sheet world trace]; eexists; reflexivity.
Qed.

Lemma iteration_approved agent command prefix c (st : state World) :
  let row := row_state (sheet st) (row_number c) in
  Sheet.prompt row <> [] ->
  strip (Sheet.status row) = lit "Approved" ->
  exists st',
    iteration env agent command prefix c st
    = (Ok (inr {| row_number := row_number c;
                  executed := executed c;
                  archived := archived c + 1 |}), st')
    /\ trace st' = trace st ++
         [ EvReadRow (row_number c); EvArchive (row_number c);
           EvReadRow (row_number c);
           EvUpdateRow (row_number c)
             [ (lit "J", Sheet.ticket row); (lit "K", Sheet.prompt row);
               (lit "L", _single_line (Sheet.thoughts row)) ] ]
    /\ world st' = world st.
Proof.
  cbv zeta. intros Hp Hs.
  unfold iteration. rewrite (bind_ok _ _ _ _ _ (read_row_run _ _)).
  apply truthy_true in Hp. rewrite Hp. cbn [negb]. rewrite Hs.
  rewrite str_eqb_refl.
  match goal with
  | |- context [bind (archive_and_shift ?n) ?f ?s] =>
      destruct (archive_and_shift_run n s) as [g Hg];
      rewrite (bind_ok _ _ _ _ _ Hg)
  end.
  eexists. split; [reflexivity|]. cbn [sheet world trace].
  split; [|reflexivity]. now rewrite <- app_assoc.
Qed.

Lemma run_with_tty_sheet self built session_id pre (st : state World) :
  sheet (snd (_run_with_tty env self built session_id pre st)) = sheet st.
Proof.
  unfold _run_with_tty, bind, log, call, gets, ret, raise. simpl.
  destruct (subprocess_run env built (timeout_seconds self) (world st)) as [[rc| |] w];
    simpl; try reflexivity.
  destruct (truthy (_pick_session_id pre (latest_codex_session_id env w) session_id));
    reflexivity.
Qed.

(** The engine does not write to the sheet. *)
Lemma run_sheet self command prompt session_id (st : state World) :
  sheet (snd (ExecutionAgent.run env self command prompt session_id st)) = sheet st.
Proof.
  unfold ExecutionAgent.run.
  set (built := _build_command self command prompt session_id).
  unfold bind at 1. unfold log at 1. cbv iota beta.
  unfold bind at 1. unfold gets at 1. cbv iota beta.
  cbn [world sheet trace].
  destruct (_command_prefers_tty built).
  - now rewrite run_with_tty_sheet.
  - unfold bind at 1, catch_timeout, run_captured.
    unfold bind at 1, _run_streaming.
    unfold bind at 1. unfold log at 1. cbv iota beta.
    unfold bind at 1, call. cbn [world sheet trace].
    destruct (popen_streaming env built (timeout_seconds self) (world st))
      as [[lines rc|lines|] w]; cbn [fst]; try reflexivity.
    unfold ret at 1. cbv iota beta.
    destruct (_requires_tty_fallback rc (buffered_output lines)).
    + unfold bind at 1.
      match goal with
      | |- context [_run_with_tty env self built session_id ?pre ?s] =>
          pose proof (run_with_tty_sheet self built session_id pre s) as Ht;
          destruct (_run_with_tty env self built session_id pre s) as [[r|e] s'] eqn:E
      end; cbn [snd sheet] in Ht.
      * unfold ret. cbn. exact Ht.
      * destruct e; cbn; exact Ht.
    + unfold bind at 1, gets at 1. cbv iota beta. cbn [world sheet trace].
      match goal with
      | |- context [if truthy ?x then gets _ else ret _] => destruct (truthy x)
      end; unfold bind, gets, ret; cbn; reflexivity.
Qed.

Lemma update_provisional row summary (st : state World) :
  update_row_columns row [(lit "C", summary); (lit "D", lit "Ongoing")] st
  = (Ok tt,
     {| sheet := set_cell (set_cell (sheet st) row 2 summary) row 3 (lit "Ongoing");
        world := world st;
        trace := trace st ++
                 [EvUpdateRow row [(lit "C", summary); (lit "D", lit "Ongoing")]] |}).
Proof.
  unfold update_row_columns.
  unfold bind at 1. unfold log at 1. cbv iota beta.
  unfold bind at 1. unfold gets at 1. cbv iota beta.
  cbn [sheet world trace]. columns. reflexivity.
Qed.

(** Writing the result of an execution succeeds and leaves the ticket
    column alone. *)
Lemma update_result row result (st : state World) :
  exists g,
    update_row_columns row (result_updates result) st
    = (Ok tt,
       {| sheet := g; world := world st;
          trace := trace st ++ [EvUpdateRow row (result_updates result)] |})
    /\ cell g row 2 = cell (sheet st) row 2.
Proof.
  unfold update_row_columns, result_updates.
  unfold bind at 1. unfold log at 1. cbv iota beta.
  destruct (truthy (ExecutionAgent.session_id result)); cbn [app];
    unfold bind at 1; unfold gets at 1; cbv iota beta;
    cbn [sheet world trace]; columns; unfold put_sheet; cbn [sheet world trace];
    eexists; (split; [reflexivity|]);
    rewrite !cell_set_cell_other by discriminate; reflexivity.
Qed.

Lemma iteration_new_row agent command prefix c (st : state World) :
  let row := row_state (sheet st) (row_number c) in
  let summary := SummaryAgent.summarize (Sheet.prompt row) in
  Sheet.prompt row <> [] ->
  strip (Sheet.status row) <> lit "Approved" ->
  Sheet.ticket row = [] ->
  iteration env agent command prefix c st
  = bind (ExecutionAgent.run env agent command
            (_join_prefix prefix (Sheet.prompt row)) [])
      (persist_and_advance c)
      {| sheet := set_cell (set_cell (sheet st) (row_number c) 2 summary)
                    (row_number c) 3 (lit "Ongoing");
         world := world st;
         trace := trace st ++
                  [ EvReadRow (row_number c);
                    EvUpdateRow (row_number c)
                      [(lit "C", summary); (lit "D", lit "Ongoing")] ] |}.
Proof.
  cbv zeta. intros Hp Hs Ht.
  unfold iteration. rewrite (bind_ok _ _ _ _ _ (read_row_run _ _)).
  apply truthy_true in Hp. rewrite Hp. cbn [negb].
  destruct (str_eqb _ (lit "Approved")) eqn:E; [apply str_eqb_eq in E; congruence|].
  rewrite Ht. cbn [truthy negb].
  rewrite (bind_ok _ _ _ _ _ (update_provisional _ _ _)).
  cbn [sheet world trace]. now rewrite <- app_assoc.
Qed.

Lemma iteration_ongoing agent command prefix c (st : state World) :
  let row := row_state (sheet st) (row_number c) in
  Sheet.prompt row <> [] ->
  Sheet.ticket row <> [] ->
  strip (Sheet.status row) = lit "Ongoing" ->
  iteration env agent command prefix c st
  = bind (ExecutionAgent.run env agent command
            (_join_prefix prefix (or_else (strip (Sheet.user_input row)) (Sheet.prompt row)))
            (Sheet.session_id row))
      (persist_and_advance c)
      {| sheet := sheet st; world := world st;
         trace := trace st ++ [EvReadRow (row_number c)] |}.
Proof.
  cbv zeta. intros Hp Ht Hs.
  unfold iteration. rewrite (bind_ok _ _ _ _ _ (read_row_run _ _)).
  apply truthy_true in Hp, Ht. rewrite Hp, Ht, Hs. reflexivity.
Qed.


Lemma extends_refl (st : state World) : extends st st.
Proof. exists []. now rewrite app_nil_r. Qed.

Lemma extends_trans (st1 st2 st3 : state World) :
  extends st1 st2 -> extends st2 st3 -> extends st1 st3.
Proof.
  intros [a Ha] [b Hb]. exists (a ++ b). now rewrite Hb, Ha, app_assoc.
Qed.

Lemma bind_extends {A B} (m : M World A) (f : A -> M World B) st :
  extends st (snd (m st)) ->
  (forall a st', extends st' (snd (f a st'))) ->
  extends st (snd (bind m f st)).
Proof.
  intros Hm Hf. unfold bind. destruct (m st) as [[a|e] st'] eqn:E; cbn [snd] in *.
  - eapply extends_trans; [exact Hm | apply Hf].
  - exact Hm.
Qed.

Lemma update_row_columns_extends row updates (st : state World) :
  extends st (snd (update_row_columns row updates st)).
Proof.
  exists [EvUpdateRow row updates]. unfold update_row_columns.
  unfold bind at 1. unfold log at 1. cbv iota beta.
  destruct updates as [|u us]; [reflexivity|].
  unfold bind, gets. cbn [sheet world trace].
  destruct (write_updates (sheet st) row (u :: us)); reflexivity.
Qed.

Lemma run_extends self command prompt session_id (st : state World) :
  extends st (snd (ExecutionAgent.run env self command prompt session_id st)).
Proof. eexists. apply run_trace. Qed.

Lemma after_run_extends row c' result (st : state World) :
  extends st
    (snd (bind (update_row_columns row (result_updates result))
            (fun _ => ret (inr c' : RunSummary + cursor)) st)).
Proof.
  apply bind_extends; [apply update_row_columns_extends|].
  intros _ st'. apply extends_refl.
Qed.

(** Every turn of the loop starts by reading the row of its cursor. *)
Lemma iteration_reads agent command prefix c (st : state World) :
  exists more,
    trace (snd (iteration env agent command prefix c st))
    = trace st ++ EvReadRow (row_number c) :: more.
Proof.
  unfold iteration. rewrite (bind_ok _ _ _ _ _ (read_row_run _ _)).
  match goal with
  | |- context [snd (?m ?s)] =>
      assert (H : extends s (snd (m s)))
  end.
  { destruct (negb (truthy _)); [apply extends_refl|].
    destruct (str_eqb _ (lit "Approved")).
    { destruct (archive_and_shift_run (row_number c)
                  {| sheet := sheet st; world := world st;
                     trace := trace st ++ [EvReadRow (row_number c)] |}) as [g Hg].
      rewrite (bind_ok _ _ _ _ _ Hg). unfold ret. cbn [snd].
      eexists. reflexivity. }
    destruct (negb (truthy _)).
    { apply bind_extends; [apply update_row_columns_extends|]. intros _ s1.
      apply bind_extends; [apply run_extends|]. intros r s2.
      apply after_run_extends. }
    destruct (str_eqb _ (lit "Ongoing")); [|apply extends_refl].
    apply bind_extends; [apply run_extends|]. intros r s2.
    apply after_run_extends. }
  destruct H as [more H]. exists more. rewrite H. cbn [trace].
  now rewrite <- app_assoc.
Qed.

End DriverFacts.



(** C2: a turn of the loop that reads a row with a prompt and the status
    Approved calls [archive_and_shift] once for that row, adds one to the
    archived rows, starts no execution (no call of the engine, no process),
    and leaves the row number as it is: the next turn of the loop runs on
    the same position and reads it again. *)
Theorem approved_row_archived {World : Type} (env : Env World)
    (execution_agent : agent) (command prefix : str) (c : cursor)
    (st : state World) :
  let row := row_state (sheet st) (row_number c) in
  let n := row_number c in
  let c' := {| row_number := n; executed := executed c; archived := archived c + 1 |} in
  let events :=
    [ EvReadRow n; EvArchive n; EvReadRow n;
      EvUpdateRow n [ (lit "J", Sheet.ticket row); (lit "K", Sheet.prompt row);
                      (lit "L", _single_line (Sheet.thoughts row)) ] ] in
  Sheet.prompt row <> [] ->
  Sheet.status row = lit "Approved" ->
  exists st',
    iteration env execution_agent command prefix c st = (Ok (inr c'), st')
    /\ trace st' = trace st ++ events
    /\ count is_archive events = 1
    /\ In (EvArchive n) events
    /\ count is_run events = 0
    /\ count is_streaming events = 0
    /\ count is_tty events = 0
    /\ (forall fuel,
          loop env (S fuel) execution_agent command prefix c st
          = loop env fuel execution_agent command prefix c' st')
    /\ (exists more,
          trace (snd (iteration env execution_agent command prefix c' st'))
          = trace st' ++ EvReadRow n :: more).
Proof.
  cbv zeta. intros Hp Hs.
  destruct (iteration_approved env execution_agent command prefix c st Hp)
    as (st' & Hit & Htr & _); [now rewrite Hs|].
  exists st'. split; [exact Hit|]. split; [exact Htr|].
  repeat split; try reflexivity.
  - right. now left.
  - intros fuel. cbn [loop]. now rewrite (bind_ok _ _ _ _ _ Hit).
  - apply (iteration_reads env execution_agent command prefix
             {| row_number := row_number c; executed := executed c;
                archived := archived c + 1 |} st').
Qed.

Lemma approved_row_archived_witness :
  exists st',
    iteration done_env (new true) (lit "codex") (lit "PFX") start
      (initial_state (one_task (task_row "Fix bug" "T1" "Approved" "" "" "")))
    = (Ok (inr {| row_number := 2; executed := 0; archived := 1 |}), st')
    /\ trace st'
       = [ EvReadRow 2; EvArchive 2; EvReadRow 2;
           EvUpdateRow 2 [ (lit "J", lit "T1"); (lit "K", lit "Fix bug"); (lit "L", []) ] ].
Proof.
  destruct (approved_row_archived done_env (new true) (lit "codex") (lit "PFX") start
              (initial_state (one_task (task_row "Fix bug" "T1" "Approved" "" "" ""))))
    as (st' & Hit & Htr & _).
  - vm_compute. discriminate.
  - reflexivity.
  - exists st'. split; [exact Hit | exact Htr].
Defined.

Section PersistFacts.
Context {World : Type} (env : Env World).

Lemma persist_and_advance_run c result (st : state World) :
  exists st',
    persist_and_advance c result st
    = (Ok (inr {| row_number := row_number c + 1;
                  executed := executed c + 1;
                  archived := archived c |}), st')
    /\ trace st' = trace st ++ [EvUpdateRow (row_number c) (result_updates result)]
    /\ cell (sheet st') (row_number c) 2 = cell (sheet st) (row_number c) 2.
Proof.
  unfold persist_and_advance.
  destruct (update_result (row_number c) result st) as (g & Hu & Hc).
  rewrite (bind_ok _ _ _ _ _ Hu). unfold ret.
  eexists. split; [reflexivity|]. cbn [sheet trace]. auto.
Qed.

End PersistFacts.

(** C3, amended: for a row with a prompt, an empty ticket and a status
    other than Approved, the driver first writes the summary of the prompt
    as ticket together with the status Ongoing, and in that state calls the
    engine with the prefix-joined prompt and an empty session id; when the
    engine returns, the ticket of the row is still that summary, and the
    summary is not empty when the prompt has a character that is not
    whitespace. *)
Theorem new_row_first_execution {World : Type} (env : Env World)
    (execution_agent : agent) (command prefix : str) (c : cursor)
    (st : state World) :
  let row := row_state (sheet st) (row_number c) in
  let n := row_number c in
  let summary := SummaryAgent.summarize (Sheet.prompt row) in
  let st1 :=
    {| sheet := set_cell (set_cell (sheet st) n 2 summary) n 3 (lit "Ongoing");
       world := world st;
       trace := trace st ++
                [EvReadRow n; EvUpdateRow n [(lit "C", summary); (lit "D", lit "Ongoing")]] |} in
  let engine :=
    ExecutionAgent.run env execution_agent command
      (_join_prefix prefix (Sheet.prompt row)) [] in
  Sheet.prompt row <> [] ->
  strip (Sheet.status row) <> lit "Approved" ->
  Sheet.ticket row = [] ->
  iteration env execution_agent command prefix c st
  = bind engine (persist_and_advance c) st1
  /\ Sheet.ticket (row_state (sheet st1) n) = summary
  /\ Sheet.status (row_state (sheet st1) n) = lit "Ongoing"
  /\ (exists more,
        trace (snd (iteration env execution_agent command prefix c st))
        = trace st1 ++ EvRun command (_join_prefix prefix (Sheet.prompt row)) [] :: more)
  /\ (forall result st2,
        engine st1 = (Ok result, st2) ->
        exists st3,
          iteration env execution_agent command prefix c st
          = (Ok (inr {| row_number := n + 1; executed := executed c + 1;
                        archived := archived c |}), st3)
          /\ Sheet.ticket (row_state (sheet st3) n) = summary)
  /\ (forallb isspace (Sheet.prompt row) = false -> summary <> []).
Proof.
  cbv zeta. intros Hp Hs Ht.
  assert (Hn : 1 <= row_number c).
  { destruct (row_number c) eqn:E; [|lia]. exfalso. apply Hp. reflexivity. }
  pose proof (iteration_new_row env execution_agent command prefix c st Hp Hs Ht) as Hit.
  cbv zeta in Hit. split; [exact Hit|].
  set (summary := SummaryAgent.summarize _) in *.
  set (st1 := {| sheet := _; world := _; trace := _ |}) in *.
  assert (Hticket : cell (sheet st1) (row_number c) 2 = summary).
  { cbn [sheet st1]. rewrite cell_set_cell_other by discriminate.
    now apply cell_set_cell_same. }
  split; [|split; [|split; [|split]]].
  - destruct (row_state_fields (sheet st1) (row_number c)) as (_ & -> & _). exact Hticket.
  - destruct (row_state_fields (sheet st1) (row_number c)) as (_ & _ & -> & _).
    cbn [sheet st1]. now apply cell_set_cell_same.
  - rewrite Hit.
    pose proof (run_trace env execution_agent command
                  (_join_prefix prefix (Sheet.prompt (row_state (sheet st) (row_number c))))
                  [] st1) as Hr.
    unfold bind.
    destruct (ExecutionAgent.run env execution_agent command _ [] st1)
      as [[result|e] st2] eqn:E; cbn [snd] in *.
    + destruct (persist_and_advance_run c result st2) as (st3 & -> & Htr & _).
      cbn [snd]. rewrite Htr, Hr. unfold run_events. cbn [app].
      rewrite <- app_assoc. cbn [app]. eexists. reflexivity.
    + rewrite Hr. unfold run_events. cbn [app]. eexists. reflexivity.
  - intros result st2 Hrun. rewrite Hit, (bind_ok _ _ _ _ _ Hrun).
    destruct (persist_and_advance_run c result st2) as (st3 & -> & _ & Hc).
    exists st3. split; [reflexivity|].
    destruct (row_state_fields (sheet st3) (row_number c)) as (_ & -> & _).
    rewrite Hc.
    pose proof (run_sheet env execution_agent command
                  (_join_prefix prefix (Sheet.prompt (row_state (sheet st) (row_number c))))
                  [] st1) as Hsh.
    rewrite Hrun in Hsh. cbn [snd] in Hsh. now rewrite Hsh.
  - apply summarize_nonempty.
Qed.

Lemma join_prefix_resume prefix user_input prompt :
  _join_prefix prefix (or_else (strip user_input) prompt)
  = _join_prefix prefix (if truthy (strip user_input) then user_input else prompt).
Proof.
  unfold or_else. destruct (truthy (strip user_input)); [|reflexivity].
  apply join_prefix_strip.
Qed.

Lemma join_prefix_both prefix p :
  strip prefix <> [] -> strip p <> [] ->
  _join_prefix prefix p = strip prefix ++ lit " " ++ strip p.
Proof.
  intros H1 H2. apply truthy_true in H1, H2. unfold _join_prefix.
  now rewrite H1, H2.
Qed.

Lemma join_prefix_none prefix p : strip prefix = [] -> _join_prefix prefix p = strip p.
Proof. intros H. unfold _join_prefix. now rewrite H. Qed.

(** C7, amended: for a row with a prompt, a ticket and the status Ongoing
    the engine is called with the session id of the row and with the prefix
    joined to the user input when the user input has a character other
    than whitespace, and to the prompt of the row otherwise; joining puts
    the trimmed prefix, a space and the trimmed text together (the text
    alone when the prefix is blank), for new rows as well; when the engine
    returns, the driver writes the result, counts one execution and moves
    one row down. *)
Theorem ongoing_row_resumed {World : Type} (env : Env World)
    (execution_agent : agent) (command prefix : str) (c : cursor)
    (st : state World) :
  let row := row_state (sheet st) (row_number c) in
  let n := row_number c in
  let resume_prompt :=
    if truthy (strip (Sheet.user_input row))
    then Sheet.user_input row else Sheet.prompt row in
  let st1 :=
    {| sheet := sheet st; world := world st; trace := trace st ++ [EvReadRow n] |} in
  let engine :=
    ExecutionAgent.run env execution_agent command
      (_join_prefix prefix resume_prompt) (Sheet.session_id row) in
  Sheet.prompt row <> [] ->
  Sheet.ticket row <> [] ->
  Sheet.status row = lit "Ongoing" ->
  iteration env execution_agent command prefix c st
  = bind engine (persist_and_advance c) st1
  /\ (exists more,
        trace (snd (iteration env execution_agent command prefix c st))
        = trace st ++ EvReadRow n
            :: EvRun command (_join_prefix prefix resume_prompt) (Sheet.session_id row)
            :: more)
  /\ (forall result st2,
        engine st1 = (Ok result, st2) ->
        exists st3,
          iteration env execution_agent command prefix c st
          = (Ok (inr {| row_number := n + 1; executed := executed c + 1;
                        archived := archived c |}), st3)
          /\ trace st3 = trace st2 ++ [EvUpdateRow n (result_updates result)])
  /\ (forall p, strip prefix <> [] -> strip p <> [] ->
                _join_prefix prefix p = strip prefix ++ lit " " ++ strip p)
  /\ (forall p, strip prefix = [] -> _join_prefix prefix p = strip p)
  /\ (forall c0 (st0 : state World),
        let row0 := row_state (sheet st0) (row_number c0) in
        Sheet.prompt row0 <> [] ->
        strip (Sheet.status row0) <> lit "Approved" ->
        Sheet.ticket row0 = [] ->
        exists st1',
          iteration env execution_agent command prefix c0 st0
          = bind (ExecutionAgent.run env execution_agent command
                    (_join_prefix prefix (Sheet.prompt row0)) [])
              (persist_and_advance c0) st1').
Proof.
  cbv zeta. intros Hp Ht Hs.
  assert (Hit := iteration_ongoing env execution_agent command prefix c st Hp Ht).
  cbv zeta in Hit. rewrite Hs in Hit. specialize (Hit eq_refl).
  rewrite join_prefix_resume in Hit.
  split; [exact Hit|]. split; [|split; [|split; [|split]]].
  - rewrite Hit.
    match goal with
    | |- context [bind (ExecutionAgent.run env ?a ?cmd ?p ?sid) _ ?s] =>
        pose proof (run_trace env a cmd p sid s) as Hr; unfold bind;
        destruct (ExecutionAgent.run env a cmd p sid s) as [[result|e] st2] eqn:E
    end; cbn [snd] in *.
    + destruct (persist_and_advance_run c result st2) as (st3 & -> & Htr & _).
      cbn [snd]. rewrite Htr, Hr. unfold run_events. cbn [trace app].
      rewrite <- !app_assoc. cbn [app]. eexists. reflexivity.
    + rewrite Hr. unfold run_events. cbn [trace app].
      rewrite <- !app_assoc. cbn [app]. eexists. reflexivity.
  - intros result st2 Hrun. rewrite Hit, (bind_ok _ _ _ _ _ Hrun).
    destruct (persist_and_advance_run c result st2) as (st3 & -> & Htr & _).
    exists st3. split; [reflexivity | exact Htr].
  - apply join_prefix_both.
  - apply join_prefix_none.
  - intros c0 st0 Hp0 Hs0 Ht0. eexists.
    apply (iteration_new_row env execution_agent command prefix c0 st0 Hp0 Hs0 Ht0).
Qed.

Lemma ongoing_row_resumed_witness :
  exists more,
    trace (snd (iteration done_env (new true) (lit "codex") (lit "PFX") start
                  (initial_state
                     (one_task (task_row "Fix bug" "Fix bug" "Ongoing" "continue" "" "abc")))))
    = EvReadRow 2 :: EvRun (lit "codex") (lit "PFX continue") (lit "abc") :: more.
Proof.
  destruct (ongoing_row_resumed done_env (new true) (lit "codex") (lit "PFX") start
              (initial_state
                 (one_task (task_row "Fix bug" "Fix bug" "Ongoing" "continue" "" "abc"))))
    as (_ & Htr & _).
  - vm_compute. discriminate.
  - vm_compute. discriminate.
  - reflexivity.
  - exact Htr.
Defined.

Lemma new_row_first_execution_witness :
  exists more,
    trace (snd (iteration done_env (new true) (lit "codex") (lit "PFX") start
                  (initial_state (one_task (task_row "Fix   bug" "" "" "" "" "")))))
    = [ EvReadRow 2;
        EvUpdateRow 2 [(lit "C", lit "Fix bug"); (lit "D", lit "Ongoing")] ]
      ++ EvRun (lit "codex") (lit "PFX Fix   bug") [] :: more.
Proof.
  destruct (new_row_first_execution done_env (new true) (lit "codex") (lit "PFX") start
              (initial_state (one_task (task_row "Fix   bug" "" "" "" "" ""))))
    as (_ & _ & _ & Htr & _).
  - vm_compute. discriminate.
  - vm_compute. discriminate.
  - reflexivity.
  - exact Htr.
Defined.

(** Two rows with a prompt and an empty ticket that do not go the way of a
    first execution: one marked Approved is archived and the engine is not
    called; one whose prompt is a single space is executed, and its ticket
    is empty afterwards. *)
Lemma empty_ticket_rows :
  (Sheet.prompt (row_state (one_task (task_row "Fix bug" "" "Approved" "" "" "")) 2)
   = lit "Fix bug"
   /\ Sheet.ticket (row_state (one_task (task_row "Fix bug" "" "Approved" "" "" "")) 2) = []
   /\ trace (snd (iteration done_env (new true) (lit "codex") (lit "PFX") start
                    (initial_state (one_task (task_row "Fix bug" "" "Approved" "" "" "")))))
      = [ EvReadRow 2; EvArchive 2; EvReadRow 2;
          EvUpdateRow 2 [ (lit "J", []); (lit "K", lit "Fix bug"); (lit "L", []) ] ])
  /\ (Sheet.prompt (row_state (one_task (task_row " " "" "" "" "" "")) 2) = lit " "
      /\ filter is_run
           (trace (snd (iteration done_env (new true) (lit "codex") (lit "PFX") start
                          (initial_state (one_task (task_row " " "" "" "" "" ""))))))
         = [EvRun (lit "codex") (lit "PFX") []]
      /\ Sheet.ticket
           (row_state
              (sheet (snd (iteration done_env (new true) (lit "codex") (lit "PFX") start
                             (initial_state (one_task (task_row " " "" "" "" "" ""))))))
              2)
         = []).
Proof. repeat split. Qed.

(** A user input of one space is not empty, yet the resumed run gets the
    original prompt. *)
Lemma ongoing_row_blank_user_input :
  Sheet.user_input
    (row_state (one_task (task_row "Fix bug" "Fix bug" "Ongoing" " " "" "abc")) 2)
  = lit " "
  /\ filter is_run
       (trace (snd (iteration done_env (new true) (lit "codex") (lit "PFX") start
                      (initial_state
                         (one_task (task_row "Fix bug" "Fix bug" "Ongoing" " " "" "abc"))))))
     = [EvRun (lit "codex") (lit "PFX Fix bug") (lit "abc")]
  /\ _join_prefix (lit "PFX") (lit " ") = lit "PFX".
Proof. repeat split. Qed.

(** ** A whole pass of the driver *)

(** The approved row is archived, the new row and the row to resume are
    executed, the completed row is passed over, and the pass stops at the
    first row without a prompt. *)
Example full_pass_summary :
  fst (MintPipeline.run done_env no_defaults 10 (initial_state board))
  = Ok (Some {| executed_rows := 2; archived_rows := 1; stopped_at_row := 5 |}).
Proof. vm_compute. reflexivity. Qed.

Example full_pass_executions :
  filter is_run (trace (snd (MintPipeline.run done_env no_defaults 10 (initial_state board))))
  = [ EvRun (lit "codex") (lit "PFX Fix bug") [];
      EvRun (lit "codex") (lit "PFX continue") (lit "abc") ].
Proof. vm_compute. reflexivity. Qed.

Example empty_sheet_summary :
  fst (loop done_env 1 (new true) (lit "codex") [] start (initial_state [HEADERS]))
  = Ok (Some {| executed_rows := 0; archived_rows := 0; stopped_at_row := 2 |}).
Proof. reflexivity. Qed.

(* --------------------------------------------------------------------- *)
(** ** Further properties of the code *)

Import PyStr Re StatusAgent Sheet Runtime ExecutionAgent GoogleSheetClient.
Import MintPipeline Scenarios.
Import SheetUrl Layout ColumnL Cli Notions.

(** ** Strip shape *)
Lemma strip_head s :
  strip s = [] \/ exists c r, strip s = c :: r /\ isspace c = false.
Proof.
  unfold strip. destruct (lstrip_head s) as [E | (c & r & E & Hc)]; rewrite E.
  - now left.
  - right. destruct (rstrip_head c r Hc) as [r' Er]. now exists c, r'.
Qed.

Lemma rstrip_strip s : rstrip (strip s) = strip s.
Proof. unfold strip. apply rstrip_idempotent. Qed.

Lemma lstrip_strip s : lstrip (strip s) = strip s.
Proof.
  destruct (strip_head s) as [E | (c & r & E & Hc)]; rewrite E; [reflexivity|].
  simpl. now rewrite Hc.
Qed.

(** Two stripped texts that are not empty, joined by a space, are stripped. *)
Lemma strip_joined a b :
  strip a <> [] -> strip b <> [] ->
  strip (strip a ++ lit " " ++ strip b) = strip a ++ lit " " ++ strip b.
Proof.
  intros Ha Hb. unfold strip at 1.
  assert (El : lstrip (strip a ++ lit " " ++ strip b) = strip a ++ lit " " ++ strip b).
  { destruct (strip_head a) as [E | (c & r & E & Hc)]; [congruence|].
    rewrite E. simpl. now rewrite Hc. }
  rewrite El. rewrite rstrip_app.
  assert (Er : rstrip (lit " " ++ strip b) = lit " " ++ strip b).
  { rewrite rstrip_app, rstrip_strip. destruct (strip b); [congruence | reflexivity]. }
  rewrite Er. simpl. reflexivity.
Qed.

(** X1: the text that [_join_prefix] hands to the engine has no whitespace
    at either end; with a blank prefix it is the stripped prompt, with a
    blank prompt the stripped prefix, and it is empty only when both are
    blank. *)
Theorem join_prefix_trimmed (prefix prompt : str) :
  strip (_join_prefix prefix prompt) = _join_prefix prefix prompt
  /\ (strip prefix = [] -> _join_prefix prefix prompt = strip prompt)
  /\ (strip prompt = [] -> _join_prefix prefix prompt = strip prefix)
  /\ (_join_prefix prefix prompt = [] <-> strip prefix = [] /\ strip prompt = []).
Proof.
  unfold _join_prefix.
  destruct (strip prefix) as [|a pa] eqn:Ea; cbn [truthy negb].
  - split; [apply strip_idempotent|]. split; [reflexivity|].
    split; [now intros ->|]. split; [now split | now intros [_ H]].
  - destruct (strip prompt) as [|b pb] eqn:Eb; cbn [truthy negb].
    + split; [rewrite <- Ea; apply strip_idempotent|].
      split; [discriminate|]. split; [reflexivity|].
      split; [discriminate | intros [H _]; discriminate].
    + split; [rewrite <- Ea, <- Eb; apply strip_joined; congruence|].
      split; [discriminate|]. split; [discriminate|].
      split; [discriminate | intros [H _]; discriminate].
Qed.

(** X2: [_truncate] never returns more than 49000 characters; a text within
    the limit comes back unchanged, and a longer one is cut to its first
    48985 characters followed by a newline and the mark [...[truncated]],
    which makes exactly 49000. *)
Theorem truncate_bounded (text : str) :
  (Z.of_nat (length (_truncate text)) <= 49000)%Z
  /\ ((Z.of_nat (length text) <= 49000)%Z -> _truncate text = text)
  /\ ((49000 < Z.of_nat (length text))%Z ->
      _truncate text = firstn (Z.to_nat 48985) text ++ newline :: lit "...[truncated]"
      /\ Z.of_nat (length (_truncate text)) = 49000%Z).
Proof.
  unfold _truncate. cbv zeta.
  assert (Hm : length (newline :: lit "...[truncated]") = 15) by reflexivity.
  destruct (Z.leb_spec (Z.of_nat (length text)) 49000) as [H|H].
  - split; [assumption|]. split; [reflexivity | lia].
  - change (49000 - 15)%Z with 48985%Z.
    assert (Hl : Z.of_nat (length (firstn (Z.to_nat 48985) text ++ newline :: lit "...[truncated]"))
                 = 49000%Z).
    { rewrite length_app, Hm, length_firstn. lia. }
    split; [lia|]. split; [lia | auto].
Qed.

(** X3: [_pick_session_id] returns the latest session or the fallback and
    nothing else: the latest one when it is not empty and differs from the
    previous one, never an empty text when there is a fallback, and an
    empty text only when both are empty. *)
Theorem pick_session_id_spec (previous latest fallback : str) :
  let picked := _pick_session_id previous latest fallback in
  (picked = latest \/ picked = fallback)
  /\ (latest <> [] -> latest <> previous -> picked = latest)
  /\ (fallback <> [] -> picked <> [])
  /\ (picked = [] <-> latest = [] /\ fallback = []).
Proof.
  cbv zeta. unfold _pick_session_id.
  destruct latest as [|l ls]; cbn [truthy andb].
  - destruct fallback as [|f fs]; cbn [truthy].
    + split; [now left|]. split; [congruence|]. split; [congruence|]. now split.
    + split; [now right|]. split; [congruence|]. split; [discriminate|].
      split; [discriminate | intros [_ H]; discriminate].
  - destruct (str_eqb (l :: ls) previous) eqn:E; cbn [negb].
    + apply str_eqb_eq in E.
      destruct fallback as [|f fs]; cbn [truthy].
      * split; [now left|]. split; [congruence|]. split; [congruence|].
        split; [discriminate | intros [H _]; discriminate].
      * split; [now right|]. split; [congruence|]. split; [discriminate|].
        split; [discriminate | intros [H _]; discriminate].
    + split; [now left|]. split; [reflexivity|]. split; [discriminate|].
      split; [discriminate | intros [H _]; discriminate].
Qed.

Lemma split_head_nonspace c s : isspace c = false -> split (c :: s) <> [].
Proof.
  intros Hc E.
  assert (H := split_concat (c :: s)). rewrite E in H. simpl in H.
  rewrite Hc in H. discriminate.
Qed.

(** Splitting goes through a whitespace character. *)
Lemma split_app_space a sp b :
  isspace sp = true -> split (a ++ sp :: b) = split a ++ split b.
Proof.
  intros Hsp. induction a as [|c a IH].
  - change ([] ++ sp :: b) with (sp :: b). now rewrite split_space.
  - destruct (isspace c) eqn:Hc.
    + change ((c :: a) ++ sp :: b) with (c :: (a ++ sp :: b)).
      now rewrite !split_space.
    + destruct a as [|d a].
      * change ([c] ++ sp :: b) with (c :: sp :: b).
        rewrite split_break, split_last by assumption.
        now rewrite split_space.
      * change ((c :: d :: a) ++ sp :: b) with (c :: d :: (a ++ sp :: b)).
        change (d :: a ++ sp :: b) with ((d :: a) ++ sp :: b) in *.
        destruct (isspace d) eqn:Hd.
        -- change (c :: (d :: a) ++ sp :: b) with (c :: d :: (a ++ sp :: b)).
           rewrite !split_break by assumption.
           change (d :: a ++ sp :: b) with ((d :: a) ++ sp :: b).
           now rewrite IH.
        -- change (c :: (d :: a) ++ sp :: b) with (c :: d :: (a ++ sp :: b)).
           rewrite !split_extend by assumption.
           change (d :: a ++ sp :: b) with ((d :: a) ++ sp :: b).
           rewrite IH.
           destruct (split (d :: a)) as [|w ws] eqn:E; [|reflexivity].
           exfalso. now apply (split_head_nonspace d a Hd).
Qed.

Lemma split_app_allspace a ws : forallb isspace ws = true -> split (a ++ ws) = split a.
Proof.
  destruct ws as [|sp ws]; [now rewrite app_nil_r|].
  simpl. rewrite andb_true_iff. intros [Hsp Hws].
  rewrite split_app_space by assumption.
  now rewrite (split_allspace ws Hws), app_nil_r.
Qed.

Lemma split_lstrip s : split (lstrip s) = split s.
Proof.
  induction s as [|c s IH]; [reflexivity|]. simpl lstrip.
  destruct (isspace c) eqn:Hc; [|reflexivity]. now rewrite split_space.
Qed.

Lemma rstrip_decompose s :
  exists ws, forallb isspace ws = true /\ s = rstrip s ++ ws.
Proof.
  induction s as [|c s (ws & Hws & E)]; [now exists []|]. simpl.
  destruct (rstrip s) as [|x r] eqn:Er.
  - simpl in E. subst ws. destruct (isspace c) eqn:Hc.
    + exists (c :: s). split; [|reflexivity]. simpl. now rewrite Hc.
    + exists s. split; [assumption | reflexivity].
  - exists ws. split; [assumption|]. rewrite E at 1. reflexivity.
Qed.

Lemma split_rstrip s : split (rstrip s) = split s.
Proof.
  destruct (rstrip_decompose s) as (ws & Hws & E).
  rewrite E at 2. now rewrite split_app_allspace.
Qed.

Lemma split_strip s : split (strip s) = split s.
Proof. unfold strip. now rewrite split_rstrip, split_lstrip. Qed.

Lemma isspace_lower c : isspace (lower_char c) = isspace c.
Proof. ascii_cases c; reflexivity. Qed.

Lemma split_lower s : split (lower s) = map lower (split s).
Proof.
  unfold lower at 1. induction s as [|c s IH]; [reflexivity|].
  destruct (isspace c) eqn:Hc.
  - cbn [map]. rewrite !split_space; rewrite ?isspace_lower; assumption.
  - destruct s as [|d s].
    + cbn [map]. rewrite !split_last; rewrite ?isspace_lower; auto.
    + destruct (isspace d) eqn:Hd.
      * cbn [map] in *. rewrite !split_break; rewrite ?isspace_lower; auto.
        cbn [map]. now rewrite IH.
      * cbn [map] in *. rewrite !split_extend; rewrite ?isspace_lower; auto.
        rewrite IH. destruct (split (d :: s)); reflexivity.
Qed.

(** ** Single line *)
Lemma join_words_chars ws :
  Forall word ws ->
  forall c, In c (join (lit " ") ws) -> isspace c = true -> c = " "%char.
Proof.
  induction ws as [|w ws IH]; intros H c Hin Hc; [contradiction|].
  inversion H as [|? ? [_ Hw] Hws]; subst.
  assert (Hnot : ~ In c w).
  { intros Hi. unfold nospace in Hw. rewrite forallb_forall in Hw.
    specialize (Hw c Hi). rewrite Hc in Hw. discriminate. }
  destruct ws as [|w' ws]; [contradiction|].
  rewrite join_cons2 in Hin. apply in_app_or in Hin as [Hin | Hin]; [contradiction|].
  simpl in Hin. destruct Hin as [<- | Hin]; [reflexivity|].
  now apply IH.
Qed.

Lemma single_line_collapse v : _single_line v = join (lit " ") (split v).
Proof. unfold _single_line. now destruct v. Qed.

Lemma join_words_strip ws :
  Forall word ws -> strip (join (lit " ") ws) = join (lit " ") ws.
Proof.
  intros H. destruct ws as [|w ws]; [reflexivity|].
  inversion H as [|? ? [Hne Hw] Hws]; subst.
  unfold strip.
  assert (El : lstrip (join (lit " ") (w :: ws)) = join (lit " ") (w :: ws)).
  { destruct w as [|c w]; [congruence|]. apply nospace_cons in Hw as [Hc _].
    destruct ws; simpl; now rewrite Hc. }
  rewrite El. clear El H.
  induction ws as [|w' ws IH] in w, Hne, Hw, Hws |- *.
  - simpl. now apply rstrip_nospace.
  - rewrite join_cons2. inversion Hws as [|? ? [Hne' Hw'] Hws']; subst.
    rewrite rstrip_app. change (lit " " ++ ?x) with ([" "%char] ++ x).
    rewrite rstrip_app, (IH w' Hne' Hw' Hws').
    destruct (join (lit " ") (w' :: ws)) as [|x r] eqn:E.
    + exfalso. apply (join_nil_inv (lit " ") (w' :: ws)) in E; [discriminate|assumption].
    + reflexivity.
Qed.

(** X4: [_single_line] is idempotent, keeps the words of its argument, and
    returns a text without whitespace at the ends whose only whitespace
    characters are single spaces, so that it holds no line break. *)
Theorem single_line_spec (value : str) :
  _single_line (_single_line value) = _single_line value
  /\ split (_single_line value) = split value
  /\ strip (_single_line value) = _single_line value
  /\ (forall c, In c (_single_line value) -> isspace c = true -> c = " "%char)
  /\ ~ In newline (_single_line value).
Proof.
  rewrite !single_line_collapse.
  split; [apply collapse_idempotent|].
  split; [apply split_join, split_words|].
  split; [apply join_words_strip, split_words|].
  split; [apply join_words_chars, split_words|].
  intros H. apply (join_words_chars _ (split_words value)) in H; [discriminate | reflexivity].
Qed.

(** X5: a ticket summary made by [summarize] is a single line: it has no
    whitespace at the ends, [_single_line] leaves it as it is, its only
    whitespace characters are spaces and it holds no line break. *)
Theorem summarize_single_line (prompt : str) :
  strip (SummaryAgent.summarize prompt) = SummaryAgent.summarize prompt
  /\ _single_line (SummaryAgent.summarize prompt) = SummaryAgent.summarize prompt
  /\ (forall c, In c (SummaryAgent.summarize prompt) -> isspace c = true -> c = " "%char)
  /\ ~ In newline (SummaryAgent.summarize prompt).
Proof.
  pose proof (summarize_collapsed prompt) as E.
  split; [rewrite <- E; apply join_words_strip, split_words|].
  split; [rewrite single_line_collapse; exact E|].
  split.
  - rewrite <- E. apply join_words_chars, split_words.
  - rewrite <- E. intros H.
    apply (join_words_chars _ (split_words _)) in H; [discriminate | reflexivity].
Qed.

(** X6: the output that [_run_streaming] returns is never empty and has no
    whitespace at the ends; when every line read from the process is
    blank it is the text [(No output)]. *)
Theorem buffered_output_spec (lines : list str) :
  buffered_output lines <> []
  /\ strip (buffered_output lines) = buffered_output lines
  /\ (forallb (fun line => forallb isspace line) lines = true ->
      buffered_output lines = lit "(No output)").
Proof.
  unfold buffered_output. cbv zeta.
  set (joined := join [newline] (map (rstrip_char newline) lines)).
  split; [|split].
  - destruct (strip joined) eqn:E; simpl; discriminate.
  - destruct (strip joined) eqn:E; cbn [truthy]; [reflexivity|].
    rewrite <- E. apply strip_idempotent.
  - intros H.
    assert (Hj : forallb isspace joined = true).
    { subst joined. induction lines as [|l ls IH]; [reflexivity|].
      simpl in H. apply andb_true_iff in H as [Hl Hls].
      assert (Hr : forallb isspace (rstrip_char newline l) = true).
      { clear - Hl. induction l as [|c l IHl]; [reflexivity|].
        simpl in Hl. apply andb_true_iff in Hl as [Hc Hl].
        simpl. specialize (IHl Hl).
        destruct (rstrip_char newline l) as [|x r].
        - destruct (Ascii.eqb c newline); simpl; [reflexivity | now rewrite Hc].
        - simpl in *. now rewrite Hc. }
      cbn [map]. destruct ls as [|l' ls']; [exact Hr|].
      cbn [map] in *. rewrite join_cons2, !forallb_app, Hr, (IH Hls). reflexivity. }
    assert (Hs : strip joined = []).
    { assert (E := split_strip joined). rewrite (split_allspace joined Hj) in E.
      destruct (strip_head joined) as [E0 | (c & r & E0 & Hc)]; [assumption|].
      rewrite E0 in E. exfalso. now apply (split_head_nonspace c r Hc). }
    now rewrite Hs.
Qed.

(** ** Extracted ids *)

Lemma token_colon_exact d : cset_mem token_colon d = true -> token_char d = true.
Proof. ascii_cases d; vm_compute; intros; first [reflexivity | discriminate]. Qed.
Lemma token_exact d : cset_mem token d = true -> token_char d = true.
Proof. ascii_cases d; vm_compute; intros; first [reflexivity | discriminate]. Qed.
Lemma hex_exact d : cset_mem hex d = true -> token_char d = true.
Proof. ascii_cases d; vm_compute; intros; first [reflexivity | discriminate]. Qed.
Lemma hex_dash_exact d : cset_mem hex_dash d = true -> token_char d = true.
Proof. ascii_cases d; vm_compute; intros; first [reflexivity | discriminate]. Qed.
Lemma dash_exact d :
  Ascii.eqb (lower_char "-"%char) (lower_char d) = true -> token_char d = true.
Proof. ascii_cases d; vm_compute; intros; first [reflexivity | discriminate]. Qed.

Lemma patterns_group_tokens :
  Forall (fun p => Forall (item_within token_char) (group p)) patterns.
Proof.
  unfold patterns.
  repeat (apply Forall_cons || apply Forall_nil); simpl;
    repeat (apply Forall_cons || apply Forall_nil); simpl;
    auto using token_colon_exact, token_exact, hex_exact, hex_dash_exact, dash_exact.
Qed.

Lemma first_match_tokens ps output :
  Forall group_visible ps ->
  Forall (fun p => Forall (item_within token_char) (group p)) ps ->
  forallb token_char (first_match ps output) = true.
Proof.
  induction ps as [|p ps IH]; intros Hv Ht; [reflexivity|].
  inversion Hv as [|? ? Hv1 Hv2]; inversion Ht as [|? ? Ht1 Ht2]; subst.
  simpl. destruct (search p output) as [cap|] eqn:E; [|now apply IH].
  destruct (search_capture p output cap Hv1 E) as [_ ->].
  now destruct (search_from_sound token_char p output Ht1 None cap E).
Qed.

(** X7: whatever the output, the session id that [extract_session_id]
    returns holds no whitespace, quote, backslash, dollar sign, backquote
    or semicolon, and each of its ASCII characters is a letter, a digit, a
    dot, an underscore, a colon or a hyphen.  (Under [re.IGNORECASE] four
    letters outside ASCII also stand for [k], [s] and [i]; the strings here
    end at code 255 and hold none of them, which is why the second part
    speaks of ASCII characters only.) *)
Theorem extract_session_id_chars (output : str) :
  (forall c, In c (extract_session_id output) ->
     isspace c = false /\ c <> dquote /\ c <> squote /\ c <> "\"%char
     /\ c <> "$"%char /\ c <> "`"%char /\ c <> ";"%char)
  /\ (forall c, In c (extract_session_id output) -> code c < 128 ->
        token_char c = true).
Proof.
  assert (H : forallb token_char (extract_session_id output) = true)
    by (apply first_match_tokens; [apply patterns_group_visible | apply patterns_group_tokens]).
  rewrite forallb_forall in H. split.
  - intros c Hc. specialize (H c Hc). clear - H.
    revert H. ascii_cases c; vm_compute; intros H; try discriminate;
      repeat split; discriminate.
  - intros c Hc _. now apply H.
Qed.

(** ** Building and the choice of the mode *)
Lemma split_nonempty c s : In c s -> isspace c = false -> split s <> [].
Proof.
  intros Hin Hc E. assert (H := split_concat s). rewrite E in H. simpl in H.
  assert (Hf : In c (filter (fun c => negb (isspace c)) s))
    by (apply filter_In; split; [assumption | now rewrite Hc]).
  rewrite <- H in Hf. contradiction.
Qed.

Lemma prefers_tty_two_parts a b :
  split a <> [] -> split b <> [] ->
  _command_prefers_tty (a ++ " "%char :: b) = false.
Proof.
  intros Ha Hb. unfold _command_prefers_tty. cbv zeta.
  destruct (_is_noninteractive_agent_command _); [reflexivity|].
  rewrite split_lower, split_strip, length_map, split_app_space by reflexivity.
  rewrite length_app. destruct (split a); [congruence|]. destruct (split b); [congruence|].
  simpl. rewrite Nat.add_succ_r. reflexivity.
Qed.

Lemma split_quoted_tail z prompt : split (z ++ quoted prompt) <> [].
Proof.
  apply (split_nonempty dquote); [|reflexivity].
  unfold quoted. rewrite !app_assoc. apply in_or_app. right. now left.
Qed.

(** X8: a command template without the placeholder [{prompt}] that has at
    least one word is never run in terminal mode at first: the command
    built from it has the quoted prompt as a further part, so
    [_command_prefers_tty] is false for it. *)
Theorem build_command_capture_mode (self : agent) (command prompt session_id : str) :
  ~ occurs (lit "{prompt}") command ->
  split command <> [] ->
  _command_prefers_tty (_build_command self command prompt session_id) = false.
Proof.
  intros Hp Hc. apply contains_false in Hp. unfold _build_command. rewrite Hp.
  fold (quoted prompt).
  destruct (auto_close_after_task self
            && negb (_is_noninteractive_agent_command (lower (strip command))));
    destruct (truthy session_id).
  - change (lit " exec resume " ++ ?x) with (" "%char :: lit "exec resume " ++ x).
    apply prefers_tty_two_parts; [assumption|].
    rewrite !app_assoc. apply split_quoted_tail.
  - change (lit " exec " ++ ?x) with (" "%char :: lit "exec " ++ x).
    apply prefers_tty_two_parts; [assumption|]. apply split_quoted_tail.
  - change (lit " resume " ++ ?x) with (" "%char :: lit "resume " ++ x).
    apply prefers_tty_two_parts; [assumption|].
    rewrite !app_assoc. apply split_quoted_tail.
  - change (lit " " ++ ?x) with (" "%char :: [] ++ x).
    apply prefers_tty_two_parts; [assumption|]. apply split_quoted_tail.
Qed.

Lemma build_command_capture_mode_witness :
  _command_prefers_tty (_build_command (new false) (lit "codex") (lit "hi") []) = false.
Proof.
  apply build_command_capture_mode.
  - intros H. apply contains_spec in H. vm_compute in H. discriminate.
  - vm_compute. discriminate.
Defined.

(** A template that is only the placeholder runs a one-word prompt in the
    terminal. *)
Example placeholder_only_prefers_tty :
  _command_prefers_tty (_build_command (new true) (lit "{prompt}") (lit "codex") []) = true.
Proof. reflexivity. Qed.

(** ** Results of the engine *)

Lemma truncate_length text : (Z.of_nat (length (_truncate text)) <= 49000)%Z.
Proof.
  unfold _truncate. cbv zeta.
  destruct (Z.leb_spec (Z.of_nat (length text)) 49000) as [H|H]; [assumption|].
  change (49000 - 15)%Z with 48985%Z.
  rewrite length_app, length_firstn.
  change (length (newline :: lit "...[truncated]")) with 15. lia.
Qed.

Lemma decide_range return_code output :
  (decide return_code output = lit "Testing"
   \/ decide return_code output = lit "Blocked"
   \/ decide return_code output = lit "Completed")
  /\ (return_code <> 0%Z -> decide return_code output = lit "Blocked").
Proof.
  unfold decide. destruct (Z.eqb_spec return_code 0) as [->|Hrc]; cbn [negb].
  - split; [|congruence].
    destruct (contains _ _); [now left|].
    destruct (contains _ _); [right; now left|].
    destruct (contains _ _); right; now right.
  - split; [right; now left | reflexivity].
Qed.

Lemma pick_session_id_keeps previous latest fallback :
  fallback <> [] -> _pick_session_id previous latest fallback <> [].
Proof.
  intros H. unfold _pick_session_id.
  destruct (truthy latest && negb (str_eqb latest previous)) eqn:E.
  - apply andb_true_iff in E as [E _]. now apply truthy_true.
  - apply truthy_true in H. now rewrite H, <- truthy_true.
Qed.

Section ResultFacts.
Context {World : Type} (env : Env World).

Lemma run_with_tty_result self built session_id pre (st st' : state World) r :
  _run_with_tty env self built session_id pre st = (Ok r, st') ->
  result_ok session_id r.
Proof.
  unfold _run_with_tty, bind, log, call, gets, ret, raise. cbn [sheet world trace].
  destruct (subprocess_run env built (timeout_seconds self) (world st)) as [[rc| |] w];
    cbn [sheet world trace]; [| |discriminate].
  - match goal with
    | |- context [if truthy ?d then _ else _] => destruct (truthy d) eqn:Ed
    end; cbv beta iota; intros H; inversion H; subst; clear H; unfold result_ok;
      cbn [thoughts status return_code ExecutionAgent.session_id];
      (split; [apply truncate_length|]); (split; [apply decide_range|]);
      (split; [apply decide_range|]); intros Hs; now apply pick_session_id_keeps.
  - intros H; inversion H; subst; clear H. unfold result_ok.
    cbn [thoughts status return_code ExecutionAgent.session_id].
    split; [apply Z.leb_le; reflexivity|]. split; [right; now left|].
    split; [reflexivity | auto].
Qed.

Lemma run_result self command prompt session_id (st st' : state World) r :
  ExecutionAgent.run env self command prompt session_id st = (Ok r, st') ->
  result_ok session_id r.
Proof.
  unfold ExecutionAgent.run.
  set (built := _build_command self command prompt session_id).
  unfold bind at 1. unfold log at 1. cbv iota beta.
  unfold bind at 1. unfold gets at 1. cbv iota beta.
  cbn [world sheet trace].
  destruct (_command_prefers_tty built); [apply run_with_tty_result|].
  unfold bind at 1, catch_timeout, run_captured.
  unfold bind at 1, _run_streaming.
  unfold bind at 1. unfold log at 1. cbv iota beta.
  unfold bind at 1, call. cbn [world sheet trace].
  destruct (popen_streaming env built (timeout_seconds self) (world st))
    as [[lines rc|lines|] w]; cbn [fst].
  - unfold ret at 1. cbv iota beta.
    destruct (_requires_tty_fallback rc (buffered_output lines)).
    + unfold bind at 1.
      match goal with
      | |- context [_run_with_tty env self built session_id ?pre ?s] =>
          pose proof (run_with_tty_result self built session_id pre s) as Ht;
          destruct (_run_with_tty env self built session_id pre s) as [[r0|e] s'] eqn:E
      end.
      * unfold ret. intros H; inversion H; subst; clear H. eapply Ht. reflexivity.
      * destruct e; try discriminate.
        unfold ret. cbn. intros H; inversion H; subst; clear H. unfold result_ok.
        cbn [thoughts status return_code ExecutionAgent.session_id].
        split; [apply Z.leb_le; reflexivity|]. split; [right; now left|].
        split; [reflexivity | auto].
    + unfold bind at 1, gets at 1. cbv iota beta. cbn [world sheet trace].
      match goal with
      | |- context [if truthy ?x then gets _ else ret _] => destruct (truthy x)
      end; unfold bind, gets, ret; cbn [world sheet trace];
        intros H; inversion H; subst; clear H; unfold result_ok;
        cbn [thoughts status return_code ExecutionAgent.session_id];
        (split; [apply truncate_length|]); (split; [apply decide_range|]);
        (split; [apply decide_range|]); intros Hs;
        match goal with
        | |- (if truthy ?x then _ else _) <> [] =>
            destruct (truthy x) eqn:Ex; [now apply truthy_true | assumption]
        end.
  - unfold raise, ret. cbn. intros H; inversion H; subst; clear H. unfold result_ok.
    cbn [thoughts status return_code ExecutionAgent.session_id].
    split; [apply Z.leb_le; reflexivity|]. split; [right; now left|].
    split; [reflexivity | auto].
  - unfold raise. cbn. discriminate.
Qed.

End ResultFacts.

(** X9: the thoughts of every result that [ExecutionAgent.run] returns have
    at most 49000 characters, in captured mode, in terminal mode and
    after a timeout. *)
Theorem run_thoughts_bounded {World : Type} (env : Env World) (self : agent)
    (command prompt session_id : str) (st st' : state World) (r : ExecutionResult) :
  ExecutionAgent.run env self command prompt session_id st = (Ok r, st') ->
  (Z.of_nat (length (thoughts r)) <= 49000)%Z.
Proof. intros H. now destruct (run_result env _ _ _ _ _ _ _ H). Qed.

(** X10: the status of every result that [ExecutionAgent.run] returns is
    Testing, Blocked or Completed, and it is Blocked whenever the return
    code is not zero. *)
Theorem run_status_range {World : Type} (env : Env World) (self : agent)
    (command prompt session_id : str) (st st' : state World) (r : ExecutionResult) :
  ExecutionAgent.run env self command prompt session_id st = (Ok r, st') ->
  (status r = lit "Testing" \/ status r = lit "Blocked" \/ status r = lit "Completed")
  /\ (return_code r <> 0%Z -> status r = lit "Blocked").
Proof. intros H. destruct (run_result env _ _ _ _ _ _ _ H) as (_ & H1 & H2 & _). auto. Qed.

(** X11: a run that was given a session id returns a result with a session
    id: the id found in the output or in the session store, or else the
    one it was given. *)
Theorem run_keeps_session {World : Type} (env : Env World) (self : agent)
    (command prompt session_id : str) (st st' : state World) (r : ExecutionResult) :
  ExecutionAgent.run env self command prompt session_id st = (Ok r, st') ->
  session_id <> [] ->
  ExecutionAgent.session_id r <> [].
Proof. intros H. destruct (run_result env _ _ _ _ _ _ _ H) as (_ & _ & _ & H3). auto. Qed.

Lemma run_thoughts_bounded_witness :
  exists r st',
    ExecutionAgent.run done_env (new true) (lit "codex") (lit "hi") (lit "s1")
      (initial_state []) = (Ok r, st')
    /\ (Z.of_nat (length (thoughts r)) <= 49000)%Z.
Proof.
  eexists. eexists. split; [vm_compute; reflexivity|].
  eapply (run_thoughts_bounded done_env (new true) (lit "codex") (lit "hi") (lit "s1")
            (initial_state [])).
  vm_compute. reflexivity.
Defined.

Lemma run_status_range_witness :
  exists r st',
    ExecutionAgent.run hanging_env (new true) (lit "codex") (lit "hi") (lit "s1")
      (initial_state []) = (Ok r, st')
    /\ (status r = lit "Testing" \/ status r = lit "Blocked" \/ status r = lit "Completed")
    /\ (return_code r <> 0%Z -> status r = lit "Blocked").
Proof.
  eexists. eexists. split; [vm_compute; reflexivity|].
  eapply (run_status_range hanging_env (new true) (lit "codex") (lit "hi") (lit "s1")
            (initial_state [])).
  vm_compute. reflexivity.
Defined.

Lemma run_keeps_session_witness :
  exists r st',
    ExecutionAgent.run no_tty_env (new true) (lit "codex") (lit "hi") (lit "s1")
      (initial_state []) = (Ok r, st')
    /\ ExecutionAgent.session_id r <> [].
Proof.
  eexists. eexists. split; [vm_compute; reflexivity|].
  eapply (run_keeps_session no_tty_env (new true) (lit "codex") (lit "hi") (lit "s1")
            (initial_state [])); [vm_compute; reflexivity|].
  discriminate.
Defined.

(** ** Cells *)
Lemma row_at_set_cell_other g row col v row' :
  row <> row' -> row_at (set_cell g row col v) row' = row_at g row'.
Proof.
  intros H. destruct row as [|i]; [reflexivity|].
  destruct row' as [|i']; [reflexivity|]. unfold set_cell, row_at.
  apply nth_set_nth_other. congruence.
Qed.

Lemma cell_set_cell g row col v row' col' :
  cell (set_cell g row col v) row' col'
  = if (row =? row') && (col =? col') && (1 <=? row) then v else cell g row' col'.
Proof.
  destruct (Nat.eqb_spec row row') as [<-|Hr]; cbn [andb].
  - destruct (Nat.eqb_spec col col') as [<-|Hc]; cbn [andb].
    + destruct (Nat.leb_spec 1 row) as [H|H]; [now apply cell_set_cell_same|].
      replace row with 0 by lia. reflexivity.
    + now apply cell_set_cell_other.
  - unfold cell. now rewrite row_at_set_cell_other.
Qed.

Lemma cell_set_cells vs : forall g row col row' col',
  cell (set_cells g row col vs) row' col'
  = if (row =? row') && (col <=? col') && (col' <? col + length vs) && (1 <=? row)
    then nth (col' - col) vs [] else cell g row' col'.
Proof.
  induction vs as [|v vs IH]; intros g row col row' col'.
  - simpl. destruct (row =? row'), (col <=? col') eqn:E1, (col' <? col + 0) eqn:E2;
      cbn [andb]; try reflexivity.
    apply Nat.leb_le in E1. apply Nat.ltb_lt in E2. lia.
  - cbn [set_cells length]. rewrite IH, cell_set_cell.
    destruct (Nat.eqb_spec row row') as [<-|Hr]; cbn [andb]; [|reflexivity].
    destruct (Nat.leb_spec 1 row) as [H1|H1]; rewrite ?andb_true_r, ?andb_false_r;
      [|reflexivity].
    destruct (Nat.leb_spec (S col) col') as [Ha|Ha];
      destruct (Nat.leb_spec col col') as [Hb|Hb]; try lia; cbn [andb].
    + replace (col' <? S col + length vs) with (col' <? col + S (length vs))
        by (apply f_equal; lia).
      destruct (col' <? col + S (length vs)); [|
        destruct (Nat.eqb_spec col col'); [lia | reflexivity]].
      replace (col' - col) with (S (col' - S col)) by lia. reflexivity.
    + assert (col = col') by lia. subst col'.
      rewrite Nat.eqb_refl, Nat.sub_diag.
      replace (col <? col + S (length vs)) with true
        by (symmetry; apply Nat.ltb_lt; lia).
      reflexivity.
    + destruct (Nat.eqb_spec col col'); [lia | reflexivity].
Qed.

(** ** Writing and reading a row *)

Lemma field_row_state g row col :
  1 <= col <= 6 -> field col (row_state g row) = cell g row col.
Proof.
  intros H. destruct (row_state_fields g row) as (H1 & H2 & H3 & H4 & H5 & H6).
  destruct col as [|[|[|[|[|[|[|col]]]]]]]; try lia; assumption.
Qed.

Lemma row_state_row_at g g' row :
  row_at g' row = row_at g row -> row_state g' row = row_state g row.
Proof. intros H. unfold row_state, values_get_row. now rewrite H. Qed.



(** ** Rows the driver passes over *)
(** X13: a turn of the loop on a row with a prompt, a ticket and a status
    that is neither Approved nor Ongoing reads the row and does nothing
    else: no write, no execution, the counters unchanged, and the next
    row is the one below. *)
Theorem settled_row_passed_over {World : Type} (env : Env World)
    (execution_agent : agent) (command prefix : str) (c : cursor) (st : state World) :
  let row := row_state (sheet st) (row_number c) in
  Sheet.prompt row <> [] -> Sheet.ticket row <> [] ->
  strip (Sheet.status row) <> lit "Approved" ->
  strip (Sheet.status row) <> lit "Ongoing" ->
  iteration env execution_agent command prefix c st
  = (Ok (inr {| row_number := row_number c + 1; executed := executed c;
                archived := archived c |}),
     {| sheet := sheet st; world := world st;
        trace := trace st ++ [EvReadRow (row_number c)] |}).
Proof.
  cbv zeta. intros Hp Ht Ha Ho.
  unfold iteration. rewrite (bind_ok _ _ _ _ _ (read_row_run _ _)).
  apply truthy_true in Hp, Ht. rewrite Hp, Ht. cbn [negb].
  destruct (str_eqb _ (lit "Approved")) eqn:E1; [apply str_eqb_eq in E1; congruence|].
  destruct (str_eqb _ (lit "Ongoing")) eqn:E2; [apply str_eqb_eq in E2; congruence|].
  reflexivity.
Qed.

Lemma settled_row_passed_over_witness :
  iteration done_env (new true) (lit "codex") (lit "PFX") start
    (initial_state (one_task (task_row "Ship" "Ship" "Completed" "more" "" "s9")))
  = (Ok (inr {| row_number := 3; executed := 0; archived := 0 |}),
     {| sheet := one_task (task_row "Ship" "Ship" "Completed" "more" "" "s9");
        world := tt; trace := [EvReadRow 2] |}).
Proof.
  apply (settled_row_passed_over done_env (new true) (lit "codex") (lit "PFX") start
           (initial_state (one_task (task_row "Ship" "Ship" "Completed" "more" "" "s9"))));
    vm_compute; discriminate.
Defined.

(** X14: when the row of the cursor has no prompt the loop returns at once,
    with the counters as they are and that row as [stopped_at_row]; it has
    read the row and written nothing. *)
Theorem empty_prompt_stops {World : Type} (env : Env World)
    (execution_agent : agent) (command prefix : str) (c : cursor) (st : state World)
    (fuel : nat) :
  Sheet.prompt (row_state (sheet st) (row_number c)) = [] ->
  loop env (S fuel) execution_agent command prefix c st
  = (Ok (Some {| executed_rows := executed c; archived_rows := archived c;
                 stopped_at_row := row_number c |}),
     {| sheet := sheet st; world := world st;
        trace := trace st ++ [EvReadRow (row_number c)] |}).
Proof.
  intros Hp. cbn [loop]. unfold bind at 1. unfold iteration.
  rewrite (bind_ok _ _ _ _ _ (read_row_run _ _)).
  now rewrite Hp.
Qed.

Lemma empty_prompt_stops_witness :
  loop done_env 1 (new true) (lit "codex") [] start
    (initial_state (one_task (task_row "" "stale" "Ongoing" "x" "" "s1")))
  = (Ok (Some {| executed_rows := 0; archived_rows := 0; stopped_at_row := 2 |}),
     {| sheet := one_task (task_row "" "stale" "Ongoing" "x" "" "s1");
        world := tt; trace := [EvReadRow 2] |}).
Proof.
  apply (empty_prompt_stops done_env (new true) (lit "codex") [] start
           (initial_state (one_task (task_row "" "stale" "Ongoing" "x" "" "s1"))) 0).
  reflexivity.
Defined.

Lemma get_properties_run {World : Type} (st : state World) :
  get_properties st
  = (Ok (cell (sheet st) (CONFIG_START_ROW + 1) 0,
         cell (sheet st) (CONFIG_START_ROW + 3) 0,
         cell (sheet st) (CONFIG_START_ROW + 5) 0), st).
Proof. reflexivity. Qed.

(** X15: with an empty cell A5 and no command in the local configuration,
    [MintPipeline.run] raises [ValueError] before it reads any task row:
    the sheet, the world and the trace are as before. *)
Theorem empty_command_refused {World : Type} (env : Env World)
    (config : sheet_properties) (fuel : nat) (st : state World) :
  cell (sheet st) 5 0 = [] ->
  default_command config = None \/ default_command config = Some [] ->
  exists msg,
    MintPipeline.run env config fuel st = (Raise (ValueError msg), st).
Proof.
  intros Hcell Hcfg. unfold MintPipeline.run.
  rewrite (bind_ok _ _ _ _ _ (get_properties_run st)).
  change (cell (sheet st) (CONFIG_START_ROW + 3) 0) with (cell (sheet st) 5 0).
  rewrite Hcell. unfold or_else at 2. cbn [truthy].
  destruct Hcfg as [-> | ->]; cbn [truthy negb]; unfold raise; eexists; reflexivity.
Qed.

Lemma empty_command_refused_witness :
  exists msg,
    MintPipeline.run done_env no_defaults 10
      (initial_state (one_task (task_row "Fix bug" "" "" "" "" "")))
    = (Raise (ValueError msg),
       initial_state (one_task (task_row "Fix bug" "" "" "" "" ""))).
Proof.
  apply (empty_command_refused done_env no_defaults 10
           (initial_state (one_task (task_row "Fix bug" "" "" "" "" ""))));
    [reflexivity | now left].
Defined.

(** ** The archive as a function of the sheet *)
Lemma archive_and_shift_sheet {World : Type} row (st : state World) :
  archive_and_shift row st
  = (Ok tt,
     {| sheet := archive_sheet (sheet st) row; world := world st;
        trace := trace st ++
          [ EvArchive row; EvReadRow row;
            EvUpdateRow row
              [ (lit "J", Sheet.ticket (row_state (sheet st) row));
                (lit "K", Sheet.prompt (row_state (sheet st) row));
                (lit "L", _single_line (Sheet.thoughts (row_state (sheet st) row))) ] ] |}).
Proof.
  unfold archive_and_shift, archive_sheet, archive_written.
  unfold bind at 1. unfold log at 1. cbv iota beta.
  unfold bind at 1. rewrite read_row_run.
  unfold bind at 1. unfold update_row_columns.
  unfold bind at 1. unfold log at 1. cbv iota beta.
  unfold bind at 1. unfold gets at 1. cbv iota beta.
  cbn [sheet world trace].
  destruct column_letters as (HC & HD & HF & HG & HJ & HK & HL).
  cbn [write_updates]. rewrite HJ, HK, HL.
  unfold put_sheet at 1. cbn [sheet world trace].
  unfold bind at 1. unfold gets at 1. cbv iota beta.
  unfold bind at 1. unfold gets at 1. cbv iota beta.
  cbn [sheet world trace]. rewrite <- !app_assoc. cbn [app].
  match goal with
  | |- context [match ?r with [] => _ | _ :: _ => _ end] => destruct r
  end; unfold put_sheet; cbn [sheet world trace]; reflexivity.
Qed.

Lemma cell_set_block rows : forall g row col row' col',
  1 <= row ->
  cell (set_block g row col rows) row' col'
  = if (row <=? row') && (row' <? row + length rows)
       && (col <=? col') && (col' <? col + length (nth (row' - row) rows []))
    then nth (col' - col) (nth (row' - row) rows []) []
    else cell g row' col'.
Proof.
  induction rows as [|vs rows IH]; intros g row col row' col' Hrow.
  - simpl. destruct (row <=? row') eqn:E1, (row' <? row + 0) eqn:E2; cbn [andb];
      try reflexivity.
    apply Nat.leb_le in E1. apply Nat.ltb_lt in E2. lia.
  - cbn [set_block length]. rewrite IH by lia. rewrite cell_set_cells.
    destruct (Nat.eqb_spec row row') as [<-|Hne].
    + replace (S row <=? row) with false by (symmetry; apply Nat.leb_gt; lia).
      rewrite Nat.leb_refl, Nat.sub_diag. cbn [andb nth].
      replace (row <? row + S (length rows)) with true
        by (symmetry; apply Nat.ltb_lt; lia).
      replace (1 <=? row) with true by (symmetry; apply Nat.leb_le; lia).
      cbn [andb]. now rewrite andb_true_r.
    + cbn [andb].
      destruct (Nat.leb_spec (S row) row') as [H1|H1].
      * replace (row <=? row') with true by (symmetry; apply Nat.leb_le; lia).
        replace (row' <? S row + length rows) with (row' <? row + S (length rows))
          by (apply f_equal; lia).
        replace (row' - row) with (S (row' - S row)) by lia. cbn [nth andb].
        reflexivity.
      * replace (row <=? row') with false by (symmetry; apply Nat.leb_gt; lia).
        reflexivity.
Qed.

(** ** The rows taken by the compaction *)

Lemma padded7_length item : 7 <= length (padded7 item).
Proof. unfold padded7. rewrite length_app, repeat_length. lia. Qed.

Lemma nth_padded7 r c : c < 7 -> nth c (padded7 (shift_item r)) [] = nth c r [].
Proof.
  intros H. unfold padded7, shift_item.
  now rewrite nth_pad, nth_trim_cells, nth_firstn_lt.
Qed.

Lemma firstn7_nth (l : cells) :
  7 <= length l ->
  firstn 7 l = map (fun i => nth i l []) (seq 0 7).
Proof.
  intros H.
  destruct l as [|a0 [|a1 [|a2 [|a3 [|a4 [|a5 [|a6 l]]]]]]]; simpl in H; try lia.
  reflexivity.
Qed.

Lemma shift_test r :
  let padded := padded7 (shift_item r) in
  negb (truthy (nth 0 padded [])) && negb (existsb truthy (skipn 1 (firstn 7 padded)))
  = row_blank r.
Proof.
  cbv zeta. rewrite (firstn7_nth _ (padded7_length _)).
  cbn [seq map skipn existsb]. rewrite !nth_padded7 by lia.
  unfold row_blank. cbn [seq forallb].
  rewrite !negb_orb. cbn [negb]. now rewrite !andb_true_r.
Qed.

Lemma shift_cols r :
  skipn 1 (firstn 7 (padded7 (shift_item r))) = row_b_to_g r.
Proof.
  rewrite (firstn7_nth _ (padded7_length _)).
  cbn [seq map skipn]. rewrite !nth_padded7 by lia. reflexivity.
Qed.

Lemma rows_to_shift_cons item rest :
  rows_to_shift (item :: rest)
  = if negb (truthy (nth 0 (padded7 item) []))
       && negb (existsb truthy (skipn 1 (firstn 7 (padded7 item))))
    then [] else skipn 1 (firstn 7 (padded7 item)) :: rows_to_shift rest.
Proof. reflexivity. Qed.

Lemma rows_to_shift_map l :
  rows_to_shift (map shift_item l)
  = match l with
    | [] => []
    | r :: l' =>
        if row_blank r then [] else row_b_to_g r :: rows_to_shift (map shift_item l')
    end.
Proof.
  destruct l as [|r l']; [reflexivity|].
  cbn [map]. rewrite rows_to_shift_cons.
  rewrite (shift_test r), shift_cols. reflexivity.
Qed.

Lemma row_blank_nil : row_blank [] = true.
Proof. reflexivity. Qed.

Lemma rows_to_shift_rows l :
  let rows := rows_to_shift (map shift_item l) in
  (forall i, i < length rows ->
     row_blank (nth i l []) = false /\ nth i rows [] = row_b_to_g (nth i l []))
  /\ row_blank (nth (length rows) l []) = true.
Proof.
  cbv zeta. induction l as [|r l IH]; rewrite rows_to_shift_map.
  - split; [simpl; intros; lia | reflexivity].
  - destruct (row_blank r) eqn:E.
    + split; [simpl; intros; lia | exact E].
    + destruct IH as [IH1 IH2]. split.
      * intros [|i] Hi; [now split|]. cbn [nth]. apply IH1. simpl in Hi. lia.
      * exact IH2.
Qed.

(** Trailing rows that the API leaves out are empty, so the loop stops at
    the same row with or without them. *)
Lemma trim_rows_nil rows : trim_rows rows = [] -> forall r, In r rows -> r = [].
Proof.
  induction rows as [|r rows IH]; intros H x Hx; [destruct Hx|].
  simpl in H. destruct (trim_rows rows) eqn:E; [|discriminate].
  destruct r; [|discriminate]. destruct Hx as [<-|Hx]; [reflexivity|]. now apply IH.
Qed.

Lemma rows_to_shift_empty rows :
  (forall r, In r rows -> r = []) -> rows_to_shift rows = [].
Proof.
  destruct rows as [|r rows]; [reflexivity|]. intros H.
  rewrite (H r (or_introl eq_refl)). reflexivity.
Qed.

Lemma rows_to_shift_trim rows : rows_to_shift (trim_rows rows) = rows_to_shift rows.
Proof.
  induction rows as [|r rows IH]; [reflexivity|].
  cbn [trim_rows]. destruct (trim_rows rows) as [|t ts] eqn:E.
  - pose proof (trim_rows_nil rows E) as Hn.
    destruct r as [|c r]; [reflexivity|].
    rewrite (rows_to_shift_cons (c :: r) []), (rows_to_shift_cons (c :: r) rows).
    rewrite (rows_to_shift_empty rows Hn). reflexivity.
  - rewrite (rows_to_shift_cons r (t :: ts)), (rows_to_shift_cons r rows).
    now rewrite IH.
Qed.

Lemma blank_row_row_at g row : blank_row g row = row_blank (row_at g row).
Proof. reflexivity. Qed.

Lemma nth_skipn_grid (g : grid) n i : nth i (skipn n g) [] = row_at g (n + 1 + i).
Proof.
  replace (n + 1 + i) with (S (n + i)) by lia. cbn [row_at].
  revert g; induction n as [|n IH]; intros g; [reflexivity|].
  destruct g as [|r g]; [now rewrite skipn_nil, !nth_nil|]. apply IH.
Qed.

Lemma rows_to_shift_values g row :
  rows_to_shift (values_get_from g (row + 1) 7)
  = rows_to_shift (map shift_item (skipn row g)).
Proof.
  unfold values_get_from. rewrite rows_to_shift_trim.
  replace (row + 1 - 1) with row by lia. reflexivity.
Qed.

Lemma nth_row_b_to_g r c : c < 6 -> nth c (row_b_to_g r) [] = nth (c + 1) r [].
Proof.
  intros H. unfold row_b_to_g. cbn [seq map].
  destruct c as [|[|[|[|[|[|c]]]]]]; try lia; reflexivity.
Qed.

Lemma row_b_to_g_length r : length (row_b_to_g r) = 6.
Proof. reflexivity. Qed.

(** [rows_below] is the distance to the first blank row. *)
Lemma rows_below_spec g row :
  (forall i, i < rows_below g row -> blank_row g (row + 1 + i) = false)
  /\ blank_row g (row + 1 + rows_below g row) = true.
Proof.
  unfold rows_below. rewrite rows_to_shift_values.
  destruct (rows_to_shift_rows (skipn row g)) as [H1 H2]. split.
  - intros i Hi. rewrite blank_row_row_at, <- nth_skipn_grid. now apply H1.
  - now rewrite blank_row_row_at, <- nth_skipn_grid.
Qed.

Lemma rows_below_rows g row i :
  i < rows_below g row ->
  nth i (rows_to_shift (values_get_from g (row + 1) 7)) []
  = row_b_to_g (row_at g (row + 1 + i)).
Proof.
  unfold rows_below. rewrite rows_to_shift_values. intros Hi.
  destruct (rows_to_shift_rows (skipn row g)) as [H1 _].
  rewrite <- nth_skipn_grid. now apply H1.
Qed.

Lemma rows_below_unique g row k :
  (forall i, i < k -> blank_row g (row + 1 + i) = false) ->
  blank_row g (row + 1 + k) = true ->
  rows_below g row = k.
Proof.
  intros H1 H2. destruct (rows_below_spec g row) as [K1 K2].
  destruct (Nat.lt_trichotomy (rows_below g row) k) as [Hlt|[Heq|Hgt]].
  - rewrite (H1 _ Hlt) in K2. discriminate.
  - exact Heq.
  - rewrite (K1 _ Hgt) in H2. discriminate.
Qed.

Lemma blank_row_ext g g' row :
  row_at g' row = row_at g row -> blank_row g' row = blank_row g row.
Proof. intros H. now rewrite !blank_row_row_at, H. Qed.

(** ** The sheet after an archive *)
Ltac nat_cases :=
  repeat match goal with
  | |- context [Nat.eqb ?a ?b] => destruct (Nat.eqb_spec a b)
  | |- context [Nat.leb ?a ?b] => destruct (Nat.leb_spec a b)
  | |- context [Nat.ltb ?a ?b] => destruct (Nat.ltb_spec a b)
  end; cbn [andb]; try lia.

Lemma archive_written_row_at g row row' :
  row <> row' -> row_at (archive_written g row) row' = row_at g row'.
Proof.
  intros H. unfold archive_written. now rewrite !row_at_set_cell_other.
Qed.

Lemma archive_written_cell g row row' col :
  col < 9 -> cell (archive_written g row) row' col = cell g row' col.
Proof.
  intros H. unfold archive_written. rewrite !cell_set_cell.
  nat_cases; reflexivity.
Qed.

Lemma rows_below_written g row : rows_below (archive_written g row) row = rows_below g row.
Proof.
  destruct (rows_below_spec g row) as [K1 K2].
  apply rows_below_unique.
  - intros i Hi. rewrite (blank_row_ext g); [now apply K1|].
    apply archive_written_row_at. lia.
  - rewrite (blank_row_ext g); [exact K2|]. apply archive_written_row_at. lia.
Qed.

Lemma archive_sheet_unfold g row :
  archive_sheet g row
  = set_cells
      (set_block (archive_written g row) row 1
         (rows_to_shift (values_get_from (archive_written g row) (row + 1) 7)))
      (row + rows_below g row) 1 (repeat [] 6).
Proof.
  rewrite <- (rows_below_written g row). unfold archive_sheet, rows_below.
  fold (archive_written g row).
  destruct (rows_to_shift (values_get_from (archive_written g row) (row + 1) 7))
    as [|x xs].
  - cbn [set_block length]. now rewrite Nat.add_0_r.
  - cbv zeta. f_equal. cbn [length]. lia.
Qed.

Lemma archive_sheet_cell g row r c :
  1 <= row ->
  cell (archive_sheet g row) r c
  = if (row + rows_below g row =? r) && (1 <=? c) && (c <? 7) then []
    else if (row <=? r) && (r <? row + rows_below g row) && (1 <=? c) && (c <? 7)
    then cell g (r + 1) c
    else cell (archive_written g row) r c.
Proof.
  intros Hrow. rewrite archive_sheet_unfold, cell_set_cells, cell_set_block by assumption.
  cbn [repeat length]. change (1 + 6) with 7.
  replace (1 <=? row + rows_below g row) with true
    by (symmetry; apply Nat.leb_le; lia).
  rewrite andb_true_r.
  destruct ((row + rows_below g row =? r) && (1 <=? c) && (c <? 7)) eqn:E1.
  - apply andb_prop in E1 as [E1 E3]. apply andb_prop in E1 as [E1 E2].
    apply Nat.leb_le in E2. apply Nat.ltb_lt in E3.
    destruct c as [|[|[|[|[|[|[|c]]]]]]]; try lia; reflexivity.
  - destruct (Nat.leb_spec row r) as [H1|H1]; cbn [andb]; [|reflexivity].
    fold (rows_below (archive_written g row) row). rewrite rows_below_written.
    destruct (Nat.ltb_spec r (row + rows_below g row)) as [H2|H2]; cbn [andb];
      [|reflexivity].
    rewrite <- (rows_below_written g row) in H2.
    rewrite (rows_below_rows (archive_written g row) row (r - row)) by lia.
    rewrite row_b_to_g_length. change (1 + 6) with 7.
    destruct (Nat.leb_spec 1 c) as [H3|H3]; cbn [andb]; [|reflexivity].
    destruct (Nat.ltb_spec c 7) as [H4|H4]; [|reflexivity].
    rewrite nth_row_b_to_g by lia.
    replace (c - 1 + 1) with c by lia.
    replace (row + 1 + (r - row)) with (r + 1) by lia.
    rewrite archive_written_row_at by lia. reflexivity.
Qed.

(** ** What the archive does to the sheet *)
Lemma row_state_cells g row :
  row_state g row
  = {| Sheet.prompt := cell g row 1; Sheet.ticket := cell g row 2;
       Sheet.status := cell g row 3; Sheet.user_input := cell g row 4;
       Sheet.thoughts := cell g row 5; Sheet.session_id := cell g row 6 |}.
Proof.
  destruct (row_state_fields g row) as (H1 & H2 & H3 & H4 & H5 & H6).
  destruct (row_state g row); cbn in *. now subst.
Qed.

Lemma archive_written_area g row :
  1 <= row ->
  cell (archive_written g row) row 9 = cell g row 2
  /\ cell (archive_written g row) row 10 = cell g row 1
  /\ cell (archive_written g row) row 11 = _single_line (cell g row 5).
Proof.
  intros Hrow. destruct (row_state_fields g row) as (H1 & H2 & _ & _ & H5 & _).
  unfold archive_written. rewrite H1, H2, H5, !cell_set_cell.
  rewrite !Nat.eqb_refl.
  replace (1 <=? row) with true by (symmetry; apply Nat.leb_le; lia).
  cbn. repeat split.
Qed.

Lemma archive_sheet_wide g row r col :
  1 <= row -> 7 <= col ->
  cell (archive_sheet g row) r col = cell (archive_written g row) r col.
Proof.
  intros Hrow Hcol. rewrite archive_sheet_cell by assumption.
  replace (col <? 7) with false by (symmetry; apply Nat.ltb_ge; lia).
  now rewrite !andb_false_r.
Qed.

(** X16: [archive_and_shift] succeeds and records the row in the archive
    area: J, K and L of the row hold its ticket, its prompt and its
    thoughts on one line; no other cell from column H on is changed, and
    column A is not changed at all. *)
Theorem archive_records_row {World : Type} (row : nat) (st : state World) :
  1 <= row ->
  let out := archive_and_shift row st in
  fst out = Ok tt
  /\ cell (sheet (snd out)) row 9 = cell (sheet st) row 2
  /\ cell (sheet (snd out)) row 10 = cell (sheet st) row 1
  /\ cell (sheet (snd out)) row 11 = _single_line (cell (sheet st) row 5)
  /\ (forall r col, 7 <= col -> r <> row \/ col < 9 \/ 11 < col ->
        cell (sheet (snd out)) r col = cell (sheet st) r col)
  /\ (forall r, cell (sheet (snd out)) r 0 = cell (sheet st) r 0).
Proof.
  intros Hrow. cbv zeta. rewrite archive_and_shift_sheet. cbn [fst snd sheet].
  destruct (archive_written_area (sheet st) row Hrow) as (HJ & HK & HL).
  split; [reflexivity|].
  rewrite !archive_sheet_wide by (assumption || lia).
  split; [exact HJ|]. split; [exact HK|]. split; [exact HL|]. split.
  - intros r col Hcol Hout. rewrite archive_sheet_wide by assumption.
    unfold archive_written. rewrite !cell_set_cell. nat_cases; reflexivity.
  - intros r. rewrite archive_sheet_cell by assumption.
    cbn [Nat.leb andb]. rewrite !andb_false_r. apply archive_written_cell. lia.
Qed.

(** X17: [archive_and_shift] closes the gap: with [k] the number of rows
    below the archived one up to the first row that is blank from A to G,
    columns B to G of the [k] rows from the archived one take the content
    of the row below them, the row after them is cleared in B to G, and
    the rows above and further down keep their content. *)
Theorem archive_closes_gap {World : Type} (row : nat) (st : state World) :
  1 <= row ->
  let g := sheet st in
  let g' := sheet (snd (archive_and_shift row st)) in
  let k := rows_below g row in
  (forall i, i < k -> blank_row g (row + 1 + i) = false)
  /\ blank_row g (row + 1 + k) = true
  /\ (forall i col, i < k -> 1 <= col <= 6 ->
        cell g' (row + i) col = cell g (row + 1 + i) col)
  /\ (forall col, 1 <= col <= 6 -> cell g' (row + k) col = [])
  /\ (forall r col, r < row \/ row + k < r -> col <= 6 ->
        cell g' r col = cell g r col).
Proof.
  intros Hrow. cbv zeta. rewrite archive_and_shift_sheet. cbn [snd sheet].
  destruct (rows_below_spec (sheet st) row) as [B1 B2].
  split; [exact B1|]. split; [exact B2|]. split; [|split].
  - intros i col Hi Hcol. rewrite archive_sheet_cell by assumption.
    replace (row + i + 1) with (row + 1 + i) by lia.
    nat_cases; reflexivity.
  - intros col Hcol. rewrite archive_sheet_cell by assumption.
    nat_cases; reflexivity.
  - intros r col Hr Hcol. rewrite archive_sheet_cell by assumption.
    rewrite archive_written_cell by lia.
    nat_cases; reflexivity.
Qed.

Lemma blank_row_cells g row col : blank_row g row = true -> col <= 6 -> cell g row col = [].
Proof.
  unfold blank_row. rewrite forallb_forall. intros H Hcol.
  apply truthy_false. apply negb_true_iff. apply H. apply in_seq. lia.
Qed.

(** X18: reading a position again after [archive_and_shift] gives the task
    that stood one row below: this holds for the archived position and
    for each of the rows that moved up, the cleared one included. *)
Theorem archive_then_read {World : Type} (row i : nat) (st : state World) :
  1 <= row ->
  i <= rows_below (sheet st) row ->
  fst (bind (archive_and_shift row) (fun _ => read_row (row + i)) st)
  = Ok (row_state (sheet st) (row + 1 + i)).
Proof.
  intros Hrow Hi. rewrite (bind_ok _ _ _ _ _ (archive_and_shift_sheet row st)).
  rewrite read_row_run. cbn [fst sheet]. f_equal.
  rewrite !row_state_cells.
  destruct (rows_below_spec (sheet st) row) as [_ B2].
  assert (H : forall col, 1 <= col <= 6 ->
            cell (archive_sheet (sheet st) row) (row + i) col
            = cell (sheet st) (row + 1 + i) col).
  { intros col Hcol. rewrite archive_sheet_cell by assumption.
    destruct (Nat.eqb_spec (row + rows_below (sheet st) row) (row + i)) as [E|E].
    - replace (1 <=? col) with true by (symmetry; apply Nat.leb_le; lia).
      replace (col <? 7) with true by (symmetry; apply Nat.ltb_lt; lia).
      cbn [andb]. assert (i = rows_below (sheet st) row) by lia. subst i.
      symmetry. apply blank_row_cells; [exact B2 | lia].
    - cbn [andb]. replace (row + i + 1) with (row + 1 + i) by lia.
      nat_cases; reflexivity. }
  rewrite !H by lia. reflexivity.
Qed.

Lemma archive_records_row_witness :
  let out := archive_and_shift 2 (initial_state board) in
  fst out = Ok tt
  /\ cell (sheet (snd out)) 2 9 = cell board 2 2
  /\ cell (sheet (snd out)) 2 10 = cell board 2 1
  /\ cell (sheet (snd out)) 2 11 = _single_line (cell board 2 5)
  /\ (forall r col, 7 <= col -> r <> 2 \/ col < 9 \/ 11 < col ->
        cell (sheet (snd out)) r col = cell board r col)
  /\ (forall r, cell (sheet (snd out)) r 0 = cell board r 0).
Proof. apply (archive_records_row 2 (initial_state board)). lia. Defined.

Lemma archive_closes_gap_witness :
  let g := board in
  let g' := sheet (snd (archive_and_shift 2 (initial_state board))) in
  let k := rows_below g 2 in
  (forall i, i < k -> blank_row g (2 + 1 + i) = false)
  /\ blank_row g (2 + 1 + k) = true
  /\ (forall i col, i < k -> 1 <= col <= 6 ->
        cell g' (2 + i) col = cell g (2 + 1 + i) col)
  /\ (forall col, 1 <= col <= 6 -> cell g' (2 + k) col = [])
  /\ (forall r col, r < 2 \/ 2 + k < r -> col <= 6 ->
        cell g' r col = cell g r col).
Proof. apply (archive_closes_gap 2 (initial_state board)). lia. Defined.

Lemma archive_then_read_witness :
  fst (bind (archive_and_shift 2) (fun _ => read_row (2 + 1)) (initial_state board))
  = Ok (row_state board (2 + 1 + 1)).
Proof.
  apply (archive_then_read 2 1 (initial_state board)); [lia|].
  vm_compute. lia.
Defined.

(** ** The tasks before a pass *)
Lemma leading_prompts_spec rows :
  (forall i, i < leading_prompts rows -> nth 1 (nth i rows []) [] <> [])
  /\ nth 1 (nth (leading_prompts rows) rows []) [] = [].
Proof.
  induction rows as [|r rows [IH1 IH2]]; [split; [simpl; intros; lia | reflexivity]|].
  cbn [leading_prompts]. destruct (truthy (nth 1 r [])) eqn:E.
  - split; [|exact IH2]. intros [|i] Hi; [now apply truthy_true|].
    cbn [nth]. apply IH1. lia.
  - split; [intros; lia|]. now apply truthy_false.
Qed.

Lemma pending_spec g row :
  (forall i, i < pending g row -> cell g (row + i) 1 <> [])
  /\ cell g (row + pending g row) 1 = [].
Proof.
  destruct row as [|n]; [split; [simpl; intros; lia | reflexivity]|].
  cbn [pending]. destruct (leading_prompts_spec (skipn n g)) as [H1 H2]. split.
  - intros i Hi. unfold cell. replace (S n + i) with (n + 1 + i) by lia.
    rewrite <- nth_skipn_grid. now apply H1.
  - unfold cell. replace (S n + leading_prompts (skipn n g))
      with (n + 1 + leading_prompts (skipn n g)) by lia.
    now rewrite <- nth_skipn_grid.
Qed.

Lemma pending_unique g row d :
  (forall i, i < d -> cell g (row + i) 1 <> []) ->
  cell g (row + d) 1 = [] ->
  pending g row = d.
Proof.
  intros H1 H2. destruct (pending_spec g row) as [K1 K2].
  destruct (Nat.lt_trichotomy (pending g row) d) as [Hlt|[Heq|Hgt]].
  - now destruct (H1 _ Hlt).
  - exact Heq.
  - now destruct (K1 _ Hgt).
Qed.

Lemma pending_zero g row : cell g row 1 = [] -> pending g row = 0.
Proof.
  intros H. apply pending_unique; [intros; lia|]. now rewrite Nat.add_0_r.
Qed.

Lemma pending_positive g row : cell g row 1 <> [] -> 1 <= pending g row.
Proof.
  intros H. destruct (pending_spec g row) as [_ K2].
  destruct (pending g row); [|lia]. now rewrite Nat.add_0_r in K2.
Qed.

Lemma pending_next g g' row :
  cell g row 1 <> [] ->
  (forall r, cell g' r 1 = cell g r 1) ->
  pending g' (row + 1) + 1 = pending g row.
Proof.
  intros Hp Hsame. pose proof (pending_positive g row Hp) as Hd.
  destruct (pending_spec g row) as [K1 K2].
  rewrite (pending_unique g' (row + 1) (pending g row - 1)); [lia| |].
  - intros i Hi. rewrite Hsame. replace (row + 1 + i) with (row + (i + 1)) by lia.
    apply K1. lia.
  - rewrite Hsame. replace (row + 1 + (pending g row - 1)) with (row + pending g row)
      by lia. exact K2.
Qed.

Lemma blank_row_prompt g row : blank_row g row = true -> cell g row 1 = [].
Proof.
  unfold blank_row. cbn [seq forallb]. intros H.
  apply andb_prop in H as [_ H]. apply andb_prop in H as [H _].
  apply negb_true_iff in H. now apply truthy_false.
Qed.

Lemma pending_rows_below g row :
  cell g row 1 <> [] -> pending g row <= rows_below g row + 1.
Proof.
  intros Hp. destruct (pending_spec g row) as [K1 _].
  destruct (rows_below_spec g row) as [_ B2]. apply blank_row_prompt in B2.
  destruct (Nat.le_gt_cases (pending g row) (rows_below g row + 1)) as [H|H];
    [exact H|].
  destruct (K1 (1 + rows_below g row)); [lia|].
  now replace (row + (1 + rows_below g row)) with (row + 1 + rows_below g row) by lia.
Qed.

Lemma pending_archive g row :
  cell g row 1 <> [] ->
  pending (archive_sheet g row) row + 1 = pending g row.
Proof.
  intros Hp.
  assert (Hrow : 1 <= row).
  { destruct row; [|lia]. now destruct Hp. }
  pose proof (pending_positive g row Hp) as Hd.
  pose proof (pending_rows_below g row Hp) as Hk.
  destruct (pending_spec g row) as [K1 K2].
  rewrite (pending_unique (archive_sheet g row) row (pending g row - 1)); [lia| |].
  - intros i Hi. rewrite archive_sheet_cell by assumption.
    replace (row + rows_below g row =? row + i) with false
      by (symmetry; apply Nat.eqb_neq; lia).
    replace (row <=? row + i) with true by (symmetry; apply Nat.leb_le; lia).
    replace (row + i <? row + rows_below g row) with true
      by (symmetry; apply Nat.ltb_lt; lia).
    cbn [andb Nat.leb Nat.ltb]. replace (row + i + 1) with (row + (i + 1)) by lia.
    apply K1. lia.
  - rewrite archive_sheet_cell by assumption.
    destruct (Nat.eqb_spec (row + rows_below g row) (row + (pending g row - 1)))
      as [E|E]; [reflexivity|].
    cbn [andb].
    replace (row <=? row + (pending g row - 1)) with true
      by (symmetry; apply Nat.leb_le; lia).
    replace (row + (pending g row - 1) <? row + rows_below g row) with true
      by (symmetry; apply Nat.ltb_lt; lia).
    cbn [andb Nat.leb Nat.ltb].
    replace (row + (pending g row - 1) + 1) with (row + pending g row) by lia.
    exact K2.
Qed.

(** ** One turn of the loop *)
Lemma count_app f a b : count f (a ++ b) = count f a + count f b.
Proof. unfold count. now rewrite filter_app, length_app. Qed.

Section TurnFacts.
Context {World : Type} (env : Env World).

Lemma run_events_count self command prompt session_id (st : state World) :
  count is_run (run_events env self command prompt session_id st) = 1
  /\ count is_archive (run_events env self command prompt session_id st) = 0.
Proof.
  unfold run_events.
  destruct (_command_prefers_tty _); [split; reflexivity|].
  destruct (fst (popen_streaming env _ _ _)) as [lines rc|lines|];
    try (split; reflexivity).
  destruct (_requires_tty_fallback rc (buffered_output lines)); split; reflexivity.
Qed.

Lemma result_cell_false row r col :
  result_cell row r col = false ->
  r <> row \/ (col <> 2 /\ col <> 3 /\ col <> 5 /\ col <> 6).
Proof.
  unfold result_cell. intros H.
  destruct (Nat.eqb_spec r row) as [->|Hr]; [right | now left].
  cbn [andb] in H. apply orb_false_elim in H as [H H6].
  apply orb_false_elim in H as [H H5]. apply orb_false_elim in H as [H2 H3].
  apply Nat.eqb_neq in H2, H3, H5, H6. tauto.
Qed.

Lemma persist_and_advance_cells c result (st : state World) :
  exists g,
    persist_and_advance c result st
    = (Ok (inr {| row_number := row_number c + 1;
                  executed := executed c + 1;
                  archived := archived c |}),
       {| sheet := g; world := world st;
          trace := trace st ++ [EvUpdateRow (row_number c) (result_updates result)] |})
    /\ forall r col, result_cell (row_number c) r col = false ->
         cell g r col = cell (sheet st) r col.
Proof.
  destruct column_letters as (HC & HD & HF & HG & HJ & HK & HL).
  unfold persist_and_advance, update_row_columns, result_updates.
  unfold bind at 1. unfold bind at 1. unfold log at 1. cbv iota beta.
  destruct (truthy (ExecutionAgent.session_id result)); cbn [app];
    unfold bind at 1; unfold gets at 1; cbv iota beta;
    cbn [sheet world trace write_updates]; rewrite ?HD, ?HF, ?HG;
    unfold put_sheet, ret; cbn [sheet world trace];
    eexists; (split; [reflexivity|]);
    intros r col H; apply result_cell_false in H;
    rewrite !cell_set_cell; nat_cases; reflexivity.
Qed.

(** What a run followed by the update of the row leaves. *)
Lemma run_then_persist agent command prompt session_id c (st : state World) :
  let m := bind (ExecutionAgent.run env agent command prompt session_id)
             (persist_and_advance c) in
  exists more,
    trace (snd (m st)) = trace st ++ more
    /\ count is_run more = 1
    /\ count is_archive more = 0
    /\ (forall r col, result_cell (row_number c) r col = false ->
          cell (sheet (snd (m st))) r col = cell (sheet st) r col)
    /\ (fst (m st) = Ok (inr {| row_number := row_number c + 1;
                                executed := executed c + 1;
                                archived := archived c |})
        \/ exists e, fst (m st) = Raise e).
Proof.
  cbv zeta.
  pose proof (run_trace env agent command prompt session_id st) as Ht.
  pose proof (run_sheet env agent command prompt session_id st) as Hs.
  destruct (run_events_count agent command prompt session_id st) as [Hr Ha].
  unfold bind.
  destruct (ExecutionAgent.run env agent command prompt session_id st)
    as [[result|e] s1]; cbn [snd] in Ht, Hs.
  - destruct (persist_and_advance_cells c result s1) as (g & Hg & Hcells).
    rewrite Hg. cbn [fst snd sheet trace].
    exists (run_events env agent command prompt session_id st
            ++ [EvUpdateRow (row_number c) (result_updates result)]).
    split; [now rewrite Ht, app_assoc|].
    rewrite !count_app, Hr, Ha.
    split; [reflexivity|]. split; [reflexivity|].
    split; [|now left].
    intros r col H. rewrite <- Hs. now apply Hcells.
  - cbn [fst snd]. exists (run_events env agent command prompt session_id st).
    split; [exact Ht|]. split; [exact Hr|]. split; [exact Ha|].
    split; [|right; now exists e].
    intros r col _. now rewrite Hs.
Qed.

Lemma iteration_turn agent command prefix c (st : state World) :
  let out := iteration env agent command prefix c st in
  exists more,
    trace (snd out) = trace st ++ more
    /\ match fst out with
       | Ok (inl s) => turn_stops c (sheet st) (sheet (snd out)) more s
       | Ok (inr c') =>
           cell (sheet st) (row_number c) 1 <> []
           /\ (turn_archives c (sheet st) (sheet (snd out)) more c'
               \/ turn_advances c (sheet st) (sheet (snd out)) more c')
       | Raise e =>
           forall r col, result_cell (row_number c) r col = false ->
             cell (sheet (snd out)) r col = cell (sheet st) r col
       end.
Proof.
  cbv zeta.
  destruct (row_state_fields (sheet st) (row_number c)) as (Fp & Ft & Fs & _).
  unfold iteration. rewrite (bind_ok _ _ _ _ _ (read_row_run _ _)).
  rewrite Fp, Ft, Fs.
  destruct (truthy (cell (sheet st) (row_number c) 1)) eqn:Ep; cbn [negb].
  2:{ exists [EvReadRow (row_number c)]. unfold ret. cbn [fst snd trace sheet].
      split; [reflexivity|]. apply truthy_false in Ep.
      unfold turn_stops. repeat (split; [reflexivity || assumption|]). reflexivity. }
  apply truthy_true in Ep.
  destruct (str_eqb _ (lit "Approved")) eqn:Ea.
  { rewrite (bind_ok _ _ _ _ _ (archive_and_shift_sheet _ _)).
    unfold ret. cbn [fst snd trace sheet world]. eexists.
    split; [rewrite <- app_assoc; reflexivity|].
    split; [exact Ep|]. left. unfold turn_archives.
    split; [reflexivity|]. split; [reflexivity|]. split; reflexivity. }
  destruct (truthy (cell (sheet st) (row_number c) 2)) eqn:Et; cbn [negb].
  2:{ rewrite (bind_ok _ _ _ _ _ (update_provisional _ _ _)).
      match goal with
      | |- context [bind (ExecutionAgent.run env agent command ?p ?sid) ?k ?s] =>
          destruct (run_then_persist agent command p sid c s)
            as (more & Htr & Hr & Har & Hcells & Hres);
          change k with (@persist_and_advance World c);
          set (out := bind (ExecutionAgent.run env agent command p sid)
                        (@persist_and_advance World c) s) in *
      end.
      cbn [trace sheet] in Htr, Hcells.
      eexists. split; [rewrite Htr, <- !app_assoc; reflexivity|].
      assert (Hfr : forall r col, result_cell (row_number c) r col = false ->
                cell (sheet (snd out)) r col = cell (sheet st) r col).
      { intros r col H. rewrite Hcells by assumption.
        apply result_cell_false in H. rewrite !cell_set_cell. nat_cases; reflexivity. }
      destruct Hres as [Hres|[e Hres]]; rewrite Hres; [|exact Hfr].
      split; [exact Ep|]. right. unfold turn_advances.
      rewrite !count_app, Hr, Har. cbn.
      split; [reflexivity|]. split; [lia|]. split; [reflexivity|]. exact Hfr. }
  destruct (str_eqb _ (lit "Ongoing")) eqn:Eo.
  { match goal with
    | |- context [bind (ExecutionAgent.run env agent command ?p ?sid) ?k ?s] =>
        destruct (run_then_persist agent command p sid c s)
          as (more & Htr & Hr & Har & Hcells & Hres);
        change k with (@persist_and_advance World c);
        set (out := bind (ExecutionAgent.run env agent command p sid)
                      (@persist_and_advance World c) s) in *
    end.
    cbn [trace sheet] in Htr, Hcells.
    eexists. split; [rewrite Htr, <- !app_assoc; reflexivity|].
    destruct Hres as [Hres|[e Hres]]; rewrite Hres; [|exact Hcells].
    split; [exact Ep|]. right. unfold turn_advances.
    rewrite !count_app, Hr, Har. cbn.
    split; [reflexivity|]. split; [lia|]. split; [reflexivity|]. exact Hcells. }
  exists [EvReadRow (row_number c)]. unfold ret. cbn [fst snd trace sheet].
  split; [reflexivity|]. split; [exact Ep|]. right. unfold turn_advances.
  cbn. rewrite Nat.add_0_r. split; [reflexivity|]. split; [lia|].
  split; reflexivity.
Qed.

Lemma archive_sheet_above g row r col :
  1 <= row -> r < row -> cell (archive_sheet g row) r col = cell g r col.
Proof.
  intros Hrow Hr. rewrite archive_sheet_cell by assumption.
  replace (row + rows_below g row =? r) with false
    by (symmetry; apply Nat.eqb_neq; lia).
  replace (row <=? r) with false by (symmetry; apply Nat.leb_gt; lia).
  cbn [andb]. unfold cell. rewrite archive_written_row_at by lia. reflexivity.
Qed.

Lemma archive_sheet_config g row r :
  1 <= row -> cell (archive_sheet g row) r 0 = cell g r 0.
Proof.
  intros Hrow. rewrite archive_sheet_cell by assumption.
  cbn [Nat.leb andb]. rewrite !andb_false_r. apply archive_written_cell. lia.
Qed.

Lemma prompt_row_positive g row : cell g row 1 <> [] -> 1 <= row.
Proof. destruct row; [intros H; now destruct H | lia]. Qed.

Lemma result_cell_config row r : result_cell row r 0 = false.
Proof. unfold result_cell. cbn. apply andb_false_r. Qed.

Lemma result_cell_prompt row r : result_cell row r 1 = false.
Proof. unfold result_cell. cbn. apply andb_false_r. Qed.

Lemma result_cell_above row r col : r < row -> result_cell row r col = false.
Proof.
  intros H. unfold result_cell.
  replace (r =? row) with false by (symmetry; apply Nat.eqb_neq; lia). reflexivity.
Qed.

Lemma loop_succ fuel agent command prefix c (st : state World) :
  loop env (S fuel) agent command prefix c st
  = match iteration env agent command prefix c st with
    | (Ok (inl s), st1) => (Ok (Some s), st1)
    | (Ok (inr c'), st1) => loop env fuel agent command prefix c' st1
    | (Raise e, st1) => (Raise e, st1)
    end.
Proof.
  cbn [loop]. unfold bind.
  destruct (iteration env agent command prefix c st) as [[[s|c']|e] st1]; reflexivity.
Qed.

(** A pass of the loop from the cursor [c]. *)
Lemma loop_pass agent command prefix fuel : forall c (st : state World),
  let out := loop env fuel agent command prefix c st in
  exists more,
    trace (snd out) = trace st ++ more
    /\ (forall r, cell (sheet (snd out)) r 0 = cell (sheet st) r 0)
    /\ (forall r col, r < row_number c ->
          cell (sheet (snd out)) r col = cell (sheet st) r col)
    /\ match fst out with
       | Ok (Some s) =>
           executed_rows s = executed c + count is_run more
           /\ archived_rows s = archived c + count is_archive more
           /\ stopped_at_row s + count is_archive more
              = row_number c + pending (sheet st) (row_number c)
           /\ count is_run more + row_number c <= stopped_at_row s
           /\ cell (sheet (snd out)) (stopped_at_row s) 1 = []
       | Ok None => fuel <= pending (sheet st) (row_number c)
       | Raise e => True
       end.
Proof.
  induction fuel as [|fuel IH]; intros c st; cbv zeta.
  - exists []. cbn. rewrite app_nil_r. repeat split; lia.
  - rewrite loop_succ.
    destruct (iteration_turn agent command prefix c st) as (more1 & Htr1 & Hturn).
    destruct (iteration env agent command prefix c st) as [[[s|c']|e] st1];
      cbn [fst snd] in Htr1, Hturn.
    + cbn [fst snd]. destruct Hturn as (Hp & -> & Hg & Hr & Ha).
      exists more1. rewrite Hg, Hr, Ha. cbn [executed_rows archived_rows stopped_at_row].
      split; [exact Htr1|]. split; [reflexivity|]. split; [reflexivity|].
      rewrite (pending_zero _ _ Hp). repeat split; try lia. exact Hp.
    + destruct Hturn as [Hp Hturn]. pose proof (prompt_row_positive _ _ Hp) as Hrow.
      destruct (IH c' st1) as (more2 & Htr2 & Hcfg & Habove & Hres).
      exists (more1 ++ more2). rewrite !count_app.
      split; [now rewrite Htr2, Htr1, app_assoc|].
      destruct Hturn as [(-> & Hg & Hr & Ha) | (-> & Hr & Ha & Hcells)];
        cbn [row_number executed archived] in *.
      * split; [intros r; rewrite Hcfg, Hg; now apply archive_sheet_config|].
        split; [intros r col Hlt; rewrite Habove, Hg by assumption;
                now apply archive_sheet_above|].
        pose proof (pending_archive _ _ Hp) as Hpend. rewrite <- Hg in Hpend.
        rewrite Hr, Ha.
        destruct (fst (loop env fuel agent command prefix _ st1)) as [[s|]|e];
          [|lia|exact I].
        destruct Hres as (H1 & H2 & H3 & H4 & H5).
        repeat split; try lia. exact H5.
      * split; [intros r; rewrite Hcfg; apply Hcells, result_cell_config|].
        split; [intros r col Hlt; rewrite Habove by lia;
                now apply Hcells, result_cell_above|].
        assert (Hpend : pending (sheet st1) (row_number c + 1) + 1
                        = pending (sheet st) (row_number c)).
        { apply pending_next; [exact Hp|]. intros r. apply Hcells, result_cell_prompt. }
        rewrite Ha.
        destruct (fst (loop env fuel agent command prefix _ st1)) as [[s|]|e];
          [|lia|exact I].
        destruct Hres as (H1 & H2 & H3 & H4 & H5).
        repeat split; try lia. exact H5.
    + cbn [fst snd]. exists more1. split; [exact Htr1|].
      split; [intros r; apply Hturn, result_cell_config|].
      split; [|exact I]. intros r col Hlt. now apply Hturn, result_cell_above.
Qed.

End TurnFacts.

(** ** MintPipeline.run *)
Lemma run_cases {World : Type} (env : Env World) config fuel (st : state World) :
  (exists msg, MintPipeline.run env config fuel st = (Raise (ValueError msg), st))
  \/ (exists agent command prefix,
        MintPipeline.run env config fuel st
        = loop env fuel agent command prefix
            {| row_number := TASK_START_ROW; executed := 0; archived := 0 |} st).
Proof.
  unfold MintPipeline.run.
  rewrite (bind_ok _ _ _ _ _ (get_properties_run st)).
  destruct (negb (truthy (or_else _ _))).
  - left. eexists. reflexivity.
  - right. do 3 eexists. reflexivity.
Qed.

(** X19: when [MintPipeline.run] returns a summary, [executed_rows] is the
    number of calls of the engine and [archived_rows] the number of calls
    of [archive_and_shift] that the pass made. *)
Theorem run_counts_calls {World : Type} (env : Env World)
    (config : sheet_properties) (fuel : nat) (st : state World) (s : RunSummary) :
  fst (MintPipeline.run env config fuel st) = Ok (Some s) ->
  exists more,
    trace (snd (MintPipeline.run env config fuel st)) = trace st ++ more
    /\ executed_rows s = count is_run more
    /\ archived_rows s = count is_archive more.
Proof.
  intros H. destruct (run_cases env config fuel st) as [[msg E]|(a & cmd & p & E)];
    rewrite E in *; [discriminate|].
  destruct (loop_pass env a cmd p fuel
              {| row_number := TASK_START_ROW; executed := 0; archived := 0 |} st)
    as (more & Htr & _ & _ & Hres).
  rewrite H in Hres. destruct Hres as (H1 & H2 & _).
  exists more. split; [exact Htr|]. split; assumption.
Qed.

(** X20: when [MintPipeline.run] returns a summary, the row it stopped at
    plus the rows it archived is the start row plus the number of rows
    that had a prompt, from the start row to the first without one, when
    the pass began; every execution accounts for a row passed, and the
    row it stopped at has no prompt in the final sheet. *)
Theorem run_stops_after_queue {World : Type} (env : Env World)
    (config : sheet_properties) (fuel : nat) (st : state World) (s : RunSummary) :
  fst (MintPipeline.run env config fuel st) = Ok (Some s) ->
  stopped_at_row s + archived_rows s
  = TASK_START_ROW + pending (sheet st) TASK_START_ROW
  /\ TASK_START_ROW + executed_rows s <= stopped_at_row s
  /\ cell (sheet (snd (MintPipeline.run env config fuel st))) (stopped_at_row s) 1 = [].
Proof.
  intros H. destruct (run_cases env config fuel st) as [[msg E]|(a & cmd & p & E)];
    rewrite E in *; [discriminate|].
  destruct (loop_pass env a cmd p fuel
              {| row_number := TASK_START_ROW; executed := 0; archived := 0 |} st)
    as (more & Htr & _ & _ & Hres).
  rewrite H in Hres. cbn [row_number executed archived] in Hres.
  destruct Hres as (H1 & H2 & H3 & H4 & H5).
  unfold TASK_START_ROW in *. split; [lia|]. split; [lia|]. exact H5.
Qed.

(** X21: the loop of [MintPipeline.run] ends: with more turns allowed than
    there are rows with a prompt from the start row to the first without
    one, the pass returns a summary or raises; it never uses up its
    turns. *)
Theorem run_terminates {World : Type} (env : Env World)
    (config : sheet_properties) (fuel : nat) (st : state World) :
  pending (sheet st) TASK_START_ROW < fuel ->
  (exists s, fst (MintPipeline.run env config fuel st) = Ok (Some s))
  \/ (exists e, fst (MintPipeline.run env config fuel st) = Raise e).
Proof.
  intros H. destruct (run_cases env config fuel st) as [[msg E]|(a & cmd & p & E)];
    rewrite E; [right; now eexists|].
  destruct (loop_pass env a cmd p fuel
              {| row_number := TASK_START_ROW; executed := 0; archived := 0 |} st)
    as (more & _ & _ & _ & Hres).
  cbn [row_number] in Hres.
  destruct (fst (loop env fuel a cmd p _ st)) as [[s|]|e].
  - left. now exists s.
  - lia.
  - right. now exists e.
Qed.

(** X22: however a pass ends, with a summary, with an exception or with its
    turns used up, it leaves column A (the configuration) and the header
    row as they were. *)
Theorem run_keeps_configuration {World : Type} (env : Env World)
    (config : sheet_properties) (fuel : nat) (st : state World) :
  let g' := sheet (snd (MintPipeline.run env config fuel st)) in
  (forall r, cell g' r 0 = cell (sheet st) r 0)
  /\ (forall col, cell g' 1 col = cell (sheet st) 1 col).
Proof.
  cbv zeta. destruct (run_cases env config fuel st) as [[msg E]|(a & cmd & p & E)];
    rewrite E; [split; reflexivity|].
  destruct (loop_pass env a cmd p fuel
              {| row_number := TASK_START_ROW; executed := 0; archived := 0 |} st)
    as (more & _ & Hcfg & Habove & _).
  split; [exact Hcfg|]. intros col. apply Habove. cbn [row_number]. unfold TASK_START_ROW. lia.
Qed.

Lemma run_counts_calls_witness :
  exists more,
    trace (snd (MintPipeline.run done_env no_defaults 10 (initial_state board)))
    = [] ++ more
    /\ 2 = count is_run more /\ 1 = count is_archive more.
Proof.
  apply (run_counts_calls done_env no_defaults 10 (initial_state board)
           {| executed_rows := 2; archived_rows := 1; stopped_at_row := 5 |}).
  vm_compute. reflexivity.
Defined.

Lemma run_stops_after_queue_witness :
  5 + 1 = TASK_START_ROW + pending board TASK_START_ROW
  /\ TASK_START_ROW + 2 <= 5
  /\ cell (sheet (snd (MintPipeline.run done_env no_defaults 10 (initial_state board))))
       5 1 = [].
Proof.
  apply (run_stops_after_queue done_env no_defaults 10 (initial_state board)
           {| executed_rows := 2; archived_rows := 1; stopped_at_row := 5 |}).
  vm_compute. reflexivity.
Defined.

Lemma run_terminates_witness :
  (exists s, fst (MintPipeline.run done_env no_defaults 5 (initial_state board))
             = Ok (Some s))
  \/ (exists e, fst (MintPipeline.run done_env no_defaults 5 (initial_state board))
                = Raise e).
Proof.
  apply (run_terminates done_env no_defaults 5 (initial_state board)).
  vm_compute. lia.
Defined.

(** ** Links and sheet ids *)
Lemma id_char_not_space c : id_char c = true -> isspace c = false.
Proof. ascii_cases c; vm_compute; congruence. Qed.

Lemma id_char_not_slash c : id_char c = true -> Ascii.eqb "/"%char c = false.
Proof. ascii_cases c; vm_compute; congruence. Qed.

Lemma ids_nospace s : forallb id_char s = true -> nospace s.
Proof.
  induction s as [|c s IH]; [reflexivity|]. simpl. intros H.
  apply andb_prop in H as [Hc Hs]. apply nospace_cons.
  split; [now apply id_char_not_space | now apply IH].
Qed.

Lemma ids_no_slash s : forallb id_char s = true -> contains (lit "/") s = false.
Proof.
  induction s as [|c s IH]; [reflexivity|]. intros H. cbn [forallb] in H.
  apply andb_prop in H as [Hc Hs].
  change (contains (lit "/") (c :: s))
    with ((Ascii.eqb "/"%char c && true) || contains (lit "/") s).
  rewrite (id_char_not_slash c Hc). cbn [andb orb]. now apply IH.
Qed.

Lemma take_while_all f s : forallb f (take_while f s) = true.
Proof.
  induction s as [|c s IH]; [reflexivity|]. simpl.
  destruct (f c) eqn:E; [|reflexivity]. simpl. now rewrite E.
Qed.

Lemma take_while_stop f s c r :
  forallb f s = true -> f c = false -> take_while f (s ++ c :: r) = s.
Proof.
  intros Hs Hc. induction s as [|d s IH]; simpl; [now rewrite Hc|].
  simpl in Hs. apply andb_prop in Hs as [Hd Hs]. rewrite Hd. now rewrite IH.
Qed.

Lemma match_sheet_id_valid s id : match_sheet_id s = Some id -> fullmatch_id id = true.
Proof.
  unfold match_sheet_id. destruct (strip_prefix _ s) as [rest|]; [|discriminate].
  pose proof (take_while_all id_char rest) as H.
  destruct (take_while id_char rest) as [|c r]; [discriminate|].
  intros E. inversion E; subst. unfold fullmatch_id. now rewrite H.
Qed.

Lemma search_sheet_id_valid s id : search_sheet_id s = Some id -> fullmatch_id id = true.
Proof.
  induction s as [|c s IH]; cbn [search_sheet_id].
  - destruct (match_sheet_id []) eqn:E; [|discriminate].
    intros H. inversion H; subst. now apply match_sheet_id_valid in E.
  - destruct (match_sheet_id (c :: s)) eqn:E.
    + intros H. inversion H; subst. now apply match_sheet_id_valid in E.
    + exact IH.
Qed.

Lemma parse_bare_id id : fullmatch_id id = true -> parse_sheet_id id = Ok id.
Proof.
  intros H. unfold parse_sheet_id. pose proof H as H'.
  unfold fullmatch_id in H'. apply andb_prop in H' as [_ Hall].
  rewrite (strip_nospace id (ids_nospace id Hall)).
  now rewrite (ids_no_slash id Hall), H.
Qed.

Lemma rstrip_keeps a b : rstrip b <> [] -> rstrip (a ++ b) = a ++ rstrip b.
Proof. intros H. rewrite rstrip_app. destruct (rstrip b); [congruence | reflexivity]. Qed.

Lemma to_sheet_url_stripped id : strip (to_sheet_url id) = to_sheet_url id.
Proof.
  unfold strip, to_sheet_url.
  change (lstrip (lit "https://docs.google.com/spreadsheets/d/" ++ id ++ lit "/edit"))
    with (lit "https://docs.google.com/spreadsheets/d/" ++ id ++ lit "/edit").
  rewrite rstrip_keeps; [f_equal; rewrite rstrip_keeps; [reflexivity | discriminate]|].
  rewrite rstrip_keeps; [|discriminate].
  destruct id; discriminate.
Qed.

Lemma search_skip_char c s :
  Ascii.eqb "/"%char c = false -> search_sheet_id (c :: s) = search_sheet_id s.
Proof.
  intros H. cbn [search_sheet_id]. unfold match_sheet_id.
  change (lit "/spreadsheets/d/") with ("/"%char :: lit "spreadsheets/d/").
  cbn [strip_prefix]. now rewrite H.
Qed.

Lemma search_skip_slash c s :
  Ascii.eqb "s"%char c = false ->
  search_sheet_id ("/"%char :: c :: s) = search_sheet_id (c :: s).
Proof.
  intros H. cbn [search_sheet_id]. unfold match_sheet_id at 1.
  change (lit "/spreadsheets/d/") with ("/"%char :: "s"%char :: lit "preadsheets/d/").
  cbn [strip_prefix]. change (Ascii.eqb "/" "/") with true. cbv iota. now rewrite H.
Qed.

Lemma search_here s id : match_sheet_id s = Some id -> search_sheet_id s = Some id.
Proof. intros H. destruct s; cbn [search_sheet_id]; now rewrite H. Qed.

Lemma search_to_sheet_url id :
  fullmatch_id id = true -> search_sheet_id (to_sheet_url id) = Some id.
Proof.
  intros H. unfold fullmatch_id in H. apply andb_prop in H as [Hne Hall].
  unfold to_sheet_url.
  assert (Hm : match_sheet_id (lit "/spreadsheets/d/" ++ id ++ lit "/edit") = Some id).
  { unfold match_sheet_id.
    change (strip_prefix (lit "/spreadsheets/d/")
              (lit "/spreadsheets/d/" ++ id ++ lit "/edit"))
      with (Some (id ++ lit "/edit")).
    cbv beta iota.
    change (lit "/edit") with ("/"%char :: lit "edit").
    rewrite take_while_stop by (assumption || reflexivity).
    destruct id; [discriminate | reflexivity]. }
  change (lit "https://docs.google.com/spreadsheets/d/" ++ id ++ lit "/edit")
    with (lit "https://docs.google.com" ++ (lit "/spreadsheets/d/" ++ id ++ lit "/edit")).
  generalize dependent (lit "/spreadsheets/d/" ++ id ++ lit "/edit").
  intros tail Hm. cbv beta iota fix delta [lit list_ascii_of_string app].
  repeat first [ rewrite search_skip_char by reflexivity
               | rewrite search_skip_slash by reflexivity ].
  now apply search_here.
Qed.

(** X23: [parse_sheet_id] gives back the id from which [to_sheet_url] made a
    link, for every id of letters, digits, hyphens and underscores that is
    not empty. *)
Theorem sheet_url_round_trip (spreadsheet_id : str) :
  fullmatch_id spreadsheet_id = true ->
  parse_sheet_id (to_sheet_url spreadsheet_id) = Ok spreadsheet_id.
Proof.
  intros H. unfold parse_sheet_id. rewrite to_sheet_url_stripped.
  rewrite (search_to_sheet_url _ H).
  replace (contains (lit "/") (to_sheet_url spreadsheet_id)) with true; [reflexivity|].
  symmetry. apply contains_spec. exists (lit "https:"), (lit "/docs.google.com/spreadsheets/d/" ++ spreadsheet_id ++ lit "/edit").
  reflexivity.
Qed.

(** X24: what [parse_sheet_id] returns is an id: never empty, made of
    letters, digits, hyphens and underscores only, hence without a slash
    or whitespace, and [parse_sheet_id] maps it to itself. *)
Theorem parse_sheet_id_valid (sheet_url id : str) :
  parse_sheet_id sheet_url = Ok id ->
  id <> []
  /\ forallb id_char id = true
  /\ contains (lit "/") id = false
  /\ strip id = id
  /\ parse_sheet_id id = Ok id.
Proof.
  intros H.
  assert (Hv : fullmatch_id id = true).
  { unfold parse_sheet_id in H.
    destruct (negb (contains (lit "/") (strip sheet_url))
              && fullmatch_id (strip sheet_url)) eqn:E.
    - apply andb_prop in E as [_ E]. inversion H; subst. exact E.
    - destruct (search_sheet_id (strip sheet_url)) eqn:Es; [|discriminate].
      inversion H; subst. now apply search_sheet_id_valid in Es. }
  pose proof Hv as Hv'. unfold fullmatch_id in Hv'. apply andb_prop in Hv' as [Hne Hall].
  split; [now apply truthy_true|]. split; [exact Hall|].
  split; [now apply ids_no_slash|].
  split; [apply strip_nospace; now apply ids_nospace|].
  now apply parse_bare_id.
Qed.

Lemma sheet_url_round_trip_witness :
  parse_sheet_id (to_sheet_url (lit "1AbC-dEf_9")) = Ok (lit "1AbC-dEf_9").
Proof. apply sheet_url_round_trip. reflexivity. Defined.

Lemma parse_sheet_id_valid_witness :
  lit "1AbC" <> []
  /\ forallb id_char (lit "1AbC") = true
  /\ contains (lit "/") (lit "1AbC") = false
  /\ strip (lit "1AbC") = lit "1AbC"
  /\ parse_sheet_id (lit "1AbC") = Ok (lit "1AbC").
Proof.
  apply (parse_sheet_id_valid
           (lit "  https://docs.google.com/spreadsheets/d/1AbC/edit#gid=0 ")).
  reflexivity.
Defined.

(** ** The layout and the settings of a pass *)
Lemma initialize_layout_run {World : Type} pv (st : state World) :
  initialize_layout pv st
  = (Ok tt,
     {| sheet := set_block (set_block (sheet st) 1 0 [HEADERS]) CONFIG_START_ROW 0
                   (config_cells pv CONFIG_PROPERTIES);
        world := world st; trace := trace st |}).
Proof. reflexivity. Qed.

Lemma config_cells_all pv :
  config_cells pv CONFIG_PROPERTIES
  = [ [lit "Prefix"]; [property_text (pv_prefix pv)];
      [lit "Command"]; [property_text (pv_command pv)];
      [lit "Auto Close"]; [property_text (pv_auto_close pv)] ].
Proof. reflexivity. Qed.

Lemma initialize_layout_cell {World : Type} pv (st : state World) r col :
  cell (sheet (snd (initialize_layout pv st))) r col
  = if (col =? 0) && (2 <=? r) && (r <? 8)
    then nth (r - 2) [ lit "Prefix"; property_text (pv_prefix pv);
                       lit "Command"; property_text (pv_command pv);
                       lit "Auto Close"; property_text (pv_auto_close pv) ] []
    else if (r =? 1) && (col <? 12) then nth col HEADERS []
    else cell (sheet st) r col.
Proof.
  rewrite initialize_layout_run. cbn [snd sheet].
  rewrite config_cells_all.
  rewrite !cell_set_block by (unfold CONFIG_START_ROW; lia).
  unfold CONFIG_START_ROW. rewrite Nat.sub_0_r.
  destruct r as [|[|[|[|[|[|[|[|r]]]]]]]];
    destruct col as [|col]; reflexivity.
Qed.

Lemma resolve_bool_text b fallback :
  _resolve_bool (property_text (Some (PBool b))) fallback = b.
Proof. destruct b; reflexivity. Qed.

Lemma initialize_layout_properties {World : Type} pv (st : state World) :
  let g' := sheet (snd (initialize_layout pv st)) in
  cell g' 3 0 = property_text (pv_prefix pv)
  /\ cell g' 5 0 = property_text (pv_command pv)
  /\ cell g' 7 0 = property_text (pv_auto_close pv).
Proof.
  cbv zeta. rewrite (initialize_layout_cell pv st 3 0),
    (initialize_layout_cell pv st 5 0), (initialize_layout_cell pv st 7 0).
  split; [reflexivity|]. split; reflexivity.
Qed.

(** X25: [initialize_layout] sends [HEADERS] to [A1:L1] and, to the column
    A from row 2 to row [_config_end_row], the titles of the three
    properties, each followed by the text of its value: [true] or [false]
    for a truth value, the empty text for a value that is missing or
    [None].  When it has returned, row 1 holds [HEADERS], the titles stand
    in A2, A4 and A6, and the cells of the task rows from column B on, and
    column A below the configuration block, are as before.  What the sheet
    makes of the values under the titles is not part of the statement. *)
Theorem initialize_layout_spec {World : Type} (pv : property_values)
    (st : state World) :
  let g' := sheet (snd (initialize_layout pv st)) in
  config_cells pv CONFIG_PROPERTIES
  = [ [lit "Prefix"]; [property_text (pv_prefix pv)];
      [lit "Command"]; [property_text (pv_command pv)];
      [lit "Auto Close"]; [property_text (pv_auto_close pv)] ]
  /\ CONFIG_START_ROW + length (config_cells pv CONFIG_PROPERTIES) - 1 = _config_end_row
  /\ (forall b, property_text (Some (PBool b)) = if b then lit "true" else lit "false")
  /\ property_text None = [] /\ property_text (Some PNone) = []
  /\ (forall col, col < 12 -> cell g' 1 col = nth col HEADERS [])
  /\ cell g' 2 0 = lit "Prefix" /\ cell g' 4 0 = lit "Command"
  /\ cell g' 6 0 = lit "Auto Close"
  /\ (forall r col, 2 <= r -> 1 <= col -> cell g' r col = cell (sheet st) r col)
  /\ (forall r, _config_end_row < r -> cell g' r 0 = cell (sheet st) r 0).
Proof.
  cbv zeta.
  pose proof (initialize_layout_cell pv st) as Hcell.
  split; [reflexivity|]. split; [reflexivity|].
  split; [intros []; reflexivity|]. split; [reflexivity|]. split; [reflexivity|].
  split; [|split; [|split; [|split; [|split]]]].
  - intros col Hcol. rewrite (Hcell 1 col).
    destruct col as [|col]; [reflexivity|]. cbn [Nat.eqb andb].
    replace (S col <? 12) with true by (symmetry; apply Nat.ltb_lt; lia).
    reflexivity.
  - now rewrite (Hcell 2 0).
  - now rewrite (Hcell 4 0).
  - now rewrite (Hcell 6 0).
  - intros r col Hr Hcol. rewrite (Hcell r col).
    replace (col =? 0) with false by (symmetry; apply Nat.eqb_neq; lia).
    replace (r =? 1) with false by (symmetry; apply Nat.eqb_neq; lia).
    reflexivity.
  - intros r Hr. rewrite (Hcell r 0).
    assert (8 <= r) by (unfold _config_end_row, _config_total_rows in Hr;
                        cbn in Hr; lia).
    replace (r <? 8) with false by (symmetry; apply Nat.ltb_ge; lia).
    replace (r =? 1) with false by (symmetry; apply Nat.eqb_neq; lia).
    now rewrite andb_false_r.
Qed.

(** X26: a pass that follows [initialize_layout] with a truth value for
    [auto_close] and a command that is not empty takes that truth value
    and that command from the sheet, whatever the local configuration
    says, and the prefix of the sheet unless it is empty. *)
Theorem run_after_initialize_layout {World : Type} (env : Env World)
    (pv : property_values) (b : bool) (config : sheet_properties) (fuel : nat)
    (st : state World) :
  pv_auto_close pv = Some (PBool b) ->
  property_text (pv_command pv) <> [] ->
  bind (initialize_layout pv) (fun _ => MintPipeline.run env config fuel) st
  = bind (initialize_layout pv)
      (fun _ =>
         loop env fuel (ExecutionAgent.new b) (property_text (pv_command pv))
           (or_else (property_text (pv_prefix pv))
              (match default_prefix config with Some p => p | None => [] end))
           {| row_number := TASK_START_ROW; executed := 0; archived := 0 |}) st.
Proof.
  intros Hb Hc.
  destruct (initialize_layout_properties pv st) as (H3 & H5 & H7).
  unfold bind. destruct (initialize_layout pv st) as [[[]|e] st1] eqn:E;
    [|reflexivity].
  cbn [snd] in *. unfold MintPipeline.run.
  rewrite (bind_ok _ _ _ _ _ (get_properties_run st1)).
  unfold CONFIG_START_ROW. cbn [Nat.add].
  rewrite H3, H5, H7, Hb, resolve_bool_text.
  apply truthy_true in Hc.
  assert (Hor : forall d, or_else (property_text (pv_command pv)) d
                          = property_text (pv_command pv))
    by (intros d; unfold or_else; now rewrite Hc).
  cbv zeta. rewrite !Hor, Hc. reflexivity.
Qed.

Lemma run_after_initialize_layout_witness :
  let pv := {| pv_prefix := None; pv_command := Some (PStr (lit "codex"));
               pv_auto_close := Some (PBool false) |} in
  bind (initialize_layout pv)
    (fun _ => MintPipeline.run done_env no_defaults 3) (initial_state board)
  = bind (initialize_layout pv)
      (fun _ =>
         loop done_env 3 (ExecutionAgent.new false) (property_text (pv_command pv))
           (or_else (property_text (pv_prefix pv))
              (match default_prefix no_defaults with Some p => p | None => [] end))
           {| row_number := TASK_START_ROW; executed := 0; archived := 0 |})
      (initial_state board).
Proof.
  cbv zeta.
  apply (run_after_initialize_layout done_env
           {| pv_prefix := None; pv_command := Some (PStr (lit "codex"));
              pv_auto_close := Some (PBool false) |} false no_defaults 3
           (initial_state board)); [reflexivity | discriminate].
Defined.

(** X27: the report of [cmd_run] after a pass that returned a summary: it
    says that column B is empty at row 2 exactly when B2 was empty when
    the pass began, and that Mint finished successfully exactly when a
    row was executed or archived. *)
Theorem finish_line_no_rows {World : Type} (env : Env World)
    (config : sheet_properties) (fuel : nat) (st : state World) (s : RunSummary) :
  fst (MintPipeline.run env config fuel st) = Ok (Some s) ->
  (finish_line s = lit "Mint finished: no rows found (Column B is empty at row 2)."
   <-> cell (sheet st) 2 1 = [])
  /\ (finish_line s = lit "Mint finished successfully."
      <-> 0 < executed_rows s + archived_rows s).
Proof.
  intros H. destruct (run_cases env config fuel st) as [[msg E]|(a & cmd & p & E)];
    rewrite E in *; [discriminate|].
  destruct (loop_pass env a cmd p fuel
              {| row_number := TASK_START_ROW; executed := 0; archived := 0 |} st)
    as (more & _ & _ & _ & Hres).
  rewrite H in Hres. cbn [row_number executed archived] in Hres.
  unfold TASK_START_ROW in Hres. destruct Hres as (H1 & H2 & H3 & H4 & _).
  destruct (pending_spec (sheet st) 2) as [P1 P2].
  unfold finish_line. split.
  - destruct (Nat.eqb_spec (executed_rows s) 0) as [He|He]; cbn [andb].
    + destruct (Nat.eqb_spec (archived_rows s) 0) as [Ha|Ha].
      * destruct (Nat.leb_spec (stopped_at_row s) 2) as [Hs|Hs].
        -- split; [intros _|reflexivity].
           assert (Hp : pending (sheet st) 2 = 0) by lia.
           rewrite Hp, Nat.add_0_r in P2. exact P2.
        -- split; [discriminate|]. intros Hc.
           rewrite (pending_zero _ _ Hc) in H3. lia.
      * split; [discriminate|]. intros Hc.
        rewrite (pending_zero _ _ Hc) in H3. lia.
    + split; [discriminate|]. intros Hc.
      rewrite (pending_zero _ _ Hc) in H3. lia.
  - destruct (Nat.eqb_spec (executed_rows s) 0) as [He|He]; cbn [andb].
    + destruct (Nat.eqb_spec (archived_rows s) 0) as [Ha|Ha].
      * destruct (stopped_at_row s <=? 2); (split; [discriminate | lia]).
      * split; [lia | reflexivity].
    + split; [lia | reflexivity].
Qed.

Lemma finish_line_no_rows_witness :
  let s := {| executed_rows := 2; archived_rows := 1; stopped_at_row := 5 |} in
  (finish_line s = lit "Mint finished: no rows found (Column B is empty at row 2)."
   <-> cell board 2 1 = [])
  /\ (finish_line s = lit "Mint finished successfully."
      <-> 0 < executed_rows s + archived_rows s).
Proof.
  cbv zeta.
  apply (finish_line_no_rows done_env no_defaults 10 (initial_state board)
           {| executed_rows := 2; archived_rows := 1; stopped_at_row := 5 |}).
  vm_compute. reflexivity.
Defined.

(** ** The archive column on one line *)
Lemma single_line_idempotent v : _single_line (_single_line v) = _single_line v.
Proof. rewrite !single_line_collapse. apply collapse_idempotent. Qed.

Lemma nth_trim_rows rows i : nth i (trim_rows rows) [] = nth i rows [].
Proof.
  revert i; induction rows as [|r rows IH]; intros i; [reflexivity|].
  cbn [trim_rows]. destruct (trim_rows rows) as [|t ts] eqn:E.
  - assert (Hn : forall j, nth j rows [] = [])
      by (intros j; rewrite <- IH; apply nth_nil).
    destruct r as [|c r]; destruct i as [|i]; cbn [nth]; try reflexivity.
    + now rewrite Hn.
    + rewrite Hn. now destruct i.
  - destruct i as [|i]; [reflexivity|]. cbn [nth]. apply IH.
Qed.

Lemma nth_map_cells (f : cells -> cells) l i :
  f [] = [] -> nth i (map f l) [] = f (nth i l []).
Proof.
  intros H. rewrite <- H at 1. apply map_nth.
Qed.

Lemma column_cell_value r col :
  trim_cells (firstn 1 (skipn col r))
  = if truthy (nth col r []) then [nth col r []] else [].
Proof.
  revert r; induction col as [|col IH]; intros r.
  - destruct r as [|c r]; [reflexivity|]. cbn [skipn firstn trim_cells nth].
    reflexivity.
  - destruct r as [|c r]; [reflexivity|]. cbn [skipn nth]. apply IH.
Qed.

Lemma values_get_column_nth g i :
  nth i (values_get_column g 11 2 MAX_ROWS) []
  = if (i <? 1999) && truthy (cell g (2 + i) 11) then [cell g (2 + i) 11] else [].
Proof.
  unfold values_get_column, MAX_ROWS. rewrite nth_trim_rows.
  rewrite nth_map_cells by reflexivity.
  change (2000 + 1 - 2) with 1999. change (2 - 1) with 1.
  destruct (Nat.ltb_spec i 1999) as [H|H]; cbn [andb].
  - rewrite nth_firstn_lt by assumption. rewrite column_cell_value.
    replace (nth i (skipn 1 g) []) with (row_at g (2 + i)); [reflexivity|].
    cbn [Nat.add row_at]. destruct g as [|h g]; [now rewrite skipn_nil, !nth_nil|].
    reflexivity.
  - rewrite nth_overflow; [reflexivity|].
    rewrite length_firstn. lia.
Qed.

Lemma write_column_l_cell values : forall row_number g r col,
  1 <= row_number ->
  cell (write_column_l g (column_l_updates row_number values)) r col
  = if (col =? 11) && (row_number <=? r)
    then match nth (r - row_number) values [] with
         | [] => cell g r col
         | original :: _ =>
             if str_eqb (_single_line original) original then cell g r col
             else _single_line original
         end
    else cell g r col.
Proof.
  induction values as [|row_values values IH]; intros n g r col Hn.
  - cbn [column_l_updates write_column_l]. rewrite nth_nil.
    now destruct ((col =? 11) && (n <=? r)).
  - cbn [column_l_updates].
    assert (Hrest : forall g0,
      cell (write_column_l g0 (column_l_updates (S n) values)) r col
      = if (col =? 11) && (n <=? r)
        then match r - n with
             | 0 => cell g0 r col
             | S k => match nth k values [] with
                      | [] => cell g0 r col
                      | original :: _ =>
                          if str_eqb (_single_line original) original
                          then cell g0 r col else _single_line original
                      end
             end
        else cell g0 r col).
    { intros g0. rewrite IH by lia.
      destruct (Nat.eqb_spec col 11) as [->|Hc]; cbn [andb]; [|reflexivity].
      destruct (Nat.leb_spec n r) as [H1|H1].
      - destruct (Nat.leb_spec (S n) r) as [H2|H2].
        + replace (r - n) with (S (r - S n)) by lia. reflexivity.
        + replace (r - n) with 0 by lia. reflexivity.
      - replace (S n <=? r) with false by (symmetry; apply Nat.leb_gt; lia).
        reflexivity. }
    destruct row_values as [|original rest].
    + rewrite Hrest. destruct ((col =? 11) && (n <=? r)); [|reflexivity].
      destruct (r - n) as [|k]; reflexivity.
    + cbv zeta. destruct (str_eqb (_single_line original) original) eqn:E.
      * rewrite Hrest. destruct ((col =? 11) && (n <=? r)); [|reflexivity].
        destruct (r - n) as [|k]; cbn [nth]; [now rewrite E | reflexivity].
      * cbn [write_column_l]. rewrite Hrest. rewrite !cell_set_cell.
        replace (1 <=? n) with true by (symmetry; apply Nat.leb_le; lia).
        rewrite andb_true_r.
        destruct (Nat.eqb_spec col 11) as [->|Hc]; cbn [andb].
        -- destruct (Nat.leb_spec n r) as [H1|H1].
           ++ destruct (r - n) as [|k] eqn:Ek; cbn [nth].
              ** rewrite E. replace (n =? r) with true
                   by (symmetry; apply Nat.eqb_eq; lia). reflexivity.
              ** replace (n =? r) with false
                   by (symmetry; apply Nat.eqb_neq; lia). reflexivity.
           ++ replace (n =? r) with false by (symmetry; apply Nat.eqb_neq; lia).
              reflexivity.
        -- replace (11 =? col) with false by (symmetry; apply Nat.eqb_neq; lia).
           now rewrite andb_false_r.
Qed.

Lemma column_l_updates_none values : forall row_number,
  (forall i, match nth i values [] with
             | [] => True
             | original :: _ => _single_line original = original
             end) ->
  column_l_updates row_number values = [].
Proof.
  induction values as [|row_values values IH]; intros n H; [reflexivity|].
  cbn [column_l_updates]. rewrite IH by (intros i; apply (H (S i))).
  destruct row_values as [|original rest]; [reflexivity|].
  pose proof (H 0) as H0. cbn [nth] in H0. cbv zeta.
  rewrite H0, str_eqb_refl. reflexivity.
Qed.

Lemma normalize_run {World : Type} (st : state World) :
  normalize_column_l_single_line st
  = (Ok tt,
     {| sheet := write_column_l (sheet st)
                   (column_l_updates 2 (values_get_column (sheet st) 11 2 MAX_ROWS));
        world := world st; trace := trace st |}).
Proof.
  unfold normalize_column_l_single_line, bind, gets.
  destruct (column_l_updates 2 (values_get_column (sheet st) 11 2 MAX_ROWS));
    [destruct st|]; reflexivity.
Qed.

Lemma normalize_cell {World : Type} (st : state World) r col :
  cell (sheet (snd (normalize_column_l_single_line st))) r col
  = if (col =? 11) && (2 <=? r) && (r <=? MAX_ROWS)
    then _single_line (cell (sheet st) r col)
    else cell (sheet st) r col.
Proof.
  rewrite normalize_run. cbn [snd sheet]. rewrite write_column_l_cell by lia.
  destruct (Nat.eqb_spec col 11) as [->|Hc]; cbn [andb]; [|reflexivity].
  destruct (Nat.leb_spec 2 r) as [H2|H2]; cbn [andb]; [|reflexivity].
  rewrite values_get_column_nth. replace (2 + (r - 2)) with r by lia.
  unfold MAX_ROWS.
  destruct (Nat.leb_spec r 2000) as [H3|H3].
  - replace (r - 2 <? 1999) with true by (symmetry; apply Nat.ltb_lt; lia).
    cbn [andb]. destruct (truthy (cell (sheet st) r 11)) eqn:Et.
    + destruct (str_eqb _ _) eqn:E; [|reflexivity]. now apply str_eqb_eq in E.
    + apply truthy_false in Et. now rewrite Et.
  - replace (r - 2 <? 1999) with false by (symmetry; apply Nat.ltb_ge; lia).
    reflexivity.
Qed.

(** X28: [normalize_column_l_single_line] succeeds and leaves every cell of
    L2 to L2000 equal to [_single_line] of what it held, which
    [_single_line] no longer changes; every other cell is as before, and
    a second call changes nothing. *)
Theorem normalize_column_l_spec {World : Type} (st : state World) :
  let out := normalize_column_l_single_line st in
  let g' := sheet (snd out) in
  fst out = Ok tt
  /\ (forall r, 2 <= r <= MAX_ROWS ->
        cell g' r 11 = _single_line (cell (sheet st) r 11)
        /\ _single_line (cell g' r 11) = cell g' r 11)
  /\ (forall r col, col <> 11 \/ r < 2 \/ MAX_ROWS < r ->
        cell g' r col = cell (sheet st) r col)
  /\ normalize_column_l_single_line (snd out) = (Ok tt, snd out).
Proof.
  cbv zeta. pose proof (normalize_cell st) as Hcell.
  split; [now rewrite normalize_run|]. split; [|split].
  - intros r Hr. rewrite (Hcell r 11).
    replace (2 <=? r) with true by (symmetry; apply Nat.leb_le; lia).
    replace (r <=? MAX_ROWS) with true by (symmetry; apply Nat.leb_le; lia).
    cbn [Nat.eqb andb]. split; [reflexivity | apply single_line_idempotent].
  - intros r col H. rewrite (Hcell r col). unfold MAX_ROWS in *.
    nat_cases; reflexivity.
  - set (st1 := snd (normalize_column_l_single_line st)) in *.
    rewrite (normalize_run st1).
    rewrite column_l_updates_none; [destruct st1; reflexivity|].
    intros i. rewrite values_get_column_nth.
    destruct (Nat.ltb_spec i 1999) as [Hi|Hi]; cbn [andb]; [|exact I].
    destruct (truthy (cell (sheet st1) (2 + i) 11)); [|exact I].
    rewrite (Hcell (2 + i) 11).
    replace (2 <=? 2 + i) with true by (symmetry; apply Nat.leb_le; lia).
    replace (2 + i <=? MAX_ROWS) with true
      by (symmetry; apply Nat.leb_le; unfold MAX_ROWS; lia).
    cbn [Nat.eqb andb]. apply single_line_idempotent.
Qed.
